(** * percept-eye-proxy: admission and usage-accounting pipeline

    A shallow embedding of the request pipeline of the proxy
    (src/middleware/auth.js, src/middleware/rateLimiter.js,
    src/services/gemini.js, src/services/supabase.js, src/config/config.js
    and the generateContent route) together with the properties the
    specification states about it.

    Modelling conventions.
    - JavaScript values are the inductive type [value]; objects are
      association lists with distinct keys, arrays are lists.
    - Numbers are IEEE doubles in the source.  The model keeps the special
      values NaN and the two infinities and the rules that produce them
      (0/0, x/0, Infinity - Infinity), and computes finite results exactly
      in [Q], in lowest terms.  Rounding to binary64 and the sign of zero
      are not modelled; the digits [toFixed] prints, which depend on that
      rounding, are a parameter.
    - Strings are sequences of code units; [String.length] is the
      [.length] of the source.
    - Exceptions are values ([throw] accepts any value, and a promise may
      reject with any value, [null] included); a computation returns
      [Ok v] or [Throw e].
    - Effects (log lines, calls to the identity provider, the limits and
      usage store, the upstream API, clock readings) are threaded through
      the state monad [M]; a raised exception keeps the effects performed
      before it.

    Beside the pipeline the development covers the code around it:
    optionalAuth and requireRole, the countTokens, embeddings and streaming
    routes with their services, errorHandler and its error classes
    (src/middleware/errorHandler.js), the authentication and the choice of
    endpoint of the gRPC proxy (src/grpc-proxy.js) and the headers the
    transparent proxy forwards.  The properties numbered X are read off that
    code. *)

From Stdlib Require Import String Ascii List ZArith QArith Qround Qreduction Bool Lia.
From Stdlib Require Qcanon.
From Stdlib Require Import DecimalString.
Import ListNotations.

Set Warnings "-register-all".

Open Scope string_scope.
Open Scope list_scope.

(** ** Numbers *)

Inductive number : Type :=
| NaN
| PosInf
| NegInf
| Fin (q : Q).

Definition num_of_Z (z : Z) : number := Fin (inject_Z z).

Definition Qis_zero (q : Q) : bool := (Qnum q =? 0)%Z.
Definition Qis_neg (q : Q) : bool := (Qnum q <? 0)%Z.

(** [a + b] on numbers. *)
Definition num_add (a b : number) : number :=
  match a, b with
  | NaN, _ | _, NaN => NaN
  | PosInf, NegInf | NegInf, PosInf => NaN
  | PosInf, _ | _, PosInf => PosInf
  | NegInf, _ | _, NegInf => NegInf
  | Fin p, Fin q => Fin (Qred (p + q))
  end.

(** [a * b] on numbers. *)
Definition num_mul (a b : number) : number :=
  match a, b with
  | NaN, _ | _, NaN => NaN
  | PosInf, PosInf | NegInf, NegInf => PosInf
  | PosInf, NegInf | NegInf, PosInf => NegInf
  | PosInf, Fin q | Fin q, PosInf =>
      if Qis_zero q then NaN else if Qis_neg q then NegInf else PosInf
  | NegInf, Fin q | Fin q, NegInf =>
      if Qis_zero q then NaN else if Qis_neg q then PosInf else NegInf
  | Fin p, Fin q => Fin (Qred (p * q))
  end.

(** [a / b] on numbers: a zero divisor gives NaN for a zero dividend and an
    infinity otherwise. *)
Definition num_div (a b : number) : number :=
  match a, b with
  | NaN, _ | _, NaN => NaN
  | PosInf, PosInf | PosInf, NegInf | NegInf, PosInf | NegInf, NegInf => NaN
  | PosInf, Fin q => if Qis_neg q then NegInf else PosInf
  | NegInf, Fin q => if Qis_neg q then PosInf else NegInf
  | Fin _, PosInf | Fin _, NegInf => Fin 0
  | Fin p, Fin q =>
      if Qis_zero q
      then (if Qis_zero p then NaN else if Qis_neg p then NegInf else PosInf)
      else Fin (Qred (p / q))
  end.

(** [Math.ceil]. *)
Definition num_ceil (a : number) : number :=
  match a with
  | Fin q => num_of_Z (Qceiling q)
  | other => other
  end.

Definition num_is_finite (a : number) : bool :=
  match a with Fin _ => true | _ => false end.

(** [0 <= a], false on NaN as every comparison with NaN is. *)
Definition num_nonneg (a : number) : bool :=
  match a with
  | Fin q => negb (Qis_neg q)
  | PosInf => true
  | _ => false
  end.

(** ** Values *)

Inductive value : Type :=
| VUndefined
| VNull
| VBool (b : bool)
| VNum (n : number)
| VStr (s : string)
| VArr (items : list value)
| VObj (fields : list (string * value))
| VBuiltin (name : string).
(* [VBuiltin k]: the built-in function or object that a plain object
   inherits under the name [k] from Object.prototype.  It is truthy and has
   none of the data properties the program reads. *)

Inductive result (A : Type) : Type :=
| Ok (a : A)
| Throw (e : value).
Arguments Ok {A} a.
Arguments Throw {A} e.

Definition rbind {A B} (r : result A) (k : A -> result B) : result B :=
  match r with
  | Ok a => k a
  | Throw e => Throw e
  end.

Notation "'let?' x ':=' e 'in' k" := (rbind e (fun x => k))
  (at level 10, x name, e at level 100, k at level 200).

Definition mkError (name msg : string) : value :=
  VObj [("name", VStr name); ("message", VStr msg)].
Definition TypeError (msg : string) : value := mkError "TypeError" msg.
Definition Error (msg : string) : value := mkError "Error" msg.

Fixpoint lookup {A} (k : string) (l : list (string * A)) : option A :=
  match l with
  | [] => None
  | (k', v) :: rest => if String.eqb k k' then Some v else lookup k rest
  end.

(** The names every plain object inherits from Object.prototype. *)
Definition object_prototype_names : list string :=
  [ "constructor"; "__defineGetter__"; "__defineSetter__"; "hasOwnProperty";
    "__lookupGetter__"; "__lookupSetter__"; "isPrototypeOf";
    "propertyIsEnumerable"; "toString"; "valueOf"; "__proto__";
    "toLocaleString" ].

Definition is_inherited_name (k : string) : bool :=
  existsb (String.eqb k) object_prototype_names.

Definition inherited (k : string) : value :=
  if is_inherited_name k then VBuiltin k else VUndefined.

Definition num_of_nat (n : nat) : number := num_of_Z (Z.of_nat n).

(** [v.k] and [v[k]] for a string key: own property first, then the
    prototype chain; reading a property of [undefined] or [null] throws. *)
Definition get_prop (v : value) (k : string) : result value :=
  match v with
  | VUndefined | VNull =>
      Throw (TypeError ("Cannot read properties of undefined or null: " ++ k))
  | VObj fields =>
      Ok (match lookup k fields with Some x => x | None => inherited k end)
  | VArr items =>
      Ok (if String.eqb k "length" then VNum (num_of_nat (List.length items))
          else inherited k)
  | VStr s =>
      Ok (if String.eqb k "length" then VNum (num_of_nat (String.length s))
          else inherited k)
  | VBool _ | VNum _ | VBuiltin _ => Ok (inherited k)
  end.

(** [v?.k]. *)
Definition get_prop_opt (v : value) (k : string) : result value :=
  match v with
  | VUndefined | VNull => Ok VUndefined
  | _ => get_prop v k
  end.

Arguments get_prop !v k : simpl nomatch.
Arguments get_prop_opt !v k : simpl nomatch.

Definition index_key (i : nat) : string :=
  NilEmpty.string_of_uint (Nat.to_uint i).

(** [v[i]] for a numeric index. *)
Definition get_index (v : value) (i : nat) : result value :=
  match v with
  | VArr items => Ok (nth i items VUndefined)
  | VStr s =>
      Ok (match String.get i s with
          | Some c => VStr (String c EmptyString)
          | None => VUndefined
          end)
  | other => get_prop other (index_key i)
  end.

Definition num_truthy (n : number) : bool :=
  match n with
  | NaN => false
  | Fin q => negb (Qis_zero q)
  | _ => true
  end.

Definition truthy (v : value) : bool :=
  match v with
  | VUndefined | VNull => false
  | VBool b => b
  | VNum n => num_truthy n
  | VStr s => negb (String.eqb s "")
  | VArr _ | VObj _ | VBuiltin _ => true
  end.

(** [a || b] with [b] already evaluated. *)
Definition js_or (a b : value) : value := if truthy a then a else b.

(** [undefined] and [null], the two values no property of which can be
    read. *)
Definition nullish (v : value) : bool :=
  match v with
  | VUndefined | VNull => true
  | _ => false
  end.

Definition isArray (v : value) : bool :=
  match v with VArr _ => true | _ => false end.

(** [v === s] for a string literal [s]. *)
Definition strict_eq_str (v : value) (s : string) : bool :=
  match v with VStr s' => String.eqb s' s | _ => false end.

Fixpoint chars (s : string) : list value :=
  match s with
  | EmptyString => []
  | String c rest => VStr (String c EmptyString) :: chars rest
  end.

(** The values a [for ... of] loop visits. *)
Definition iterate (v : value) : result (list value) :=
  match v with
  | VArr items => Ok items
  | VStr s => Ok (chars s)
  | _ => Throw (TypeError "value is not iterable")
  end.

(** Own enumerable properties copied by an object spread [{...v}]. *)
Fixpoint indexed (i : nat) (l : list value) : list (string * value) :=
  match l with
  | [] => []
  | x :: rest => (index_key i, x) :: indexed (S i) rest
  end.

Definition spread (v : value) : list (string * value) :=
  match v with
  | VObj fields => fields
  | VArr items => indexed 0 items
  | VStr s => indexed 0 (chars s)
  | _ => []
  end.

(** [{...fields, k: v}]: an existing key keeps its place. *)
Fixpoint set_field (k : string) (v : value) (fields : list (string * value))
  : list (string * value) :=
  match fields with
  | [] => [(k, v)]
  | (k', v') :: rest =>
      if String.eqb k k' then (k, v) :: rest
      else (k', v') :: set_field k v rest
  end.

(** ** Effects *)

Inductive level : Type := Debug | Info | Warn | Err.

(** What a request does to the outside world, in the order it happens.  A
    log line is recorded with its level and message; its metadata object is
    not recorded. *)
Inductive event : Type :=
| EvLog (lvl : level) (msg : string)
| EvGetUser (admin : bool) (token : string)
| EvRpc (fn : string) (args : value)
| EvSelect (table : string) (key : value)
| EvInsert (table : string) (row : value)
| EvHttpPost (url : string) (body : value).

Record world : Type := {
  trace : list event;
  ticks : nat
}.

Definition M (A : Type) : Type := world -> result A * world.

Definition ret {A} (a : A) : M A := fun w => (Ok a, w).

Definition throw {A} (e : value) : M A := fun w => (Throw e, w).

Definition bind {A B} (m : M A) (k : A -> M B) : M B :=
  fun w =>
    match m w with
    | (Ok a, w') => k a w'
    | (Throw e, w') => (Throw e, w')
    end.

Notation "x <- m ;; k" := (bind m (fun x => k))
  (at level 100, m at next level, right associativity).
Notation "m ;; k" := (bind m (fun _ => k))
  (at level 100, right associativity).

(** [try { m } catch (e) { h e }]. *)
Definition try_catch {A} (m : M A) (h : value -> M A) : M A :=
  fun w =>
    match m w with
    | (Ok a, w') => (Ok a, w')
    | (Throw e, w') => h e w'
    end.

Definition lift {A} (r : result A) : M A := fun w => (r, w).

Definition emit (e : event) : M unit :=
  fun w => (Ok tt, {| trace := trace w ++ [e]; ticks := ticks w |}).

Definition log (lvl : level) (msg : string) : M unit := emit (EvLog lvl msg).

(** The world after further events. *)
Definition logged (w : world) (events : list event) : world :=
  {| trace := trace w ++ events; ticks := ticks w |}.

(** The answer of a collaborator (identity provider, store, upstream API)
    to one call: the promise resolves with a value or rejects with one; a
    rejection may carry any value, [null] and [undefined] included. *)
Inductive call : Type :=
| Resolves (v : value)
| Rejects (err : value).

(** [await] of a call to a collaborator: the call is made, then its answer
    is returned or thrown. *)
Definition await (ev : event) (c : call) : M value :=
  emit ev ;;
  match c with
  | Resolves v => ret v
  | Rejects err => throw err
  end.

(** A promise that is started and not awaited, with a [.catch] handler: the
    task is run where it is started, a rejection goes to the handler, and
    the caller sees neither its result nor a rejection of the handler. *)
Definition detach (task : M unit) (handler : value -> M unit) : M unit :=
  fun w => (Ok tt, snd (try_catch task handler w)).

(** The collaborators of one deployment. *)
Record env : Type := {
  auth_getUser : bool -> string -> call;
  store_rpc : string -> value -> call;
  store_select : string -> value -> call;
  store_insert : string -> value -> call;
  axios_post : string -> value -> call;
  clock : nat -> Z;
  apiKey : string
}.

(** [Date.now()]: the next reading of the wall clock. *)
Definition Date_now (E : env) : M Z :=
  fun w => (Ok (clock E (ticks w)), {| trace := trace w; ticks := S (ticks w) |}).

(** ** Requests and responses *)

Record response : Type := {
  status : value;
  headers : list (string * value);
  body : value
}.

Record request : Type := {
  authorization : option string;
  params_model : string;
  req_body : value;
  req_id : value;
  user : value;
  userProfile : value;
  userLimits : value;
  estimatedTokens : value
}.

(** What a middleware does with a request: pass it on with [next()], or
    answer it. *)
Inductive mw : Type :=
| Next (req : request)
| Sent (res : response).

Definition middleware : Type := request -> M mw.

(** A route: the middlewares in order, then the handler. *)
Fixpoint run_chain (ms : list middleware) (handler : request -> M response)
  (req : request) : M response :=
  match ms with
  | [] => handler req
  | m :: rest =>
      r <- m req ;;
      match r with
      | Next req' => run_chain rest handler req'
      | Sent res => ret res
      end
  end.

Definition json (code : Z) (b : value) : response :=
  {| status := VNum (num_of_Z code); headers := []; body := b |}.

Section Proxy.

(** ECMAScript's ToNumber on strings and on objects (StringToNumber, and
    ToPrimitive followed by it) is taken as given. *)
Variable ToNumber_object : value -> number.

Definition ToNumber (v : value) : number :=
  match v with
  | VUndefined => NaN
  | VNull => Fin 0
  | VBool true => Fin 1
  | VBool false => Fin 0
  | VNum n => n
  | other => ToNumber_object other
  end.

(** [a / b] on values. *)
Definition js_div (a b : value) : number := num_div (ToNumber a) (ToNumber b).

(** [Math.ceil(a / b)]. *)
Definition ceil_div (a b : value) : number := num_ceil (js_div a b).

(** ** config.pricing (src/config/config.js) *)

Record PricingEntry : Type := {
  inputTokensPerDollar : number;
  outputTokensPerDollar : number
}.

(** [1000000 / price]. *)
Definition per_million (price : Q) : number := num_div (Fin 1000000) (Fin price).

Definition pricing_entries : list (string * PricingEntry) :=
  [ ("gemini-pro", {| inputTokensPerDollar := per_million 0.50;
                      outputTokensPerDollar := per_million 1.50 |});
    ("gemini-pro-vision", {| inputTokensPerDollar := per_million 0.50;
                             outputTokensPerDollar := per_million 1.50 |});
    ("gemini-1.5-pro", {| inputTokensPerDollar := per_million 3.50;
                          outputTokensPerDollar := per_million 10.50 |});
    ("gemini-1.5-pro-latest", {| inputTokensPerDollar := per_million 3.50;
                                 outputTokensPerDollar := per_million 10.50 |});
    ("gemini-1.5-flash", {| inputTokensPerDollar := per_million 0.075;
                            outputTokensPerDollar := per_million 0.30 |});
    ("gemini-1.5-flash-latest", {| inputTokensPerDollar := per_million 0.075;
                                   outputTokensPerDollar := per_million 0.30 |});
    ("gemini-1.5-flash-8b", {| inputTokensPerDollar := per_million 0.0375;
                               outputTokensPerDollar := per_million 0.15 |});
    ("gemini-1.5-flash-8b-latest", {| inputTokensPerDollar := per_million 0.0375;
                                      outputTokensPerDollar := per_million 0.15 |});
    ("gemini-embedding-001", {| inputTokensPerDollar := per_million 0.15;
                                outputTokensPerDollar := Fin 0 |});
    ("gemini-2.0-flash-exp", {| inputTokensPerDollar := per_million 0.075;
                                outputTokensPerDollar := per_million 0.30 |});
    ("gemini-2.5-pro", {| inputTokensPerDollar := per_million 3.50;
                          outputTokensPerDollar := per_million 10.50 |});
    ("gemini-2.5-pro-latest", {| inputTokensPerDollar := per_million 3.50;
                                 outputTokensPerDollar := per_million 10.50 |}) ].

Definition entry_value (e : PricingEntry) : value :=
  VObj [ ("inputTokensPerDollar", VNum (inputTokensPerDollar e));
         ("outputTokensPerDollar", VNum (outputTokensPerDollar e)) ].

(** The object literal [config.pricing]. *)
Definition config_pricing : value :=
  VObj (map (fun kv => (fst kv, entry_value (snd kv))) pricing_entries).

(** ** GeminiService.calculateCost (src/services/gemini.js) *)

Definition calculateCost (inputTokens outputTokens : value) (modelName : string)
  : result number :=
  let? own := get_prop config_pricing modelName in
  let? pricing :=
    (if truthy own then Ok own else get_prop config_pricing "gemini-pro") in
  let? inRate := get_prop pricing "inputTokensPerDollar" in
  let inputCost := js_div inputTokens inRate in
  let? outRate := get_prop pricing "outputTokensPerDollar" in
  let outputCost := js_div outputTokens outRate in
  Ok (num_add inputCost outputCost).


(** [parseFloat] and [Date.prototype.toISOString] are taken as given; clock
    readings are wall-clock instants in milliseconds, well inside the range
    of [Date]. *)
Variable parseFloat : value -> number.
Variable toISOString : Z -> string.

(** [Number.prototype.toFixed] is taken as given on finite numbers: the
    digits it prints are those of the double the program holds, which the
    exact arithmetic of this development does not determine. *)
Variable toFixed : Q -> nat -> string.

(** [parseFloat(x.toFixed(6))].  NaN and the infinities are printed as
    'NaN', 'Infinity' and '-Infinity' and parse back as themselves. *)
Definition parseFloat_toFixed6 (x : number) : number :=
  match x with
  | Fin q => parseFloat (VStr (toFixed q 6))
  | other => other
  end.

(** ** SupabaseService (src/services/supabase.js) *)

Definition token_result (u e : value) : value :=
  VObj [("user", u); ("error", e)].

(** Reading [error.message] and [error.stack] of a caught value for a log
    line. *)
Definition read_error (e : value) : M unit :=
  _ <- lift (get_prop e "message") ;;
  _ <- lift (get_prop e "stack") ;;
  ret tt.

Definition verifyToken (E : env) (token : string) : M value :=
  try_catch
    (log Debug "Starting token verification" ;;
     r <- await (EvGetUser false token) (auth_getUser E false token) ;;
     data <- lift (get_prop r "data") ;;
     user <- lift (get_prop data "user") ;;
     error <- lift (get_prop r "error") ;;
     if truthy error then
       log Warn "Primary token verification failed, trying admin method" ;;
       try_catch
         (r' <- await (EvGetUser true token) (auth_getUser E true token) ;;
          data' <- lift (get_prop r' "data") ;;
          adminUser <- lift (get_prop data' "user") ;;
          adminError <- lift (get_prop r' "error") ;;
          if truthy adminError then
            log Warn "Admin token verification also failed" ;;
            ret (token_result VNull adminError)
          else
            log Debug "Admin token verification successful" ;;
            ret (token_result adminUser VNull))
         (fun adminErr =>
            read_error adminErr ;;
            log Err "Admin token verification threw exception" ;;
            ret (token_result VNull adminErr))
     else
       log Debug "Primary token verification successful" ;;
       ret (token_result user VNull))
    (fun error =>
       read_error error ;;
       log Err "Error verifying token" ;;
       ret (token_result VNull error)).

Definition default_limits : value :=
  VObj [ ("within_hourly_limit", VBool false);
         ("within_daily_token_limit", VBool false);
         ("within_daily_cost_limit", VBool false);
         ("requests_last_hour", VNum (Fin 0));
         ("tokens_today", VNum (Fin 0));
         ("cost_today", VNum (Fin 0)) ].

Definition svc_checkUserLimits (E : env) (userId : value) : M value :=
  try_catch
    (let args := VObj [("p_user_id", userId)] in
     r <- await (EvRpc "check_user_limits" args)
                (store_rpc E "check_user_limits" args) ;;
     data <- lift (get_prop r "data") ;;
     error <- lift (get_prop r "error") ;;
     if truthy error then
       log Err "Error checking user limits" ;;
       throw (Error "Failed to check user limits")
     else
       row <- lift (get_index data 0) ;;
       ret (js_or row default_limits))
    (fun error =>
       _ <- lift (get_prop error "message") ;;
       log Err "Error in checkUserLimits" ;;
       throw error).

Definition usage_row (userId tokensUsed : value) (cost : number)
  (modelName requestType : string) : value :=
  VObj [ ("user_id", userId); ("tokens_used", tokensUsed);
         ("cost", VNum cost); ("model_name", VStr modelName);
         ("request_type", VStr requestType); ("service", VStr "gemini") ].

Definition svc_recordUsage (E : env) (userId tokensUsed : value) (cost : number)
  (modelName requestType : string) : M value :=
  try_catch
    (let row := usage_row userId tokensUsed cost modelName requestType in
     r <- await (EvInsert "api_usage" row) (store_insert E "api_usage" row) ;;
     data <- lift (get_prop r "data") ;;
     error <- lift (get_prop r "error") ;;
     if truthy error then
       log Err "Error recording usage" ;;
       throw (Error "Failed to record usage")
     else
       log Info "Usage recorded successfully" ;;
       ret data)
    (fun error =>
       _ <- lift (get_prop error "message") ;;
       log Err "Error in recordUsage" ;;
       throw error).

Definition new_profile (userId : value) : value :=
  VObj [ ("user_id", userId); ("subscription_tier", VStr "free");
         ("is_active", VBool true) ].

Definition getUserProfile (E : env) (userId : value) : M value :=
  try_catch
    (r <- await (EvSelect "user_profiles" userId)
                (store_select E "user_profiles" userId) ;;
     profile <- lift (get_prop r "data") ;;
     error <- lift (get_prop r "error") ;;
     code <- lift (get_prop_opt error "code") ;;
     if truthy error && strict_eq_str code "PGRST116" then
       r' <- await (EvInsert "user_profiles" (new_profile userId))
                   (store_insert E "user_profiles" (new_profile userId)) ;;
       newProfile <- lift (get_prop r' "data") ;;
       insertError <- lift (get_prop r' "error") ;;
       if truthy insertError then
         log Err "Error creating user profile" ;;
         throw (Error "Failed to create user profile")
       else
         log Info "Created new user profile" ;;
         ret newProfile
     else if truthy error then
       log Err "Error getting user profile" ;;
       throw (Error "Failed to get user profile")
     else ret profile)
    (fun error =>
       _ <- lift (get_prop error "message") ;;
       log Err "Error in getUserProfile" ;;
       throw error).

(** ** authenticateUser (src/middleware/auth.js) *)

Definition set_principal (req : request) (u p : value) : request :=
  {| authorization := authorization req; params_model := params_model req;
     req_body := req_body req; req_id := req_id req;
     user := u; userProfile := p;
     userLimits := userLimits req; estimatedTokens := estimatedTokens req |}.

Definition message_body (error message : string) : value :=
  VObj [("error", VStr error); ("message", VStr message)].

Definition authentication_required : response :=
  json 401 (message_body "Authentication required"
                         "Please provide a valid Bearer token").

Definition invalid_token : response :=
  json 401 (message_body "Invalid or expired token" "Please authenticate again").

Definition account_inactive : response :=
  json 403 (message_body "Account inactive"
     "Your account has been deactivated. Please contact support.").

Definition auth_service_error : response :=
  json 500 (message_body "Authentication service error" "Please try again later").

(** [authHeader.substring(7)]. *)
Definition substring_from (n : nat) (s : string) : string :=
  String.substring n (String.length s - n) s.

Definition authenticateUser (E : env) : middleware := fun req =>
  try_catch
    (match authorization req with
     | Some authHeader =>
         if negb (truthy (VStr authHeader))
            || negb (String.prefix "Bearer " authHeader)
         then
           log Warn "Missing or invalid authorization header" ;;
           ret (Sent authentication_required)
         else
           let token := substring_from 7 authHeader in
           r <- verifyToken E token ;;
           user <- lift (get_prop r "user") ;;
           error <- lift (get_prop r "error") ;;
           if truthy error || negb (truthy user) then
             _ <- lift (get_prop_opt error "message") ;;
             log Warn "Token verification failed" ;;
             ret (Sent invalid_token)
           else
             userId <- lift (get_prop user "id") ;;
             profile <- getUserProfile E userId ;;
             active <- lift (get_prop profile "is_active") ;;
             if negb (truthy active) then
               log Warn "Inactive user attempted access" ;;
               ret (Sent account_inactive)
             else
               log Info "User authenticated successfully" ;;
               ret (Next (set_principal req user profile))
     | None =>
         log Warn "Missing or invalid authorization header" ;;
         ret (Sent authentication_required)
     end)
    (fun error =>
       read_error error ;;
       log Err "Authentication middleware error" ;;
       ret (Sent auth_service_error)).

(** ** checkUserLimits and estimateTokenUsage (src/middleware/rateLimiter.js) *)

Definition set_userLimits (req : request) (l : value) : request :=
  {| authorization := authorization req; params_model := params_model req;
     req_body := req_body req; req_id := req_id req;
     user := user req; userProfile := userProfile req;
     userLimits := l; estimatedTokens := estimatedTokens req |}.

Definition set_estimatedTokens (req : request) (t : value) : request :=
  {| authorization := authorization req; params_model := params_model req;
     req_body := req_body req; req_id := req_id req;
     user := user req; userProfile := userProfile req;
     userLimits := userLimits req; estimatedTokens := t |}.

(** [config.rateLimit.windowMs] and the literal [24 * 60 * 60 * 1000]. *)
Definition windowMs : Z := 60 * 60 * 1000.
Definition dayMs : Z := 24 * 60 * 60 * 1000.

Definition limit_response (error message counter : string) (observed : value)
  (reset : Z) : response :=
  json 429
    (VObj [ ("error", VStr error); ("message", VStr message);
            ("details", VObj [ (counter, observed);
                               ("reset_time", VStr (toISOString reset)) ]) ]).

Definition checkUserLimits (E : env) : middleware := fun req =>
  try_catch
    (if negb (truthy (user req)) then ret (Next req)
     else
       userId <- lift (get_prop (user req) "id") ;;
       limits <- svc_checkUserLimits E userId ;;
       log Info "Checking user limits" ;;
       hourly <- lift (get_prop limits "within_hourly_limit") ;;
       if negb (truthy hourly) then
         requests <- lift (get_prop limits "requests_last_hour") ;;
         log Warn "User exceeded hourly request limit" ;;
         now <- Date_now E ;;
         ret (Sent (limit_response "Rate limit exceeded"
                      "You have exceeded your hourly request limit"
                      "requests_last_hour" requests (now + windowMs)))
       else
         tokens_ok <- lift (get_prop limits "within_daily_token_limit") ;;
         if negb (truthy tokens_ok) then
           tokens <- lift (get_prop limits "tokens_today") ;;
           log Warn "User exceeded daily token limit" ;;
           now <- Date_now E ;;
           ret (Sent (limit_response "Token limit exceeded"
                        "You have exceeded your daily token limit"
                        "tokens_today" tokens (now + dayMs)))
         else
           cost_ok <- lift (get_prop limits "within_daily_cost_limit") ;;
           if negb (truthy cost_ok) then
             cost <- lift (get_prop limits "cost_today") ;;
             log Warn "User exceeded daily cost limit" ;;
             now <- Date_now E ;;
             ret (Sent (limit_response "Cost limit exceeded"
                          "You have exceeded your daily cost limit"
                          "cost_today" (VNum (parseFloat cost)) (now + dayMs)))
           else
             ret (Next (set_userLimits req limits)))
    (fun error =>
       _ <- lift (get_prop_opt (user req) "id") ;;
       read_error error ;;
       log Err "Error checking user limits" ;;
       ret (Next req)).

Fixpoint for_of {A} (step : A -> value -> result A) (items : list value)
  (acc : A) : result A :=
  match items with
  | [] => Ok acc
  | x :: rest => let? acc' := step acc x in for_of step rest acc'
  end.

(** [Math.ceil(text.length / 4)]. *)
Definition text_tokens (text : value) : result number :=
  let? len := get_prop text "length" in
  Ok (ceil_div len (VNum (Fin 4))).

Definition estimate_part (est : number) (part : value) : result number :=
  let? text := get_prop part "text" in
  let? est1 :=
    (if truthy text
     then let? t := text_tokens text in Ok (num_add est t)
     else Ok est) in
  let? inlineData := get_prop part "inlineData" in
  Ok (if truthy inlineData then num_add est1 (Fin 1000) else est1).

Definition estimate_content (est : number) (content : value) : result number :=
  let? parts := get_prop content "parts" in
  if truthy parts && isArray parts
  then let? items := iterate parts in for_of estimate_part items est
  else Ok est.

Definition estimate_input (body : value) : result number :=
  let? contents := get_prop body "contents" in
  let? est :=
    (if truthy contents && isArray contents
     then let? items := iterate contents in for_of estimate_content items (Fin 0)
     else
       let? prompt := get_prop body "prompt" in
       if truthy prompt then text_tokens prompt else Ok (Fin 0)) in
  Ok (num_add est (Fin 100)).

Definition estimate_value (input total : number) : value :=
  VObj [("input", VNum input); ("total", VNum total)].

Definition estimateTokenUsage : middleware := fun req =>
  try_catch
    (input <- lift (estimate_input (req_body req)) ;;
     let req' :=
       set_estimatedTokens req (estimate_value input (num_mul input (Fin 2))) in
     _ <- lift (get_prop_opt (user req) "id") ;;
     log Info "Token usage estimated" ;;
     ret (Next req'))
    (fun error =>
       _ <- lift (get_prop error "message") ;;
       _ <- lift (get_prop_opt (user req) "id") ;;
       log Err "Error estimating token usage" ;;
       ret (Next (set_estimatedTokens req (estimate_value (Fin 0) (Fin 0))))).

(** ** GeminiService (src/services/gemini.js) *)

Definition usage_value (prompt candidates total : value) : value :=
  VObj [ ("promptTokenCount", prompt); ("candidatesTokenCount", candidates);
         ("totalTokenCount", total) ].

Definition zero_usage : value :=
  usage_value (VNum (Fin 0)) (VNum (Fin 0)) (VNum (Fin 0)).

Definition count_part (outputTokens : number) (part : value) : result number :=
  let? text := get_prop part "text" in
  if truthy text
  then let? t := text_tokens text in Ok (num_add outputTokens t)
  else Ok outputTokens.

Definition count_candidate (outputTokens : number) (candidate : value)
  : result number :=
  let? content := get_prop candidate "content" in
  if truthy content then
    let? parts := get_prop content "parts" in
    if truthy parts
    then let? items := iterate parts in for_of count_part items outputTokens
    else Ok outputTokens
  else Ok outputTokens.

(** The body of the [try] block of extractTokenUsage. *)
Definition extract_body (response : value) : result value :=
  let? data := get_prop response "data" in
  let? usageMetadata := get_prop_opt data "usageMetadata" in
  if truthy usageMetadata then
    let? p := get_prop usageMetadata "promptTokenCount" in
    let? c := get_prop usageMetadata "candidatesTokenCount" in
    let? t := get_prop usageMetadata "totalTokenCount" in
    Ok (usage_value (js_or p (VNum (Fin 0))) (js_or c (VNum (Fin 0)))
                    (js_or t (VNum (Fin 0))))
  else
    let? candidates := get_prop_opt data "candidates" in
    let? outputTokens :=
      (if truthy candidates
       then let? items := iterate candidates in
            for_of count_candidate items (Fin 0)
       else Ok (Fin 0)) in
    Ok (usage_value (VNum (Fin 0)) (VNum outputTokens) (VNum outputTokens)).

Definition extractTokenUsage (response : value) : M value :=
  try_catch
    (lift (extract_body response))
    (fun error =>
       _ <- lift (get_prop error "message") ;;
       log Err "Error extracting token usage" ;;
       ret zero_usage).

Definition recordUsage (E : env) (userId tokenUsage : value) (modelName requestType : string)
  (cost : number) : M unit :=
  try_catch
    (total <- lift (get_prop tokenUsage "totalTokenCount") ;;
     _ <- svc_recordUsage E userId total cost modelName requestType ;;
     ret tt)
    (fun error =>
       _ <- lift (get_prop error "message") ;;
       log Err "Failed to record usage in database").

Definition baseUrl : string := "https://generativelanguage.googleapis.com".

Definition generateContent_url (E : env) (modelName : string) : string :=
  baseUrl ++ "/v1beta/models/" ++ modelName ++ ":generateContent?key=" ++ apiKey E.

(** The object thrown for a failed upstream call. *)
Definition upstream_error (error : value) : M value :=
  _ <- lift (get_prop error "message") ;;
  resp <- lift (get_prop error "response") ;;
  _ <- lift (get_prop_opt resp "status") ;;
  _ <- lift (get_prop_opt resp "data") ;;
  log Err "Gemini API request failed" ;;
  if truthy resp then
    geminiError <- lift (get_prop resp "data") ;;
    st <- lift (get_prop resp "status") ;;
    inner <- lift (get_prop geminiError "error") ;;
    m <- lift (get_prop_opt inner "message") ;;
    c <- lift (get_prop_opt inner "code") ;;
    d <- lift (get_prop_opt inner "details") ;;
    throw (VObj [ ("status", st);
                  ("message", js_or m (VStr "Gemini API error"));
                  ("code", js_or c (VStr "UNKNOWN_ERROR"));
                  ("details", js_or d (VArr [])) ])
  else
    throw (VObj [ ("status", VNum (num_of_Z 500));
                  ("message", VStr "Failed to connect to Gemini API");
                  ("code", VStr "CONNECTION_ERROR") ]).

Definition generateContent (E : env) (modelName : string) (requestBody userId : value)
  (requestType : string) : M value :=
  try_catch
    (let url := generateContent_url E modelName in
     log Info "Making Gemini API request" ;;
     startTime <- Date_now E ;;
     response <- await (EvHttpPost url requestBody) (axios_post E url requestBody) ;;
     finished <- Date_now E ;;
     tokenUsage <- extractTokenUsage response ;;
     p <- lift (get_prop tokenUsage "promptTokenCount") ;;
     c <- lift (get_prop tokenUsage "candidatesTokenCount") ;;
     cost <- lift (calculateCost p c modelName) ;;
     st <- lift (get_prop response "status") ;;
     log Info "Gemini API request completed" ;;
     (if truthy userId then
        detach (recordUsage E userId tokenUsage modelName requestType cost)
               (fun error =>
                  _ <- lift (get_prop error "message") ;;
                  log Err "Async usage recording failed")
      else ret tt) ;;
     data <- lift (get_prop response "data") ;;
     meta <- lift (get_prop data "usageMetadata") ;;
     timestamp <- Date_now E ;;
     let usageMetadata :=
       VObj (set_field "timestamp" (VStr (toISOString timestamp))
              (set_field "model" (VStr modelName)
                (set_field "cost" (VNum (parseFloat_toFixed6 cost)) (spread meta)))) in
     hs <- lift (get_prop response "headers") ;;
     ret (VObj [ ("data", VObj (set_field "usageMetadata" usageMetadata (spread data)));
                 ("status", st); ("headers", hs) ]))
    upstream_error.

(** ** The generateContent route (src/routes/gemini.js) *)

Definition allowedModels : list string :=
  [ "gemini-2.5-pro"; "gemini-2.5-pro-latest"; "gemini-2.0-flash-exp";
    "gemini-1.5-pro"; "gemini-1.5-pro-latest"; "gemini-1.5-flash";
    "gemini-1.5-flash-latest"; "gemini-1.5-flash-8b";
    "gemini-1.5-flash-8b-latest"; "gemini-embedding-001";
    "text-embedding-004"; "text-multilingual-embedding-002";
    "gemini-pro"; "gemini-pro-vision" ].

Definition includes (l : list string) (s : string) : bool :=
  existsb (String.eqb s) l.

Definition validateModel : middleware := fun req =>
  let model := params_model req in
  if negb (includes allowedModels model) then
    ret (Sent (json 400
      (message_body "Invalid model"
         ("Model '" ++ model ++ "' is not supported. Allowed models: "
          ++ String.concat ", " allowedModels))))
  else ret (Next req).

Definition generateContent_handler (E : env) (req : request) : M response :=
  try_catch
    (let model := params_model req in
     userId <- lift (get_prop (user req) "id") ;;
     log Info "Generate content request" ;;
     r <- generateContent E model (req_body req) userId "generate" ;;
     st <- lift (get_prop r "status") ;;
     data <- lift (get_prop r "data") ;;
     ret {| status := st;
            headers := [ ("Content-Type", VStr "application/json");
                         ("X-User-ID", userId);
                         ("X-Model", VStr model);
                         ("X-Request-ID", js_or (req_id req) (VStr "unknown")) ];
            body := data |})
    (fun error =>
       _ <- lift (get_prop_opt (user req) "id") ;;
       m <- lift (get_prop error "message") ;;
       log Err "Generate content error" ;;
       st <- lift (get_prop error "status") ;;
       c <- lift (get_prop error "code") ;;
       ret {| status := js_or st (VNum (num_of_Z 500));
              headers := [];
              body := VObj [ ("error", js_or c (VStr "INTERNAL_ERROR"));
                             ("message",
                              js_or m (VStr "An unexpected error occurred")) ] |}).

(** The stages of the route that follow authentication and validation. *)
Definition guarded_pipeline (E : env) : request -> M response :=
  run_chain [checkUserLimits E; estimateTokenUsage] (generateContent_handler E).

(** Joi's verdict on a request body is taken as given: [None] when the body
    matches the schema, otherwise the first message and the details. *)
Variable generateContentSchema : value -> option (string * value).

Definition validateRequest (schema : value -> option (string * value)) : middleware :=
  fun req =>
    match schema (req_body req) with
    | Some (message, details) =>
        log Warn "Request validation failed" ;;
        ret (Sent (json 400 (VObj [ ("error", VStr "Validation error");
                                    ("message", VStr message);
                                    ("details", details) ])))
    | None => ret (Next req)
    end.

Definition generateContent_route (E : env) : request -> M response :=
  run_chain [ authenticateUser E; validateModel;
              validateRequest generateContentSchema;
              checkUserLimits E; estimateTokenUsage ]
            (generateContent_handler E).

(** ** Vocabulary of the specification *)

(** *** Cost Calculator (spec 4.4) *)

(** The designated default entry: the legacy 'gemini-pro' rates. *)
Definition default_entry : PricingEntry :=
  {| inputTokensPerDollar := per_million 0.50;
     outputTokensPerDollar := per_million 1.50 |}.

(** [pricing[modelId]], with the default entry for an id that is absent from
    the table. *)
Definition pricing_for (modelId : string) : PricingEntry :=
  match lookup modelId pricing_entries with
  | Some e => e
  | None => default_entry
  end.

(** [inputTokens / pricing[modelId].inputTokensPerDollar
     + outputTokens / pricing[modelId].outputTokensPerDollar]. *)
Definition cost_formula (inputTokens outputTokens : Z) (modelId : string) : number :=
  num_add (num_div (num_of_Z inputTokens) (inputTokensPerDollar (pricing_for modelId)))
          (num_div (num_of_Z outputTokens) (outputTokensPerDollar (pricing_for modelId))).

Definition tokens (n : Z) : value := VNum (num_of_Z n).

(** *** Quota Guard (spec 4.2) *)

Inductive ceiling : Type := HourlyRequests | DailyTokens | DailyCost.

(** The fixed order of evaluation. *)
Definition ceiling_order : list ceiling := [HourlyRequests; DailyTokens; DailyCost].

(** The value of a property of a snapshot ([undefined] when it has none). *)
Definition field (v : value) (k : string) : value :=
  match get_prop v k with
  | Ok x => x
  | Throw _ => VUndefined
  end.

Definition flag_name (c : ceiling) : string :=
  match c with
  | HourlyRequests => "within_hourly_limit"
  | DailyTokens => "within_daily_token_limit"
  | DailyCost => "within_daily_cost_limit"
  end.

Definition counter_name (c : ceiling) : string :=
  match c with
  | HourlyRequests => "requests_last_hour"
  | DailyTokens => "tokens_today"
  | DailyCost => "cost_today"
  end.

Definition violated (snapshot : value) (c : ceiling) : bool :=
  negb (truthy (field snapshot (flag_name c))).

Definition first_violated (snapshot : value) : option ceiling :=
  find (violated snapshot) ceiling_order.

(** The counter reported to the client: as stored, the cost through
    [parseFloat]. *)
Definition observed (snapshot : value) (c : ceiling) : value :=
  match c with
  | DailyCost => VNum (parseFloat (field snapshot "cost_today"))
  | _ => field snapshot (counter_name c)
  end.

(** One hour for the hourly ceiling, 24 hours for the daily ones, in
    milliseconds. *)
Definition reset_delay (c : ceiling) : Z :=
  match c with
  | HourlyRequests => 3600000
  | DailyTokens | DailyCost => 86400000
  end.

Definition details_of (res : response) : value := field (body res) "details".

(** Events that reach the upstream API or write a usage record. *)
Definition billable (e : event) : bool :=
  match e with
  | EvHttpPost _ _ => true
  | EvInsert table _ => String.eqb table "api_usage"
  | _ => false
  end.

Definition limits_args (req : request) : value :=
  VObj [("p_user_id", field (user req) "id")].

(** *** Token Estimator (spec 4.3) and Usage Extractor (spec 4.5) *)

(** A content part as the request schema accepts it. *)
Record Part : Type := {
  text : option string;
  inlineData : option (string * string)
}.

Definition part_value (p : Part) : value :=
  VObj ((match text p with Some s => [("text", VStr s)] | None => [] end)
        ++ (match inlineData p with
            | Some (mimeType, data) =>
                [("inlineData", VObj [("mimeType", VStr mimeType); ("data", VStr data)])]
            | None => []
            end)).

Definition content_value (parts : list Part) : value :=
  VObj [("parts", VArr (map part_value parts))].

(** A request body with the given contents and any further fields. *)
Definition body_value (contents : list (list Part)) (others : list (string * value))
  : value :=
  VObj (("contents", VArr (map content_value contents)) :: others).

(** [ceil(L / 4)]. *)
Definition ceil_quarter (L : nat) : Z := (Z.of_nat L + 3) / 4.

Definition text_estimate (p : Part) : Z :=
  match text p with
  | Some s => ceil_quarter (String.length s)
  | None => 0
  end.

Definition inline_estimate (p : Part) : Z :=
  match inlineData p with
  | Some _ => 1000
  | None => 0
  end.

Definition sumZ (l : list Z) : Z := fold_right Z.add 0%Z l.

Definition parts_estimate (parts : list Part) : Z :=
  sumZ (map (fun p => text_estimate p + inline_estimate p)%Z parts).

Definition input_estimate (contents : list (list Part)) : Z :=
  (sumZ (map parts_estimate contents) + 100)%Z.

(** A provider response: its candidates, and the usage metadata counts when
    the provider sent the block (a count it left out is [None]). *)
Definition count_field (k : string) (n : option Z) : list (string * value) :=
  match n with
  | Some z => [(k, tokens z)]
  | None => []
  end.

Definition metadata_value (p c t : option Z) : value :=
  VObj (count_field "promptTokenCount" p ++ count_field "candidatesTokenCount" c
        ++ count_field "totalTokenCount" t).

(** A candidate of a provider response.  Its content holds parts, or has
    no [parts] field; a candidate the provider withheld (a safety stop, for
    one) has no content at all.  The finish reason stands for the fields
    the extractor does not read. *)
Inductive Content : Type :=
| Parts (parts : list Part)
| NoParts.

Record Candidate : Type := {
  cand_content : option Content;
  cand_finishReason : string
}.

Definition content_of (c : Content) : value :=
  match c with
  | Parts parts => VObj [("parts", VArr (map part_value parts)); ("role", VStr "model")]
  | NoParts => VObj [("role", VStr "model")]
  end.

Definition candidate_of (c : Candidate) : value :=
  VObj ((match cand_content c with
         | Some ct => [("content", content_of ct)]
         | None => []
         end) ++ [("finishReason", VStr (cand_finishReason c))]).

(** A candidate that answers with the given parts. *)
Definition candidate_value (parts : list Part) : value :=
  candidate_of {| cand_content := Some (Parts parts); cand_finishReason := "STOP" |}.

Definition candidate_parts (c : Candidate) : list Part :=
  match cand_content c with
  | Some (Parts parts) => parts
  | _ => []
  end.

(** The [candidates] field of a response body, when the provider sent
    one. *)
Definition candidates_field (candidates : option (list Candidate))
  : list (string * value) :=
  match candidates with
  | Some l => [("candidates", VArr (map candidate_of l))]
  | None => []
  end.

Definition response_value (data : value) (others : list (string * value)) : value :=
  VObj (("data", data) :: others).

(** A count of the usage metadata block as reported: the value the block
    holds under [k], or 0 when it holds none (or a falsy one). *)
Definition reported_count (metadata : list (string * value)) (k : string) : value :=
  js_or (field (VObj metadata) k) (VNum (Fin 0)).

Definition count_or_zero (n : option Z) : value :=
  match n with
  | Some z => tokens z
  | None => tokens 0
  end.

Definition output_estimate (candidates : list (list Part)) : Z :=
  sumZ (map (fun parts => sumZ (map text_estimate parts)) candidates).

(** The 1-token-per-4-characters estimate over the text parts of the
    candidates of a response. *)
Definition candidates_estimate (candidates : option (list Candidate)) : Z :=
  match candidates with
  | Some l => output_estimate (map candidate_parts l)
  | None => 0
  end.

(** *** Usage Recorder (spec 4.7) and Auth Gate (spec 4.1) *)

(** The deployment [E] with the usage store's answer to a write replaced. *)
Definition with_usage_store (E : env) (answer : value -> call) : env :=
  {| auth_getUser := auth_getUser E;
     store_rpc := store_rpc E;
     store_select := store_select E;
     store_insert := fun table row =>
       if String.eqb table "api_usage" then answer row else store_insert E table row;
     axios_post := axios_post E;
     clock := clock E;
     apiKey := apiKey E |}.

Definition is_usage_write (e : event) : bool :=
  match e with
  | EvInsert table _ => String.eqb table "api_usage"
  | _ => false
  end.

(** The number of events of a kind in a trace. *)
Definition count (p : event -> bool) (t : list event) : nat :=
  List.length (filter p t).

Definition usage_writes (t : list event) : nat := count is_usage_write t.

(** The answers of the usage store with which a write fails: the call
    rejects, or it resolves with an answer that cannot be read or carries an
    error. *)
Definition write_fails (c : call) : bool :=
  match c with
  | Rejects _ => true
  | Resolves r => nullish r || truthy (field r "error")
  end.

(** The log line of a failed usage write. *)
Definition is_failure_log (e : event) : bool :=
  match e with
  | EvLog Err msg => String.eqb msg "Failed to record usage in database"
  | _ => false
  end.

Definition is_verification (e : event) : bool :=
  match e with
  | EvGetUser _ _ => true
  | _ => false
  end.

(** The verification attempts made against the identity provider. *)
Definition verification_attempts (t : list event) : list event :=
  filter is_verification t.

(** The answer of the identity provider's client when verification fails:
    no user and an error object. *)
Definition getUser_error (err : list (string * value)) : value :=
  VObj [("data", VObj [("user", VNull)]); ("error", VObj (("message", VStr "error") :: err))].

(** An attempt that returned an error: the client's promise resolved with
    an answer that can be read and holds a truthy [error]. *)
Definition returns_error (c : call) : bool :=
  match c with
  | Resolves r =>
      negb (nullish r) && negb (nullish (field r "data")) && truthy (field r "error")
  | Rejects _ => false
  end.

(** The user an attempt vouches for: the [data.user] of an answer that can
    be read and holds no error; [null] otherwise. *)
Definition attempt_user (c : call) : value :=
  match c with
  | Resolves r =>
      if nullish r || nullish (field r "data") || truthy (field r "error")
      then VNull
      else field (field r "data") "user"
  | Rejects _ => VNull
  end.

(** The user the identity provider vouches for, given its answers to the
    anon client and to the service-role client: the first attempt decides,
    unless it returned an error; then the second does. *)
Definition verdict (first second : call) : value :=
  if returns_error first then attempt_user second else attempt_user first.

Definition verified_user (E : env) (token : string) : value :=
  verdict (auth_getUser E false token) (auth_getUser E true token).

(** A promise rejected with [null] or [undefined]. *)
Definition rejects_nullish (c : call) : bool :=
  match c with
  | Rejects e => nullish e
  | Resolves _ => false
  end.

Definition is_profile_lookup (e : event) : bool :=
  match e with
  | EvSelect table _ => String.eqb table "user_profiles"
  | _ => false
  end.

(** What the auth gate does with a verified user, given the outcome of the
    profile lookup. *)
Definition admission (req : request) (u : value) (found : result value) : mw :=
  match found with
  | Throw _ => Sent auth_service_error
  | Ok profile =>
      if nullish profile then Sent auth_service_error
      else if truthy (field profile "is_active")
           then Next (set_principal req u profile)
           else Sent account_inactive
  end.

Definition is_5xx (res : response) : bool :=
  match status res with
  | VNum (Fin q) => Qle_bool 500 q && negb (Qle_bool 600 q)
  | _ => false
  end.

(** The call the quota guard makes to the limits store. *)
Definition limits_call (userId : value) : event :=
  EvRpc "check_user_limits" (VObj [("p_user_id", userId)]).

Definition limit_error (c : ceiling) : string :=
  match c with
  | HourlyRequests => "Rate limit exceeded"
  | DailyTokens => "Token limit exceeded"
  | DailyCost => "Cost limit exceeded"
  end.

Definition limit_message (c : ceiling) : string :=
  match c with
  | HourlyRequests => "You have exceeded your hourly request limit"
  | DailyTokens => "You have exceeded your daily token limit"
  | DailyCost => "You have exceeded your daily cost limit"
  end.

Definition limit_warning (c : ceiling) : string :=
  match c with
  | HourlyRequests => "User exceeded hourly request limit"
  | DailyTokens => "User exceeded daily token limit"
  | DailyCost => "User exceeded daily cost limit"
  end.

(** The 429 response for ceiling [c], observed on [snapshot] at time [now]. *)
Definition quota_response (snapshot : value) (c : ceiling) (now : Z) : response :=
  limit_response (limit_error c) (limit_message c) (counter_name c)
    (observed snapshot c) (now + reset_delay c).

(** The world after further events and one reading of the clock. *)
Definition tick (w : world) (events : list event) : world :=
  {| trace := trace w ++ events; ticks := S (ticks w) |}.

Definition only_logs (events : list event) : Prop :=
  Forall (fun e => exists lvl msg, e = EvLog lvl msg) events.

(** The stages that follow the quota guard. *)
Definition after_quota_guard (E : env) : request -> M response :=
  run_chain [estimateTokenUsage] (generateContent_handler E).

(** Two computations agree when, run from worlds with the same clock
    position, they give the same outcome and leave the clock at the same
    position: the log and the calls made may differ. *)
Definition sim {A} (m1 m2 : M A) : Prop :=
  forall w1 w2, ticks w1 = ticks w2 ->
    fst (m1 w1) = fst (m2 w2) /\ ticks (snd (m1 w1)) = ticks (snd (m2 w2)).

(** A computation whose outcome does not depend on the world it starts
    from. *)
Definition steady {A} (m : M A) : Prop :=
  forall w1 w2, fst (m w1) = fst (m w2).

(** A computation that does not read the clock. *)
Definition quiet {A} (m : M A) : Prop :=
  forall w, ticks (snd (m w)) = ticks w.

(** A computation that adds at most [n] events of the kind [p]. *)
Definition emits_at_most {A} (p : event -> bool) (n : nat) (m : M A) : Prop :=
  forall w, exists events,
    trace (snd (m w)) = trace w ++ events /\ (count p events <= n)%nat.

(** The middlewares in order, as one middleware. *)
Fixpoint run_stages (ms : list middleware) (req : request) : M mw :=
  match ms with
  | [] => ret (Next req)
  | m :: rest =>
      r <- m req ;;
      match r with
      | Next req' => run_stages rest req'
      | Sent res => ret (Sent res)
      end
  end.

(** The answer of the identity provider's client for a verified user. *)
Definition getUser_ok (u : value) : value :=
  VObj [("data", VObj [("user", u)]); ("error", VNull)].

(** Whatever the pure helpers throw is a TypeError object. *)
Definition throws_TypeError {A} (r : result A) : Prop :=
  match r with
  | Ok _ => True
  | Throw e => exists m, e = TypeError m
  end.

(** ** Sample deployments and requests *)

Definition sample_ToNumber : value -> number := fun _ => NaN.

Definition sample_parseFloat : value -> number :=
  fun v => match v with VNum n => n | _ => NaN end.

(** Instants are printed as their millisecond count in the samples. *)
Definition sample_toISOString : Z -> string :=
  fun t => NilZero.string_of_int (Z.to_int t).

(** The samples do not depend on how a number is printed. *)
Definition sample_toFixed : Q -> nat -> string := fun _ _ => "".

Definition sample_schema : value -> option (string * value) := fun _ => None.

Definition w0 : world := {| trace := []; ticks := 0 |}.

Definition alice : value := VObj [("id", VStr "u-1"); ("email", VStr "alice@example.com")].

Definition alice_profile : value :=
  VObj [("user_id", VStr "u-1"); ("subscription_tier", VStr "free");
        ("is_active", VBool true)].

Definition hello_body : value :=
  body_value [[ {| text := Some "hello"; inlineData := None |} ]] [].

Definition upstream_reply : value :=
  response_value
    (VObj [ ("candidates",
             VArr [candidate_value [ {| text := Some "Hi there"; inlineData := None |} ]]);
            ("usageMetadata", metadata_value (Some 6%Z) (Some 3%Z) (Some 9%Z)) ])
    [("status", VNum (num_of_Z 200)); ("headers", VObj [])].

(** A deployment given the identity provider's and the limits store's
    answers; every other collaborator answers normally. *)
Definition deployment (getUser : bool -> string -> call) (limits : call) : env :=
  {| auth_getUser := getUser;
     store_rpc := fun _ _ => limits;
     store_select := fun _ _ =>
       Resolves (VObj [("data", alice_profile); ("error", VNull)]);
     store_insert := fun _ _ => Resolves (VObj [("data", VNull); ("error", VNull)]);
     axios_post := fun _ _ => Resolves upstream_reply;
     clock := fun n => (1700000000000 + Z.of_nat n)%Z;
     apiKey := "key" |}.

Definition verified : bool -> string -> call := fun _ _ => Resolves (getUser_ok alice).

(** The identity provider is unavailable: both clients answer with a 503
    error. *)
Definition unavailable : bool -> string -> call :=
  fun _ _ => Resolves (getUser_error [("status", VNum (num_of_Z 503))]).

(** The anon client answers with an error and the service-role client
    verifies the token. *)
Definition verified_by_fallback : bool -> string -> call :=
  fun admin _ =>
    if admin then Resolves (getUser_ok alice)
    else Resolves (getUser_error [("status", VNum (num_of_Z 503))]).

Definition snapshot_over_tokens : value :=
  VObj [ ("within_hourly_limit", VBool true);
         ("within_daily_token_limit", VBool false);
         ("within_daily_cost_limit", VBool false);
         ("requests_last_hour", VNum (num_of_Z 7));
         ("tokens_today", VNum (num_of_Z 12000));
         ("cost_today", VNum (num_of_Z 60)) ].

Definition rows (l : list value) : call :=
  Resolves (VObj [("data", VArr l); ("error", VNull)]).

Definition store_down : call := Rejects (VObj [("message", VStr "fetch failed")]).

Definition request_of (auth : option string) (u : value) : request :=
  {| authorization := auth; params_model := "gemini-1.5-flash";
     req_body := hello_body; req_id := VUndefined;
     user := u; userProfile := VUndefined;
     userLimits := VUndefined; estimatedTokens := VUndefined |}.

Definition authenticated_request : request := request_of (Some "Bearer token-1") alice.

Definition bearer_request : request := request_of (Some "Bearer token-1") VUndefined.

(** ** Outcomes *)

Definition is_object (v : value) : Prop := exists fields, v = VObj fields.

(** A value whose properties can be read: anything but [undefined] and
    [null]. *)
Definition readable (v : value) : Prop := nullish v = false.

(** From every world, [m] returns a value that satisfies [Q] or throws a
    value that satisfies [X]. *)
Definition ensures {A} (m : M A) (Q : A -> Prop) (X : value -> Prop) : Prop :=
  forall w,
    match fst (m w) with
    | Ok a => Q a
    | Throw e => X e
    end.

Definition nothing : value -> Prop := fun _ => False.
Definition anything {A} : A -> Prop := fun _ => True.

(** What authenticateUser may do with a request. *)
Definition auth_outcome (req : request) (out : mw) : Prop :=
  match out with
  | Sent res =>
      In res [authentication_required; invalid_token; account_inactive;
              auth_service_error]
  | Next req' =>
      exists u p,
        req' = set_principal req u p /\
        truthy u = true /\ truthy (field p "is_active") = true
  end.

(** What checkUserLimits may do with a request. *)
Definition quota_outcome (req : request) (out : mw) : Prop :=
  match out with
  | Sent res => status res = VNum (num_of_Z 429) /\ truthy (user req) = true
  | Next req' =>
      req' = req \/
      exists limits,
        req' = set_userLimits req limits /\ first_violated limits = None
  end.

(** The log line of the [.catch] handler attached to the usage write
    started by generateContent. *)
Definition is_async_failure_log (e : event) : bool :=
  match e with
  | EvLog Err msg => String.eqb msg "Async usage recording failed"
  | _ => false
  end.

(** The headers the Gemini routes set on a proxied answer. *)
Definition proxied_headers (userId : value) (model : string) (req : request)
  : list (string * value) :=
  [ ("Content-Type", VStr "application/json"); ("X-User-ID", userId);
    ("X-Model", VStr model);
    ("X-Request-ID", js_or (req_id req) (VStr "unknown")) ].

(** The body of the answer to a failed upstream call. *)
Definition error_body (code message : value) : value :=
  VObj [("error", code); ("message", message)].

(** A snapshot within every ceiling. *)
Definition snapshot_within : value :=
  VObj [ ("within_hourly_limit", VBool true);
         ("within_daily_token_limit", VBool true);
         ("within_daily_cost_limit", VBool true);
         ("requests_last_hour", VNum (num_of_Z 7));
         ("tokens_today", VNum (num_of_Z 1200));
         ("cost_today", VNum (num_of_Z 1)) ].

(** [a <= b] on numbers; false when either is NaN. *)
Definition num_le (a b : number) : bool :=
  match a, b with
  | NaN, _ | _, NaN => false
  | NegInf, _ | _, PosInf => true
  | Fin p, Fin q => Qle_bool p q
  | _, _ => false
  end.

(** ** optionalAuth and requireRole (src/middleware/auth.js) *)

Definition optionalAuth (E : env) : middleware := fun req =>
  try_catch
    (match authorization req with
     | Some authHeader =>
         if negb (truthy (VStr authHeader))
            || negb (String.prefix "Bearer " authHeader)
         then ret (Next req)
         else
           let token := substring_from 7 authHeader in
           r <- verifyToken E token ;;
           user <- lift (get_prop r "user") ;;
           error <- lift (get_prop r "error") ;;
           if negb (truthy error) && truthy user then
             userId <- lift (get_prop user "id") ;;
             profile <- getUserProfile E userId ;;
             active <- lift (get_prop profile "is_active") ;;
             if truthy active
             then ret (Next (set_principal req user profile))
             else ret (Next req)
           else ret (Next req)
     | None => ret (Next req)
     end)
    (fun error =>
       _ <- lift (get_prop error "message") ;;
       log Err "Optional auth middleware error" ;;
       ret (Next req)).

(** [allowedRoles.includes(v)] for an array of strings. *)
Definition includes_value (l : list string) (v : value) : bool :=
  match v with
  | VStr s => includes l s
  | _ => false
  end.

Definition authentication_first : response :=
  json 401 (message_body "Authentication required" "Please authenticate first").

Definition insufficient_permissions (allowedRoles : list string) : response :=
  json 403 (message_body "Insufficient permissions"
     ("This endpoint requires one of the following roles: "
      ++ String.concat ", " allowedRoles)).

Definition requireRole (allowedRoles : list string) : middleware := fun req =>
  if negb (truthy (userProfile req)) then ret (Sent authentication_first)
  else
    tier <- lift (get_prop (userProfile req) "subscription_tier") ;;
    let userRole := js_or tier (VStr "free") in
    if negb (includes_value allowedRoles userRole) then
      _ <- lift (get_prop (user req) "id") ;;
      log Warn "Insufficient permissions" ;;
      ret (Sent (insufficient_permissions allowedRoles))
    else ret (Next req).

(** ** countTokens, generateEmbeddings and streamGenerateContent
       (src/services/gemini.js) *)

(** The [catch] block shared, up to its texts, by the calls to the upstream
    API: the log line (its metadata reads [error.response?.data] in some of
    them), then the object thrown, with a [details] field in some. *)
Definition gemini_error (line apiMessage connectMessage : string)
  (logs_data with_details : bool) (error : value) : M value :=
  _ <- lift (get_prop error "message") ;;
  resp <- lift (get_prop error "response") ;;
  _ <- lift (get_prop_opt resp "status") ;;
  _ <- (if logs_data then lift (get_prop_opt resp "data") else ret VUndefined) ;;
  log Err line ;;
  if truthy resp then
    geminiError <- lift (get_prop resp "data") ;;
    st <- lift (get_prop resp "status") ;;
    inner <- lift (get_prop geminiError "error") ;;
    m <- lift (get_prop_opt inner "message") ;;
    c <- lift (get_prop_opt inner "code") ;;
    d <- (if with_details then lift (get_prop_opt inner "details") else ret VUndefined) ;;
    throw (VObj ([ ("status", st);
                   ("message", js_or m (VStr apiMessage));
                   ("code", js_or c (VStr "UNKNOWN_ERROR")) ]
                 ++ (if with_details then [("details", js_or d (VArr []))] else [])))
  else
    throw (VObj [ ("status", VNum (num_of_Z 500));
                  ("message", VStr connectMessage);
                  ("code", VStr "CONNECTION_ERROR") ]).

Definition countTokens_url (E : env) (modelName : string) : string :=
  baseUrl ++ "/v1beta/models/" ++ modelName ++ ":countTokens?key=" ++ apiKey E.

Definition countTokens (E : env) (modelName : string) (requestBody userId : value)
  : M value :=
  try_catch
    (let url := countTokens_url E modelName in
     log Info "Making Gemini token count request" ;;
     response <- await (EvHttpPost url requestBody) (axios_post E url requestBody) ;;
     data <- lift (get_prop response "data") ;;
     _ <- lift (get_prop data "totalTokens") ;;
     log Info "Gemini token count completed" ;;
     st <- lift (get_prop response "status") ;;
     hs <- lift (get_prop response "headers") ;;
     ret (VObj [("data", data); ("status", st); ("headers", hs)]))
    (gemini_error "Gemini token count failed" "Gemini token count error"
       "Failed to connect to Gemini API for token counting" false false).

(** [JSON.stringify] is taken as given. *)
Variable JSON_stringify : value -> string.

Definition embeddings_url (E : env) (modelName : string) : string :=
  if String.eqb modelName "gemini-embedding-001"
  then baseUrl ++ "/v1beta/models/" ++ modelName ++ ":embedContent?key=" ++ apiKey E
  else baseUrl ++ "/v1/models/" ++ modelName ++ ":embedText?key=" ++ apiKey E.

(** [requestBody.model ? Math.ceil(JSON.stringify(requestBody).length / 4) : 0]. *)
Definition embedding_tokens (requestBody : value) : result number :=
  let? model := get_prop requestBody "model" in
  if truthy model
  then Ok (ceil_div (VNum (num_of_nat (String.length (JSON_stringify requestBody))))
                    (VNum (Fin 4)))
  else Ok (Fin 0).

Definition generateEmbeddings (E : env) (modelName : string)
  (requestBody userId : value) : M value :=
  try_catch
    (let url := embeddings_url E modelName in
     log Info "Making Gemini embedding request" ;;
     startTime <- Date_now E ;;
     response <- await (EvHttpPost url requestBody) (axios_post E url requestBody) ;;
     finished <- Date_now E ;;
     inputTokens <- lift (embedding_tokens requestBody) ;;
     cost <- lift (calculateCost (VNum inputTokens) (VNum (Fin 0)) modelName) ;;
     st <- lift (get_prop response "status") ;;
     log Info "Gemini embedding request completed" ;;
     (if truthy userId then
        detach (recordUsage E userId (VObj [("totalTokenCount", VNum inputTokens)])
                            modelName "embedding" cost)
               (fun error =>
                  _ <- lift (get_prop error "message") ;;
                  log Err "Async embedding usage recording failed")
      else ret tt) ;;
     data <- lift (get_prop response "data") ;;
     timestamp <- Date_now E ;;
     let usageMetadata :=
       VObj [ ("inputTokens", VNum inputTokens);
              ("cost", VNum (parseFloat_toFixed6 cost));
              ("model", VStr modelName);
              ("timestamp", VStr (toISOString timestamp)) ] in
     hs <- lift (get_prop response "headers") ;;
     ret (VObj [ ("data", VObj (set_field "usageMetadata" usageMetadata (spread data)));
                 ("status", st); ("headers", hs) ]))
    (gemini_error "Gemini embedding request failed" "Gemini embedding API error"
       "Failed to connect to Gemini embedding API" true false).

Definition streamGenerateContent_url (E : env) (modelName : string) : string :=
  baseUrl ++ "/v1beta/models/" ++ modelName ++ ":streamGenerateContent?key=" ++ apiKey E.

Definition streamGenerateContent (E : env) (modelName : string)
  (requestBody userId : value) : M value :=
  try_catch
    (let url := streamGenerateContent_url E modelName in
     log Info "Making Gemini streaming API request" ;;
     response <- await (EvHttpPost url requestBody) (axios_post E url requestBody) ;;
     st <- lift (get_prop response "status") ;;
     log Info "Gemini streaming API request initiated" ;;
     stream <- lift (get_prop response "data") ;;
     hs <- lift (get_prop response "headers") ;;
     ret (VObj [("stream", stream); ("status", st); ("headers", hs)]))
    (gemini_error "Gemini streaming API request failed" "Gemini streaming API error"
       "Failed to connect to Gemini streaming API" true true).

(** ** The other Gemini routes (src/routes/gemini.js) *)

(** [res.set({...}); res.status(response.status).json(response.data)]. *)
Definition send_proxied (req : request) (userId : value) (model : string)
  (r : value) : M response :=
  st <- lift (get_prop r "status") ;;
  data <- lift (get_prop r "data") ;;
  ret {| status := st; headers := proxied_headers userId model req; body := data |}.

(** The [catch] block of a route handler. *)
Definition send_failure (line : string) (req : request) (error : value) : M response :=
  _ <- lift (get_prop_opt (user req) "id") ;;
  m <- lift (get_prop error "message") ;;
  log Err line ;;
  st <- lift (get_prop error "status") ;;
  c <- lift (get_prop error "code") ;;
  ret {| status := js_or st (VNum (num_of_Z 500));
         headers := [];
         body := error_body (js_or c (VStr "INTERNAL_ERROR"))
                            (js_or m (VStr "An unexpected error occurred")) |}.

Definition countTokens_handler (E : env) (req : request) : M response :=
  try_catch
    (let model := params_model req in
     userId <- lift (get_prop (user req) "id") ;;
     log Info "Count tokens request" ;;
     r <- countTokens E model (req_body req) userId ;;
     send_proxied req userId model r)
    (send_failure "Count tokens error" req).

Variable countTokensSchema : value -> option (string * value).

Definition countTokens_route (E : env) : request -> M response :=
  run_chain [ authenticateUser E; validateModel; validateRequest countTokensSchema ]
            (countTokens_handler E).

Definition embeddingModels : list string :=
  [ "gemini-embedding-001"; "text-embedding-004"; "text-multilingual-embedding-002" ].

Definition invalid_embedding_model (model : string) : response :=
  json 400 (message_body "Invalid model for embeddings"
     ("Model '" ++ model ++ "' is not an embedding model. Use one of: "
      ++ String.concat ", " embeddingModels)).

Definition embeddings_handler (E : env) (req : request) : M response :=
  try_catch
    (let model := params_model req in
     userId <- lift (get_prop (user req) "id") ;;
     if negb (includes embeddingModels model) then
       ret (invalid_embedding_model model)
     else
       log Info "Generate embeddings request" ;;
       r <- generateEmbeddings E model (req_body req) userId ;;
       send_proxied req userId model r)
    (send_failure "Generate embeddings error" req).

Definition embeddings_route (E : env) : request -> M response :=
  run_chain [ authenticateUser E; validateModel ] (embeddings_handler E).

(** The streaming route up to the moment the upstream stream is piped into
    the response: the body is the stream.  What the stream does afterwards
    (its 'end' and 'error' events) is not part of the model. *)
Definition stream_headers (userId : value) (model : string) (req : request)
  : list (string * value) :=
  [ ("Content-Type", VStr "application/json");
    ("Transfer-Encoding", VStr "chunked");
    ("Cache-Control", VStr "no-cache");
    ("Connection", VStr "keep-alive");
    ("X-User-ID", userId);
    ("X-Model", VStr model);
    ("X-Request-ID", js_or (req_id req) (VStr "unknown")) ].

Definition streamGenerateContent_handler (E : env) (req : request) : M response :=
  try_catch
    (let model := params_model req in
     userId <- lift (get_prop (user req) "id") ;;
     log Info "Stream generate content request" ;;
     r <- streamGenerateContent E model (req_body req) userId ;;
     st <- lift (get_prop r "status") ;;
     stream <- lift (get_prop r "stream") ;;
     _ <- lift (get_prop stream "pipe") ;;
     ret {| status := st; headers := stream_headers userId model req; body := stream |})
    (send_failure "Stream generate content error" req).

Definition streamGenerateContent_route (E : env) : request -> M response :=
  run_chain [ authenticateUser E; validateModel;
              validateRequest generateContentSchema;
              checkUserLimits E; estimateTokenUsage ]
            (streamGenerateContent_handler E).

(** ** errorHandler and the error classes (src/middleware/errorHandler.js) *)

(** [v === n] for a number literal [n]. *)
Definition strict_eq_num (v : value) (n : Z) : bool :=
  match v with
  | VNum (Fin q) => Qeq_bool q (inject_Z n)
  | _ => false
  end.

Definition internal_server_error (timestamp : string) : list (string * value) :=
  [ ("error", VStr "Internal Server Error");
    ("message", VStr "An unexpected error occurred");
    ("timestamp", VStr timestamp) ].

(** The status code and the body chosen for an error, before the
    development details and the request id are added. *)
Definition classify_error (err : value) (timestamp : string)
  : result (Z * list (string * value)) :=
  let? name := get_prop err "name" in
  let? st := get_prop err "status" in
  let? code := get_prop err "code" in
  if strict_eq_str name "ValidationError" then
    let? message := get_prop err "message" in
    let? details := get_prop err "details" in
    Ok (400%Z, [ ("error", VStr "Validation Error"); ("message", message);
                 ("details", js_or details (VArr [])) ])
  else if strict_eq_str name "UnauthorizedError" || strict_eq_num st 401 then
    Ok (401%Z, [ ("error", VStr "Unauthorized");
                 ("message", VStr "Authentication required") ])
  else if strict_eq_str name "ForbiddenError" || strict_eq_num st 403 then
    Ok (403%Z, [ ("error", VStr "Forbidden");
                 ("message", VStr "Insufficient permissions") ])
  else if strict_eq_str name "NotFoundError" || strict_eq_num st 404 then
    Ok (404%Z, [ ("error", VStr "Not Found");
                 ("message", VStr "The requested resource was not found") ])
  else if strict_eq_str name "RateLimitError" || strict_eq_num st 429 then
    let? retryAfter := get_prop err "retryAfter" in
    Ok (429%Z, [ ("error", VStr "Rate Limit Exceeded");
                 ("message", VStr "Too many requests. Please try again later.");
                 ("retryAfter", js_or retryAfter (VNum (num_of_Z 3600))) ])
  else if strict_eq_str code "ECONNREFUSED" || strict_eq_str code "ENOTFOUND" then
    Ok (503%Z, [ ("error", VStr "Service Unavailable");
                 ("message", VStr "External service is temporarily unavailable") ])
  else if strict_eq_str code "ETIMEDOUT" then
    Ok (504%Z, [ ("error", VStr "Gateway Timeout");
                 ("message", VStr "Request timeout") ])
  else Ok (500%Z, internal_server_error timestamp).

(** [nodeEnv] is [config.nodeEnv]. *)
Definition errorHandler (E : env) (nodeEnv : string) (err : value) (req : request)
  : M response :=
  _ <- lift (get_prop err "message") ;;
  stack <- lift (get_prop err "stack") ;;
  _ <- lift (get_prop_opt (user req) "id") ;;
  log Err "Unhandled error" ;;
  let isDevelopment := String.eqb nodeEnv "development" in
  now <- Date_now E ;;
  sel <- lift (classify_error err (toISOString now)) ;;
  let statusCode := fst sel in
  let errorResponse := snd sel in
  errorResponse <-
    (if isDevelopment then
       details <- lift (get_prop err "details") ;;
       ret (set_field "details" (js_or details (VObj []))
              (set_field "stack" stack errorResponse))
     else ret errorResponse) ;;
  let errorResponse :=
    if truthy (req_id req)
    then set_field "requestId" (req_id req) errorResponse
    else errorResponse in
  ret (json statusCode (VObj errorResponse)).

(** The decimal text of an integer, as a template literal prints it. *)
Definition decimal (z : Z) : string := NilZero.string_of_int (Z.to_int z).

(** An instance of AppError: [name] is inherited from Error.prototype, the
    stack text is the engine's. *)
Definition AppError (stack message : string) (statusCode : Z)
  : list (string * value) :=
  [ ("name", VStr "Error"); ("message", VStr message); ("stack", VStr stack);
    ("statusCode", VNum (num_of_Z statusCode));
    ("status", VStr (if String.prefix "4" (decimal statusCode)
                     then "fail" else "error"));
    ("isOperational", VBool true) ].

(** A constructor argument with a default value. *)
Definition or_default {A} (given : option A) (default : A) : A :=
  match given with
  | Some a => a
  | None => default
  end.

Definition ValidationError (stack message : string) (details : option value) : value :=
  VObj (set_field "details" (or_default details (VArr []))
          (set_field "name" (VStr "ValidationError") (AppError stack message 400))).

Definition AuthenticationError (stack : string) (message : option string) : value :=
  VObj (set_field "name" (VStr "UnauthorizedError")
          (AppError stack (or_default message "Authentication required") 401)).

Definition AuthorizationError (stack : string) (message : option string) : value :=
  VObj (set_field "name" (VStr "ForbiddenError")
          (AppError stack (or_default message "Insufficient permissions") 403)).

Definition NotFoundError (stack : string) (message : option string) : value :=
  VObj (set_field "name" (VStr "NotFoundError")
          (AppError stack (or_default message "Resource not found") 404)).

Definition RateLimitError (stack : string) (message : option string)
  (retryAfter : option value) : value :=
  VObj (set_field "retryAfter" (or_default retryAfter (VNum (num_of_Z 3600)))
          (set_field "name" (VStr "RateLimitError")
             (AppError stack (or_default message "Rate limit exceeded") 429))).

Definition ServiceUnavailableError (stack : string) (message : option string) : value :=
  VObj (set_field "name" (VStr "ServiceUnavailableError")
          (AppError stack (or_default message "Service temporarily unavailable") 503)).

(** The status codes errorHandler can answer with. *)
Definition handled_statuses : list Z := [400; 401; 403; 404; 429; 500; 503; 504]%Z.

(** ** The gRPC proxy (src/grpc-proxy.js) *)

(** [authenticateCall], given the values of the call's 'authorization'
    metadata. *)
Definition authenticateCall (E : env) (authHeaders : list string) : M value :=
  try_catch
    (match authHeaders with
     | [] => throw (Error "No authorization header")
     | authHeader :: _ =>
         if negb (String.prefix "Bearer " authHeader) then
           throw (Error "Invalid authorization header format")
         else
           let token := substring_from 7 authHeader in
           r <- verifyToken E token ;;
           user <- lift (get_prop r "user") ;;
           error <- lift (get_prop r "error") ;;
           if truthy error || negb (truthy user)
           then throw (Error "Invalid or expired token")
           else ret user
     end)
    (fun error =>
       _ <- lift (get_prop error "message") ;;
       log Err "gRPC authentication failed" ;;
       throw error).

(** [hay.includes(needle)]. *)
Fixpoint str_includes (needle hay : string) : bool :=
  String.prefix needle hay
  || match hay with
     | EmptyString => false
     | String _ rest => str_includes needle rest
     end.

(** The endpoint proxyToGoogle derives from the path of the gRPC method;
    [model] is the text of [request.model]. *)
Definition googleEndpoint (grpcPath model : string) : result string :=
  if str_includes "GenerateContent" grpcPath then
    Ok ("models/" ++ model ++ ":generateContent")%string
  else if str_includes "StreamGenerateContent" grpcPath then
    Ok ("models/" ++ model ++ ":streamGenerateContent")%string
  else if str_includes "CountTokens" grpcPath then
    Ok ("models/" ++ model ++ ":countTokens")%string
  else Throw (Error ("Unsupported gRPC method: " ++ grpcPath)%string).

Definition is_profile_read (e : event) : bool :=
  match e with
  | EvSelect _ _ | EvInsert _ _ => true
  | _ => false
  end.

(** Events of usage accounting: a query of the limits store or a write of a
    usage record. *)
Definition is_accounting (e : event) : bool :=
  match e with
  | EvRpc _ _ => true
  | EvInsert table _ => String.eqb table "api_usage"
  | _ => false
  end.

(** The messages errorHandler writes itself. *)
Definition fixed_messages : list string :=
  [ "An unexpected error occurred"; "Authentication required";
    "Insufficient permissions"; "The requested resource was not found";
    "Too many requests. Please try again later.";
    "External service is temporarily unavailable"; "Request timeout" ].

(** [m] answers with the status [code], from every world. *)
Definition answers_with (m : M response) (code : Z) : Prop :=
  forall w, exists res w', m w = (Ok res, w') /\ status res = VNum (num_of_Z code).

(** ** The transparent proxy route (src/routes/gemini.js, proxy variant) *)

(** [delete fields[k]]. *)
Fixpoint delete_field (k : string) (fields : list (string * value))
  : list (string * value) :=
  match fields with
  | [] => []
  | (k', v) :: rest =>
      if String.eqb k k' then delete_field k rest
      else (k', v) :: delete_field k rest
  end.

(** The headers sent upstream: a copy of the request's headers without
    [host] and [authorization], and the proxy's own User-Agent. *)
Definition forwardHeaders (headers : list (string * value)) (agent : string)
  : list (string * value) :=
  set_field "User-Agent" (VStr agent)
    (delete_field "authorization" (delete_field "host" headers)).

(** A query of the limits store. *)
Definition is_limits_query (e : event) : bool :=
  match e with
  | EvRpc _ _ => true
  | _ => false
  end.

Definition is_upstream_call (e : event) : bool :=
  match e with
  | EvHttpPost _ _ => true
  | _ => false
  end.

(** The kind no event is of: [emits_at_most no_event 0 m] says that [m]
    only adds events to the trace. *)
Definition no_event : event -> bool := fun _ => false.

(** A computation that adds at least one event of the kind [p]. *)
Definition emits_some {A} (p : event -> bool) (m : M A) : Prop :=
  forall w, exists events,
    trace (snd (m w)) = trace w ++ events /\ existsb p events = true.

(** The statuses with which the stages of the generateContent route answer
    before the handler runs. *)
Definition gate_statuses : list Z := [400; 401; 403; 429; 500]%Z.

(** [m] answers, and either it has called the upstream API or its answer
    has one of the statuses of the gates. *)
Definition gated (m : M response) : Prop :=
  forall w, exists events res,
    trace (snd (m w)) = trace w ++ events /\
    fst (m w) = Ok res /\
    (existsb is_upstream_call events = true \/
     exists code, In code gate_statuses /\ status res = VNum (num_of_Z code)).

(** ** Further sample deployments and requests *)

Definition sample_JSON_stringify : value -> string := fun _ => "0123456789".

(** The user "u-1" within all ceilings. *)
Definition serving : env := deployment verified (rows [snapshot_within]).

(** The same deployment with the upstream API's answer replaced. *)
Definition with_upstream (E : env) (answer : call) : env :=
  {| auth_getUser := auth_getUser E;
     store_rpc := store_rpc E;
     store_select := store_select E;
     store_insert := store_insert E;
     axios_post := fun _ _ => answer;
     clock := clock E;
     apiKey := apiKey E |}.

Definition upstream_timeout : call :=
  Rejects (VObj [ ("message", VStr "timeout of 60000ms exceeded");
                  ("code", VStr "ECONNABORTED") ]).

(** A deployment in which the profile table holds no row for the user and
    returns the rows it is given to insert. *)
Definition first_visit : env :=
  {| auth_getUser := verified;
     store_rpc := fun _ _ => rows [snapshot_within];
     store_select := fun _ _ =>
       Resolves (VObj [ ("data", VNull);
                        ("error", VObj [ ("code", VStr "PGRST116");
                                         ("message", VStr "no rows") ]) ]);
     store_insert := fun _ row => Resolves (VObj [("data", row); ("error", VNull)]);
     axios_post := fun _ _ => Resolves upstream_reply;
     clock := fun n => (1700000000000 + Z.of_nat n)%Z;
     apiKey := "key" |}.

Definition embedding_body : value :=
  VObj [ ("model", VStr "models/gemini-embedding-001");
         ("content", VObj [("parts", VArr [VObj [("text", VStr "hello")]])]) ].

Definition embedding_request : request :=
  {| authorization := Some "Bearer token-1"; params_model := "gemini-embedding-001";
     req_body := embedding_body; req_id := VUndefined;
     user := alice; userProfile := alice_profile;
     userLimits := VUndefined; estimatedTokens := VUndefined |}.

Definition entry_events : list event :=
  [ EvLog Debug "Starting token verification";
    EvGetUser false "token-1";
    EvLog Debug "Primary token verification successful";
    EvSelect "user_profiles" (VStr "u-1");
    EvLog Info "User authenticated successfully" ].

(** * Properties *)

(** ** Running the model *)

Lemma get_prop_defined (v : value) (k : string) :
  get_prop v k = Ok (field v k) \/
  (exists m, get_prop v k = Throw (TypeError m)) /\ (v = VUndefined \/ v = VNull).
Proof.
  unfold field. destruct v; cbn [get_prop]; eauto.
Qed.

Lemma get_prop_truthy (v : value) (k : string) :
  truthy v = true -> get_prop v k = Ok (field v k).
Proof.
  intros H. destruct (get_prop_defined v k) as [E | [_ [-> | ->]]];
    [exact E | discriminate H | discriminate H].
Qed.

Lemma field_truthy_defined (v : value) (k : string) :
  truthy (field v k) = true -> get_prop v k = Ok (field v k).
Proof.
  unfold field. destruct v; cbn [get_prop truthy]; intros H;
    try discriminate H; reflexivity.
Qed.

Lemma get_prop_readable (v : value) (k : string) :
  nullish v = false -> get_prop v k = Ok (field v k).
Proof.
  intros H. destruct (get_prop_defined v k) as [E | [_ [-> | ->]]];
    [exact E | discriminate H | discriminate H].
Qed.

Lemma get_prop_opt_ok (v : value) (k : string) :
  exists x, get_prop_opt v k = Ok x.
Proof.
  destruct v; cbn [get_prop_opt get_prop]; eauto.
Qed.

Ltac run :=
  cbv beta iota zeta delta
    [try_catch bind await lift log emit throw ret logged tick read_error Date_now
     detach fst snd trace ticks].

Ltac tidy :=
  run; cbn [rbind get_prop get_prop_opt TypeError Error mkError]; run;
  repeat rewrite <- app_assoc; cbn [app].

Lemma get_index_defined (v : value) (i : nat) :
  (exists x, get_index v i = Ok x) \/
  (exists m, get_index v i = Throw (TypeError m)).
Proof.
  destruct v; cbn [get_index get_prop]; eauto.
Qed.

Ltac case_prop v k :=
  let H := fresh "H" in
  let m := fresh "m" in
  destruct (get_prop_defined v k) as [H | [[m H] _]]; rewrite H; tidy.

Lemma js_or_truthy (a b : value) : truthy b = true -> truthy (js_or a b) = true.
Proof.
  intros H. unfold js_or. destruct (truthy a) eqn:Ha; assumption.
Qed.

(** ** Counting events *)

Section Counting.
Context {A B : Type}.
Variable p : event -> bool.

Lemma eam_ret (a : A) : emits_at_most p 0 (ret a).
Proof. intros w. exists []. split; [symmetry; apply app_nil_r | apply le_n]. Qed.

Lemma eam_throw (e : value) : emits_at_most p 0 (@throw A e).
Proof. intros w. exists []. split; [symmetry; apply app_nil_r | apply le_n]. Qed.

Lemma eam_lift (r : result A) : emits_at_most p 0 (lift r).
Proof. intros w. exists []. split; [symmetry; apply app_nil_r | apply le_n]. Qed.

Lemma count_app (l1 l2 : list event) :
  count p (l1 ++ l2) = (count p l1 + count p l2)%nat.
Proof. unfold count. rewrite filter_app, length_app. reflexivity. Qed.

Lemma eam_bind (n1 n2 : nat) (m : M A) (k : A -> M B) :
  emits_at_most p n1 m -> (forall a, emits_at_most p n2 (k a)) ->
  emits_at_most p (n1 + n2) (bind m k).
Proof.
  intros Hm Hk w. unfold bind. destruct (Hm w) as (ev1 & Ht1 & Hn1).
  destruct (m w) as [[a | e] w']; cbn [snd] in Ht1 |- *.
  - destruct (Hk a w') as (ev2 & Ht2 & Hn2). exists (ev1 ++ ev2).
    rewrite Ht2, Ht1, app_assoc, count_app. split; [reflexivity | lia].
  - exists ev1. split; [exact Ht1 | lia].
Qed.

Lemma eam_try_catch (n1 n2 : nat) (m : M A) (h : value -> M A) :
  emits_at_most p n1 m -> (forall e, emits_at_most p n2 (h e)) ->
  emits_at_most p (n1 + n2) (try_catch m h).
Proof.
  intros Hm Hh w. unfold try_catch. destruct (Hm w) as (ev1 & Ht1 & Hn1).
  destruct (m w) as [[a | e] w']; cbn [snd] in Ht1 |- *.
  - exists ev1. split; [exact Ht1 | lia].
  - destruct (Hh e w') as (ev2 & Ht2 & Hn2). exists (ev1 ++ ev2).
    rewrite Ht2, Ht1, app_assoc, count_app. split; [reflexivity | lia].
Qed.

Lemma eam_weaken (m : M A) : emits_at_most p 0 m -> emits_at_most p 1 m.
Proof.
  intros H w. destruct (H w) as (ev & Ht & Hn). exists ev. split; [exact Ht | lia].
Qed.

End Counting.

Lemma eam_emit (p : event -> bool) (e : event) :
  emits_at_most p (if p e then 1 else 0) (emit e).
Proof.
  intros w. exists [e]. split; [reflexivity |].
  unfold count. cbn [filter]. destruct (p e); apply le_n.
Qed.

Lemma eam_log (p : event -> bool) (lvl : level) (msg : string) :
  p (EvLog lvl msg) = false -> emits_at_most p 0 (log lvl msg).
Proof.
  intros H. pose proof (eam_emit p (EvLog lvl msg)) as He. rewrite H in He. exact He.
Qed.

Lemma eam_Date_now (p : event -> bool) (E : env) : emits_at_most p 0 (Date_now E).
Proof. intros w. exists []. split; [symmetry; apply app_nil_r | apply le_n]. Qed.

Lemma eam_await (p : event -> bool) (ev : event) (c : call) :
  emits_at_most p (if p ev then 1 else 0) (await ev c).
Proof.
  unfold await.
  replace (if p ev then 1 else 0)%nat with ((if p ev then 1 else 0) + 0)%nat by lia.
  apply eam_bind; [apply eam_emit |].
  intros _. destruct c; [apply eam_ret | apply eam_throw].
Qed.

Lemma eam_detach (p : event -> bool) (n : nat) (t : M unit) (h : value -> M unit) :
  emits_at_most p n (try_catch t h) -> emits_at_most p n (detach t h).
Proof. intros H w. unfold detach. cbn [snd]. apply H. Qed.

Lemma count_0 (p : event -> bool) (events : list event) :
  (count p events <= 0)%nat -> existsb p events = false.
Proof.
  unfold count. induction events as [| e events IH]; [reflexivity |].
  cbn [filter existsb]. destruct (p e); cbn [List.length orb]; [lia | exact IH].
Qed.

Lemma count_only_logs (p : event -> bool) (logs : list event) :
  (forall lvl msg, p (EvLog lvl msg) = false) -> only_logs logs -> count p logs = 0%nat.
Proof.
  intros Hp H. unfold count. induction H as [| e logs (lvl & msg & ->) _ IH];
    [reflexivity |].
  cbn [filter]. rewrite Hp. exact IH.
Qed.

(** Steps that add no event of the kind. *)
Ltac eam0 :=
  repeat match goal with
    | |- emits_at_most _ _ (ret _) => apply eam_ret
    | |- emits_at_most _ _ (throw _) => apply eam_throw
    | |- emits_at_most _ _ (lift _) => apply eam_lift
    | |- emits_at_most _ _ (log _ _) => apply eam_log; reflexivity
    | |- emits_at_most _ _ (Date_now _) => apply eam_Date_now
    | |- emits_at_most ?p _ (await ?ev _) => apply (eam_await p ev)
    | |- emits_at_most ?p _ (bind _ _) => apply (eam_bind p 0 0); [| intros ? ]
    | |- emits_at_most ?p _ (try_catch _ _) =>
        apply (eam_try_catch p 0 0); [| intros ? ]
    | |- emits_at_most _ _ (let _ := _ in _) => cbv zeta
    | |- emits_at_most _ _ (match ?c with _ => _ end) => destruct c
    end.

(** Steps of which one may add an event of the kind. *)
Ltac eam1 :=
  repeat match goal with
    | |- emits_at_most ?p 1 (await ?ev _) => apply (eam_await p ev)
    | |- emits_at_most _ 1 (detach _ _) => apply eam_detach
    | |- emits_at_most ?p 1 (bind _ _) =>
        first [ apply (eam_bind p 0 1); [solve [eam0] | intros ? ]
              | apply (eam_bind p 1 0); [| intros ?; solve [eam0] ] ]
    | |- emits_at_most ?p 1 (try_catch _ _) =>
        apply (eam_try_catch p 1 0); [| intros ?; solve [eam0] ]
    | |- emits_at_most _ 1 (let _ := _ in _) => cbv zeta
    | |- emits_at_most _ 1 (match ?c with _ => _ end) => destruct c
    | |- emits_at_most _ 1 _ => apply eam_weaken; solve [eam0]
    end.

(** ** Cost Calculator *)

Lemma lookup_map_snd {A B} (f : A -> B) (k : string) (l : list (string * A)) :
  lookup k (map (fun kv => (fst kv, f (snd kv))) l) = option_map f (lookup k l).
Proof.
  induction l as [| [k' v] l IH]; simpl; [reflexivity |].
  destruct (String.eqb k k'); [reflexivity | exact IH].
Qed.

Lemma config_pricing_member (modelName : string) :
  get_prop config_pricing modelName =
  Ok (match lookup modelName pricing_entries with
      | Some e => entry_value e
      | None => inherited modelName
      end).
Proof.
  unfold config_pricing, get_prop. rewrite lookup_map_snd.
  destruct (lookup modelName pricing_entries); reflexivity.
Qed.

Lemma config_pricing_default :
  get_prop config_pricing "gemini-pro" = Ok (entry_value default_entry).
Proof. reflexivity. Qed.

(** The cost for a given pricing entry. *)
Lemma calculateCost_listed (i o : value) (modelName : string) (e : PricingEntry) :
  lookup modelName pricing_entries = Some e ->
  calculateCost i o modelName =
  Ok (num_add (num_div (ToNumber i) (inputTokensPerDollar e))
              (num_div (ToNumber o) (outputTokensPerDollar e))).
Proof.
  intros H. unfold calculateCost. rewrite config_pricing_member, H.
  reflexivity.
Qed.

Lemma calculateCost_unlisted (i o : value) (modelName : string) :
  lookup modelName pricing_entries = None ->
  is_inherited_name modelName = false ->
  calculateCost i o modelName =
  Ok (num_add (num_div (ToNumber i) (inputTokensPerDollar default_entry))
              (num_div (ToNumber o) (outputTokensPerDollar default_entry))).
Proof.
  intros H Hn. unfold calculateCost. rewrite config_pricing_member, H.
  unfold inherited. rewrite Hn. cbn [truthy rbind].
  rewrite config_pricing_default. reflexivity.
Qed.

Lemma calculateCost_inherited (i o : value) (modelName : string) :
  lookup modelName pricing_entries = None ->
  is_inherited_name modelName = true ->
  calculateCost i o modelName = Ok NaN.
Proof.
  intros H Hn. unfold calculateCost. rewrite config_pricing_member, H.
  unfold inherited. rewrite Hn. cbn [truthy rbind get_prop].
  assert (Hi : inherited "inputTokensPerDollar" = VUndefined) by reflexivity.
  assert (Ho : inherited "outputTokensPerDollar" = VUndefined) by reflexivity.
  rewrite Hi, Ho. unfold js_div. cbn [ToNumber].
  destruct (ToNumber i), (ToNumber o); reflexivity.
Qed.

(** The cost as the formula of the specification gives it. *)
Lemma calculateCost_cost_formula (inputTokens outputTokens : Z) (modelId : string) :
  is_inherited_name modelId = false ->
  calculateCost (tokens inputTokens) (tokens outputTokens) modelId =
  Ok (cost_formula inputTokens outputTokens modelId).
Proof.
  intros Hn. unfold cost_formula, pricing_for.
  destruct (lookup modelId pricing_entries) as [e |] eqn:H.
  - rewrite (calculateCost_listed _ _ _ _ H). reflexivity.
  - rewrite (calculateCost_unlisted _ _ _ H Hn). reflexivity.
Qed.

(** C3.  For all token counts and every model id, the cost computed by
    calculateCost is
    [inputTokens / pricing[m].inputTokensPerDollar
     + outputTokens / pricing[m].outputTokensPerDollar],
    where an id absent from the pricing table takes the 'gemini-pro' entry.
    The hypothesis leaves out the twelve names a plain object inherits from
    Object.prototype, which are no model ids: the routes that call
    calculateCost accept only the ids of their lists, and none of these is
    such a name ([allowedModels_not_inherited] below). *)
Theorem calculateCost_formula (inputTokens outputTokens : Z) (modelId : string) :
  is_inherited_name modelId = false ->
  calculateCost (tokens inputTokens) (tokens outputTokens) modelId =
  Ok (cost_formula inputTokens outputTokens modelId).
Proof.
  exact (calculateCost_cost_formula inputTokens outputTokens modelId).
Qed.

(** No model id the routes accept is an inherited name. *)
Lemma allowedModels_not_inherited (modelId : string) :
  includes allowedModels modelId = true -> is_inherited_name modelId = false.
Proof.
  unfold includes, allowedModels. cbn [existsb]. intros H.
  repeat (apply orb_true_iff in H;
          destruct H as [H | H];
          [apply String.eqb_eq in H; subst; reflexivity |]).
  discriminate H.
Qed.

(** calculateCost returns for every input: it never throws. *)
Lemma calculateCost_returns (i o : value) (modelName : string) :
  exists c, calculateCost i o modelName = Ok c.
Proof.
  destruct (lookup modelName pricing_entries) as [e |] eqn:H.
  - rewrite (calculateCost_listed _ _ _ _ H). eauto.
  - destruct (is_inherited_name modelName) eqn:Hn.
    + rewrite (calculateCost_inherited _ _ _ H Hn). eauto.
    + rewrite (calculateCost_unlisted _ _ _ H Hn). eauto.
Qed.

(** C4.  The entry of 'gemini-embedding-001' has [outputTokensPerDollar] 0,
    so with no output tokens the output term is 0/0: the cost of [x] input
    tokens is NaN for every [x], where linearity asks for
    [cost(0, 0, m) == 0] and [cost(2x, 0, m) == 2 * cost(x, 0, m)]. *)
Theorem calculateCost_embedding_NaN (x : Z) :
  calculateCost (tokens x) (tokens 0) "gemini-embedding-001" = Ok NaN.
Proof.
  rewrite (calculateCost_listed _ _ "gemini-embedding-001"
             {| inputTokensPerDollar := per_million 0.15;
                outputTokensPerDollar := Fin 0 |} eq_refl).
  cbn [ToNumber tokens inputTokensPerDollar outputTokensPerDollar].
  unfold num_of_Z. 
  change (num_div (Fin (inject_Z 0)) (Fin 0)) with NaN.
  destruct (num_div (Fin (inject_Z x)) (per_million 0.15)); reflexivity.
Qed.

(** C5.  For 'gemini-embedding-001' the computed cost is neither finite nor
    non-negative: it is NaN for any number of input tokens and no output
    tokens, and Infinity as soon as there is an output token. *)
Theorem calculateCost_embedding_not_finite (x : Z) :
  (exists c,
     calculateCost (tokens x) (tokens 0) "gemini-embedding-001" = Ok c /\
     num_is_finite c = false /\ num_nonneg c = false) /\
  (exists c,
     calculateCost (tokens x) (tokens 1) "gemini-embedding-001" = Ok c /\
     num_is_finite c = false).
Proof.
  rewrite !(calculateCost_listed _ _ "gemini-embedding-001"
              {| inputTokensPerDollar := per_million 0.15;
                 outputTokensPerDollar := Fin 0 |} eq_refl).
  cbn [ToNumber tokens inputTokensPerDollar outputTokensPerDollar].
  assert (Hx : exists q, num_div (num_of_Z x) (per_million 0.15) = Fin q).
  { unfold num_of_Z, per_million. eexists. reflexivity. }
  destruct Hx as [q ->].
  split; eexists; (split; [reflexivity |]); [split |]; reflexivity.
Qed.

(** ** Cost on the entries with non-zero rates *)

Lemma Qis_zero_false (q : Q) : Qis_zero q = false -> ~ q == 0.
Proof.
  unfold Qis_zero, Qeq. cbn [Qnum Qden]. intros H Hq.
  apply Z.eqb_neq in H. lia.
Qed.

(** With non-zero rates the cost of input tokens alone is linear, and no
    tokens cost nothing. *)
Lemma cost_linear_on_rates (a b : Q) (x : Z) :
  Qis_zero a = false -> Qis_zero b = false ->
  let cost := fun t =>
    num_add (num_div (num_of_Z t) (Fin a)) (num_div (num_of_Z 0) (Fin b)) in
  cost (2 * x)%Z = num_mul (Fin 2) (cost x) /\ cost 0%Z = Fin 0.
Proof.
  intros Ha Hb cost. subst cost. unfold num_of_Z, num_div. rewrite Ha, Hb.
  cbn [num_add num_mul]. apply Qis_zero_false in Ha, Hb. split.
  - f_equal. apply Qred_complete. rewrite !Qred_correct, inject_Z_mult.
    change (inject_Z 2) with 2%Q. change (inject_Z 0) with 0%Q.
    field; try split; assumption.
  - reflexivity.
Qed.

Lemma listed_rates_nonzero (modelId : string) (e : PricingEntry) :
  lookup modelId pricing_entries = Some e ->
  modelId <> "gemini-embedding-001" ->
  exists a b,
    e = {| inputTokensPerDollar := Fin a; outputTokensPerDollar := Fin b |} /\
    0 < a /\ 0 < b.
Proof.
  unfold pricing_entries. cbn [lookup]. intros H Hne.
  repeat match type of H with
    | (if String.eqb ?m ?k then _ else _) = _ =>
        destruct (String.eqb_spec m k) as [-> | _];
        [ first [ congruence
                | injection H as <-; do 2 eexists;
                  split; [reflexivity | split; reflexivity] ]
        | ]
    end.
  discriminate H.
Qed.

Lemma rates_nonzero (modelId : string) :
  modelId <> "gemini-embedding-001" ->
  exists a b,
    pricing_for modelId =
      {| inputTokensPerDollar := Fin a; outputTokensPerDollar := Fin b |} /\
    0 < a /\ 0 < b.
Proof.
  intros Hne. unfold pricing_for.
  destruct (lookup modelId pricing_entries) as [e |] eqn:H.
  - exact (listed_rates_nonzero modelId e H Hne).
  - do 2 eexists. split; [reflexivity | split; reflexivity].
Qed.

Lemma Qis_zero_pos (q : Q) : 0 < q -> Qis_zero q = false.
Proof.
  unfold Qis_zero, Qlt. cbn [Qnum Qden]. intros H. apply Z.eqb_neq. lia.
Qed.

Lemma Qis_neg_nonneg (q : Q) : 0 <= q -> Qis_neg q = false.
Proof.
  unfold Qis_neg, Qle. cbn [Qnum Qden]. intros H. apply Z.ltb_ge. lia.
Qed.

(** Linearity holds on every model id other than 'gemini-embedding-001' (and
    the inherited names). *)
Lemma calculateCost_linear (modelId : string) (x : Z) :
  modelId <> "gemini-embedding-001" ->
  is_inherited_name modelId = false ->
  exists c,
    calculateCost (tokens x) (tokens 0) modelId = Ok c /\
    calculateCost (tokens (2 * x)) (tokens 0) modelId = Ok (num_mul (Fin 2) c) /\
    calculateCost (tokens 0) (tokens 0) modelId = Ok (Fin 0).
Proof.
  intros Hne Hn.
  destruct (rates_nonzero modelId Hne) as (a & b & Hp & Ha & Hb).
  apply Qis_zero_pos in Ha, Hb.
  rewrite !(calculateCost_cost_formula _ _ _ Hn). unfold cost_formula. rewrite Hp.
  cbn [inputTokensPerDollar outputTokensPerDollar].
  destruct (cost_linear_on_rates a b x Ha Hb) as [H2 H0].
  eexists. split; [reflexivity |]. split; f_equal; assumption.
Qed.

(** On those model ids the cost of non-negative token counts is finite and
    non-negative. *)
Lemma calculateCost_finite_nonneg (modelId : string) (x y : Z) :
  modelId <> "gemini-embedding-001" ->
  is_inherited_name modelId = false ->
  (0 <= x)%Z -> (0 <= y)%Z ->
  exists c,
    calculateCost (tokens x) (tokens y) modelId = Ok c /\
    num_is_finite c = true /\ num_nonneg c = true.
Proof.
  intros Hne Hn Hx Hy.
  destruct (rates_nonzero modelId Hne) as (a & b & Hp & Ha & Hb).
  rewrite (calculateCost_cost_formula _ _ _ Hn). unfold cost_formula. rewrite Hp.
  cbn [inputTokensPerDollar outputTokensPerDollar].
  unfold num_of_Z, num_div. rewrite (Qis_zero_pos a Ha), (Qis_zero_pos b Hb).
  cbn [num_add]. eexists. split; [reflexivity |]. split; [reflexivity |].
  cbn [num_nonneg]. rewrite Qis_neg_nonneg; [reflexivity |].
  rewrite !Qred_correct.
  assert (H0 : forall (z : Z) (r : Q), (0 <= z)%Z -> 0 < r -> 0 <= inject_Z z / r).
  { intros z r Hz Hr. apply Qle_shift_div_l; [exact Hr |].
    rewrite Qmult_0_l. change 0 with (inject_Z 0). rewrite <- Zle_Qle. exact Hz. }
  rewrite <- (Qplus_0_l 0). apply Qplus_le_compat; apply H0; assumption.
Qed.

(** ** Arithmetic on integer-valued numbers *)

Lemma Qred_inject_Z (z : Z) : Qred (inject_Z z) = inject_Z z.
Proof.
  apply Qcanon.Qred_identity. unfold inject_Z. cbn [Qnum Qden]. apply Z.gcd_1_r.
Qed.

Lemma num_add_Z (a b : Z) : num_add (num_of_Z a) (num_of_Z b) = num_of_Z (a + b).
Proof.
  unfold num_of_Z, num_add. f_equal.
  rewrite <- (Qred_inject_Z (a + b)). apply Qred_complete.
  unfold inject_Z, Qplus, Qeq. cbn [Qnum Qden]. lia.
Qed.

Lemma num_mul_Z (a b : Z) : num_mul (num_of_Z a) (num_of_Z b) = num_of_Z (a * b).
Proof.
  unfold num_of_Z, num_mul. f_equal.
  rewrite <- (Qred_inject_Z (a * b)). apply Qred_complete.
  unfold inject_Z, Qmult, Qeq. cbn [Qnum Qden]. lia.
Qed.

Lemma Qceiling_quarter (z : Z) : Qceiling (inject_Z z / 4) = ((z + 3) / 4)%Z.
Proof.
  clear. unfold Qceiling, Qfloor, Qdiv, Qmult, Qinv, Qopp, inject_Z. cbn [Qnum Qden].
  change (Z.pos (1 * 4)) with 4%Z.
  Z.div_mod_to_equations. lia.
Qed.

Lemma ceil_div_length (L : nat) :
  ceil_div (VNum (num_of_nat L)) (VNum (Fin 4)) = num_of_Z (ceil_quarter L).
Proof.
  unfold ceil_div, js_div, num_of_nat, num_of_Z, ceil_quarter. cbn [ToNumber].
  unfold num_div. change (Qis_zero 4) with false. cbn match.
  unfold num_ceil, num_of_Z. do 2 f_equal.
  rewrite <- Qceiling_quarter. apply Qceiling_comp. apply Qred_correct.
Qed.

Lemma ceil_quarter_0 : ceil_quarter 0 = 0%Z.
Proof. reflexivity. Qed.

(** ** Token Estimator *)

Lemma text_tokens_string (s : string) :
  text_tokens (VStr s) = Ok (num_of_Z (ceil_quarter (String.length s))).
Proof.
  unfold text_tokens. cbn [get_prop rbind]. 
  change (String.eqb "length" "length") with true. cbn match.
  rewrite ceil_div_length. reflexivity.
Qed.

Lemma truthy_string (s : string) :
  truthy (VStr s) = false -> s = "".
Proof.
  cbn [truthy]. intros H. apply negb_false_iff in H.
  apply String.eqb_eq in H. exact H.
Qed.

Lemma estimate_part_value (n : Z) (p : Part) :
  estimate_part (num_of_Z n) (part_value p) =
  Ok (num_of_Z (n + (text_estimate p + inline_estimate p))).
Proof.
  destruct p as [[s |] [[m d] |]];
    unfold estimate_part, part_value, text_estimate, inline_estimate;
    cbn [text inlineData app get_prop lookup rbind String.eqb Ascii.eqb Bool.eqb];
    cbn [inherited is_inherited_name existsb object_prototype_names String.eqb
         Ascii.eqb Bool.eqb orb truthy rbind];
    change (Fin 1000) with (num_of_Z 1000);
    try (destruct (negb (String.eqb s "")) eqn:Hs;
         [ rewrite text_tokens_string
         | apply negb_false_iff, String.eqb_eq in Hs; subst s;
           cbn [String.length]; rewrite ceil_quarter_0 ]);
    cbn [rbind]; rewrite ?num_add_Z; do 2 f_equal; lia.
Qed.

Lemma for_of_estimate_part (parts : list Part) (n : Z) :
  for_of estimate_part (map part_value parts) (num_of_Z n) =
  Ok (num_of_Z (n + parts_estimate parts)).
Proof.
  revert n. induction parts as [| p parts IH]; intros n.
  - cbn. do 2 f_equal. lia.
  - cbn [map for_of]. rewrite estimate_part_value. cbn [rbind].
    rewrite IH. unfold parts_estimate. cbn [map sumZ fold_right].
    do 2 f_equal. unfold sumZ. lia.
Qed.

Lemma estimate_content_value (parts : list Part) (n : Z) :
  estimate_content (num_of_Z n) (content_value parts) =
  Ok (num_of_Z (n + parts_estimate parts)).
Proof.
  unfold estimate_content, content_value.
  cbn [get_prop lookup String.eqb Ascii.eqb Bool.eqb rbind truthy isArray andb iterate].
  apply for_of_estimate_part.
Qed.

Lemma for_of_estimate_content (contents : list (list Part)) (n : Z) :
  for_of estimate_content (map content_value contents) (num_of_Z n) =
  Ok (num_of_Z (n + sumZ (map parts_estimate contents))).
Proof.
  revert n. induction contents as [| c contents IH]; intros n.
  - cbn. do 2 f_equal. lia.
  - cbn [map for_of]. rewrite estimate_content_value. cbn [rbind].
    rewrite IH. cbn [map sumZ fold_right]. do 2 f_equal. unfold sumZ. lia.
Qed.

Lemma estimate_input_value (contents : list (list Part)) (others : list (string * value)) :
  estimate_input (body_value contents others) =
  Ok (num_of_Z (input_estimate contents)).
Proof.
  unfold estimate_input, body_value.
  cbn [get_prop lookup String.eqb Ascii.eqb Bool.eqb rbind truthy isArray andb iterate].
  change (Fin 0) with (num_of_Z 0). rewrite for_of_estimate_content.
  cbn [rbind]. change (Fin 100) with (num_of_Z 100). rewrite num_add_Z.
  reflexivity.
Qed.

(** C6.  For a request body whose contents are the given content parts, the
    token estimator passes the request on with an input estimate of the sum
    over all parts of ceil(length / 4) for a text and 1000 for inline data,
    plus 100 once, and a total estimate of twice the input estimate; for a
    single text part of length L and nothing else the input estimate is
    ceil(L / 4) + 100. *)
Theorem estimateTokenUsage_estimate (req : request) (contents : list (list Part))
  (others : list (string * value)) (w : world) :
  req_body req = body_value contents others ->
  estimateTokenUsage req w =
    (Ok (Next (set_estimatedTokens req
                 (estimate_value (num_of_Z (input_estimate contents))
                                 (num_of_Z (2 * input_estimate contents))))),
     logged w [EvLog Info "Token usage estimated"]) /\
  (forall s : string,
     contents = [[ {| text := Some s; inlineData := None |} ]] ->
     input_estimate contents = (ceil_quarter (String.length s) + 100)%Z).
Proof.
  intros Hbody. split.
  - unfold estimateTokenUsage, try_catch, bind, lift.
    rewrite Hbody, estimate_input_value.
    destruct (get_prop_opt_ok (user req) "id") as [x ->].
    change (Fin 2) with (num_of_Z 2). rewrite num_mul_Z.
    replace (input_estimate contents * 2)%Z with (2 * input_estimate contents)%Z by lia.
    reflexivity.
  - intros s ->. unfold input_estimate, parts_estimate, text_estimate, inline_estimate.
    cbn [map sumZ fold_right text inlineData]. lia.
Qed.

(** ** Usage Extractor *)

Lemma rbind_TypeError {A B} (r : result A) (k : A -> result B) :
  throws_TypeError r -> (forall a, throws_TypeError (k a)) ->
  throws_TypeError (rbind r k).
Proof.
  intros Hr Hk. destruct r; cbn; auto.
Qed.

Lemma get_prop_TypeError (v : value) (k : string) : throws_TypeError (get_prop v k).
Proof.
  destruct v; cbn; eauto.
Qed.

Lemma get_prop_opt_TypeError (v : value) (k : string) :
  throws_TypeError (get_prop_opt v k).
Proof.
  destruct v; cbn; eauto.
Qed.

Lemma iterate_TypeError (v : value) : throws_TypeError (iterate v).
Proof.
  destruct v; cbn; eauto.
Qed.

Lemma for_of_TypeError {A} (step : A -> value -> result A) (items : list value) :
  (forall a x, throws_TypeError (step a x)) ->
  forall acc, throws_TypeError (for_of step items acc).
Proof.
  intros Hstep. induction items as [| x items IH]; intros acc; cbn [for_of].
  - exact I.
  - apply rbind_TypeError; auto.
Qed.

Lemma Ok_TypeError {A} (a : A) : throws_TypeError (Ok a).
Proof. exact I. Qed.

Create HintDb type_errors.
#[local] Hint Resolve get_prop_TypeError get_prop_opt_TypeError iterate_TypeError
  Ok_TypeError : type_errors.

Ltac type_errors :=
  repeat first
    [ apply rbind_TypeError; [| intros ]
    | apply for_of_TypeError; intros
    | solve [auto with type_errors]
    | match goal with
      | |- throws_TypeError (if ?b then _ else _) => destruct b
      end ].

Lemma text_tokens_TypeError (v : value) : throws_TypeError (text_tokens v).
Proof. unfold text_tokens. type_errors. Qed.

#[local] Hint Resolve text_tokens_TypeError : type_errors.

Lemma count_part_TypeError (n : number) (v : value) :
  throws_TypeError (count_part n v).
Proof. unfold count_part. type_errors. Qed.

#[local] Hint Resolve count_part_TypeError : type_errors.

Lemma count_candidate_TypeError (n : number) (v : value) :
  throws_TypeError (count_candidate n v).
Proof. unfold count_candidate. type_errors. Qed.

#[local] Hint Resolve count_candidate_TypeError : type_errors.

Lemma extract_body_TypeError (response : value) :
  throws_TypeError (extract_body response).
Proof. unfold extract_body. type_errors. Qed.

Lemma js_or_tokens (z : Z) : js_or (tokens z) (VNum (Fin 0)) = tokens z.
Proof.
  unfold js_or, tokens, num_of_Z, inject_Z, truthy, num_truthy, Qis_zero.
  cbn [Qnum]. destruct (Z.eqb_spec z 0) as [-> | _]; reflexivity.
Qed.

Lemma extract_body_metadata (p c t : option Z) (others rest : list (string * value)) :
  extract_body (response_value (VObj (("usageMetadata", metadata_value p c t) :: others)) rest) =
  Ok (usage_value (count_or_zero p) (count_or_zero c) (count_or_zero t)).
Proof.
  unfold extract_body, response_value.
  cbn [get_prop get_prop_opt lookup String.eqb Ascii.eqb Bool.eqb rbind].
  unfold metadata_value at 1. cbn [truthy].
  destruct p as [p |], c as [c |], t as [t |];
    cbn [metadata_value count_field app get_prop lookup String.eqb Ascii.eqb
         Bool.eqb rbind count_or_zero];
    rewrite ?js_or_tokens; reflexivity.
Qed.

Lemma count_part_value (n : Z) (p : Part) :
  count_part (num_of_Z n) (part_value p) = Ok (num_of_Z (n + text_estimate p)).
Proof.
  destruct p as [[s |] [[m d] |]];
    unfold count_part, part_value, text_estimate;
    cbn [text inlineData app get_prop lookup rbind String.eqb Ascii.eqb Bool.eqb];
    cbn [inherited is_inherited_name existsb object_prototype_names String.eqb
         Ascii.eqb Bool.eqb orb truthy rbind];
    try (destruct (negb (String.eqb s "")) eqn:Hs;
         [ rewrite text_tokens_string
         | apply negb_false_iff, String.eqb_eq in Hs; subst s;
           cbn [String.length]; rewrite ceil_quarter_0 ]);
    cbn [rbind]; rewrite ?num_add_Z; do 2 f_equal; lia.
Qed.

Lemma for_of_count_part (parts : list Part) (n : Z) :
  for_of count_part (map part_value parts) (num_of_Z n) =
  Ok (num_of_Z (n + sumZ (map text_estimate parts))).
Proof.
  revert n. induction parts as [| p parts IH]; intros n.
  - cbn. do 2 f_equal. lia.
  - cbn [map for_of]. rewrite count_part_value. cbn [rbind].
    rewrite IH. cbn [map sumZ fold_right]. do 2 f_equal. unfold sumZ. lia.
Qed.

Lemma count_candidate_of (n : Z) (c : Candidate) :
  count_candidate (num_of_Z n) (candidate_of c) =
  Ok (num_of_Z (n + sumZ (map text_estimate (candidate_parts c)))).
Proof.
  destruct c as [[[parts |] |] reason];
    unfold count_candidate, candidate_of, candidate_parts, content_of;
    cbn [cand_content cand_finishReason app get_prop lookup String.eqb Ascii.eqb
         Bool.eqb rbind truthy iterate inherited is_inherited_name existsb
         object_prototype_names orb map sumZ fold_right].
  - apply for_of_count_part.
  - do 2 f_equal. lia.
  - do 2 f_equal. lia.
Qed.

Lemma for_of_count_candidate (candidates : list Candidate) (n : Z) :
  for_of count_candidate (map candidate_of candidates) (num_of_Z n) =
  Ok (num_of_Z (n + output_estimate (map candidate_parts candidates))).
Proof.
  revert n. induction candidates as [| c candidates IH]; intros n.
  - cbn. do 2 f_equal. lia.
  - cbn [map for_of]. rewrite count_candidate_of. cbn [rbind]. rewrite IH.
    unfold output_estimate. cbn [map sumZ fold_right]. do 2 f_equal.
    unfold sumZ. lia.
Qed.

Lemma extract_body_candidates (candidates : option (list Candidate))
  (others rest : list (string * value)) :
  lookup "usageMetadata" others = None ->
  lookup "candidates" others = None ->
  extract_body (response_value (VObj (candidates_field candidates ++ others)) rest) =
  Ok (usage_value (tokens 0) (tokens (candidates_estimate candidates))
                  (tokens (candidates_estimate candidates))).
Proof.
  intros Hm Hc. unfold extract_body, response_value.
  cbn [get_prop get_prop_opt lookup String.eqb Ascii.eqb Bool.eqb rbind].
  destruct candidates as [l |]; cbn [candidates_field app candidates_estimate].
  - cbn [lookup String.eqb Ascii.eqb Bool.eqb]. rewrite Hm.
    cbn [inherited is_inherited_name existsb object_prototype_names String.eqb
         Ascii.eqb Bool.eqb orb truthy rbind iterate].
    change (Fin 0) with (num_of_Z 0). rewrite for_of_count_candidate.
    reflexivity.
  - rewrite Hm, Hc.
    cbn [inherited is_inherited_name existsb object_prototype_names String.eqb
         Ascii.eqb Bool.eqb orb truthy rbind].
    reflexivity.
Qed.

Lemma extract_body_reported (metadata others rest : list (string * value)) :
  extract_body (response_value (VObj (("usageMetadata", VObj metadata) :: others)) rest) =
  Ok (usage_value (reported_count metadata "promptTokenCount")
                  (reported_count metadata "candidatesTokenCount")
                  (reported_count metadata "totalTokenCount")).
Proof. reflexivity. Qed.

Lemma reported_count_present (metadata : list (string * value)) (k : string) (z : Z) :
  lookup k metadata = Some (tokens z) -> reported_count metadata k = tokens z.
Proof.
  intros H. unfold reported_count, field. cbn [get_prop]. rewrite H.
  apply js_or_tokens.
Qed.

Lemma reported_count_absent (metadata : list (string * value)) (k : string) :
  lookup k metadata = None -> is_inherited_name k = false ->
  reported_count metadata k = tokens 0.
Proof.
  intros H Hn. unfold reported_count, field, inherited. cbn [get_prop].
  rewrite H. unfold inherited. rewrite Hn. reflexivity.
Qed.

(** C7.  The usage extractor returns the provider's usage-metadata counts
    when the block is present (0 for a count the block leaves out).  Without
    the block it reports 0 prompt tokens and, as both the output count and
    the total, the sum of ceil(length / 4) over the text parts of the
    candidates: of any number of candidates, each with parts, with a content
    without parts or with no content at all, and 0 when the response has no
    candidates field.  And on every response value whatsoever it returns a
    usage and does not throw, the all-zero usage whenever reading the
    response fails. *)
Theorem extractTokenUsage_spec :
  (forall (metadata others rest : list (string * value)) (w : world),
     extractTokenUsage
       (response_value (VObj (("usageMetadata", VObj metadata) :: others)) rest) w =
     (Ok (usage_value (reported_count metadata "promptTokenCount")
                      (reported_count metadata "candidatesTokenCount")
                      (reported_count metadata "totalTokenCount")), w)) /\
  (forall (metadata : list (string * value)) (k : string),
     (forall z, lookup k metadata = Some (tokens z) ->
                reported_count metadata k = tokens z) /\
     (lookup k metadata = None -> is_inherited_name k = false ->
      reported_count metadata k = tokens 0)) /\
  (forall (candidates : option (list Candidate))
          (others rest : list (string * value)) (w : world),
     lookup "usageMetadata" others = None ->
     lookup "candidates" others = None ->
     extractTokenUsage
       (response_value (VObj (candidates_field candidates ++ others)) rest) w =
     (Ok (usage_value (tokens 0) (tokens (candidates_estimate candidates))
                      (tokens (candidates_estimate candidates))), w)) /\
  (forall (response : value) (w : world),
     exists u w',
       extractTokenUsage response w = (Ok u, w') /\
       (forall e, extract_body response = Throw e ->
                  u = zero_usage /\
                  w' = logged w [EvLog Err "Error extracting token usage"])).
Proof.
  split; [| split; [| split]].
  - intros. unfold extractTokenUsage, try_catch, lift.
    rewrite extract_body_reported. reflexivity.
  - intros metadata k. split.
    + intros z. apply reported_count_present.
    + apply reported_count_absent.
  - intros candidates others rest w Hm Hc. unfold extractTokenUsage, try_catch, lift.
    rewrite (extract_body_candidates _ _ _ Hm Hc). reflexivity.
  - intros response w. unfold extractTokenUsage, try_catch, lift.
    pose proof (extract_body_TypeError response) as HT.
    destruct (extract_body response) as [u | e].
    + exists u, w. split; [reflexivity | intros e' He'; discriminate He'].
    + destruct HT as [m ->]. eexists. eexists. split; [reflexivity |].
      intros _ _. split; reflexivity.
Qed.

(** ** Quota Guard *)

(** The limits query makes one call to the store; it returns a truthy
    snapshot or throws an error object. *)
Lemma svc_checkUserLimits_cases (E : env) (userId : value) (w : world) :
  exists logs,
    only_logs logs /\
    snd (svc_checkUserLimits E userId w) = logged w (limits_call userId :: logs) /\
    match fst (svc_checkUserLimits E userId w) with
    | Ok limits => truthy limits = true /\ logs = []
    | Throw e => nullish e = false
    end.
Proof.
  unfold svc_checkUserLimits, only_logs. run.
  destruct (store_rpc E "check_user_limits" (VObj [("p_user_id", userId)]))
    as [r | err]; tidy.
  2: { destruct err; tidy;
         (eexists; split; [| split; [reflexivity | reflexivity]]; repeat constructor; eauto). }
  case_prop r "data".
  2: { eexists. split; [| split; [reflexivity | reflexivity]]. repeat constructor; eauto. }
  case_prop r "error".
  2: { eexists. split; [| split; [reflexivity | reflexivity]]. repeat constructor; eauto. }
  destruct (truthy (field r "error")); tidy.
  { eexists. split; [| split; [reflexivity | reflexivity]]. repeat constructor; eauto. }
  destruct (get_index_defined (field r "data") 0) as [[x Hx] | [m Hx]]; rewrite Hx; tidy.
  - exists []. split; [constructor |]. split; [reflexivity |].
    split; [apply js_or_truthy; reflexivity | reflexivity].
  - eexists. split; [| split; [reflexivity | reflexivity]]. repeat constructor; eauto.
Qed.

Lemma svc_checkUserLimits_ok (E : env) (userId limits : value) (w w1 : world) :
  svc_checkUserLimits E userId w = (Ok limits, w1) ->
  truthy limits = true /\ w1 = logged w [limits_call userId].
Proof.
  intros H. destruct (svc_checkUserLimits_cases E userId w) as (logs & _ & Hw & Hr).
  rewrite H in Hw, Hr. cbn [fst snd] in Hw, Hr. destruct Hr as [Ht ->].
  split; assumption.
Qed.

Lemma svc_checkUserLimits_throws (E : env) (userId e : value) (w w1 : world) :
  svc_checkUserLimits E userId w = (Throw e, w1) ->
  nullish e = false.
Proof.
  intros H. destruct (svc_checkUserLimits_cases E userId w) as (logs & _ & _ & Hr).
  rewrite H in Hr. exact Hr.
Qed.

(** The query fails when the store is unavailable (the call rejects). *)
Lemma svc_checkUserLimits_rejects (E : env) (userId err : value) (w : world) :
  store_rpc E "check_user_limits" (VObj [("p_user_id", userId)]) = Rejects err ->
  nullish err = false ->
  svc_checkUserLimits E userId w =
  (Throw err,
   logged w [limits_call userId; EvLog Err "Error in checkUserLimits"]).
Proof.
  intros H Hn. unfold svc_checkUserLimits. run. rewrite H. tidy.
  rewrite (get_prop_readable _ _ Hn). reflexivity.
Qed.

(** The query fails when the store answers with an error. *)
Lemma svc_checkUserLimits_error (E : env) (userId r : value) (w : world) :
  store_rpc E "check_user_limits" (VObj [("p_user_id", userId)]) = Resolves r ->
  truthy (field r "error") = true ->
  svc_checkUserLimits E userId w =
  (Throw (Error "Failed to check user limits"),
   logged w [limits_call userId; EvLog Err "Error checking user limits";
             EvLog Err "Error in checkUserLimits"]).
Proof.
  intros H He. unfold svc_checkUserLimits. run. rewrite H. tidy.
  assert (Hr : truthy r = true).
  { destruct r; try reflexivity; discriminate He. }
  rewrite !(get_prop_truthy r _ Hr). tidy. rewrite He. tidy. reflexivity.
Qed.

(** An answer without rows gives the default snapshot. *)
Lemma svc_checkUserLimits_empty (E : env) (userId r : value) (w : world) :
  store_rpc E "check_user_limits" (VObj [("p_user_id", userId)]) = Resolves r ->
  field r "data" = VArr [] ->
  truthy (field r "error") = false ->
  svc_checkUserLimits E userId w = (Ok default_limits, logged w [limits_call userId]).
Proof.
  intros H Hd He. unfold svc_checkUserLimits. run. rewrite H. tidy.
  assert (Hr : truthy r = true).
  { destruct r; try reflexivity; discriminate Hd. }
  rewrite !(get_prop_truthy r _ Hr). tidy. rewrite He, Hd. reflexivity.
Qed.

Lemma guarded_pipeline_sent (E : env) (req : request) (w w' : world) (res : response) :
  checkUserLimits E req w = (Ok (Sent res), w') ->
  guarded_pipeline E req w = (Ok res, w').
Proof.
  intros H. unfold guarded_pipeline. cbn [run_chain]. unfold bind at 1.
  rewrite H. reflexivity.
Qed.

Lemma guarded_pipeline_next (E : env) (req req' : request) (w w' : world) :
  checkUserLimits E req w = (Ok (Next req'), w') ->
  guarded_pipeline E req w = after_quota_guard E req' w'.
Proof.
  intros H. unfold guarded_pipeline. cbn [run_chain]. unfold bind at 1.
  rewrite H. reflexivity.
Qed.

(** The first violated ceiling is violated and every ceiling evaluated before
    it is satisfied; there is one as soon as any ceiling is violated. *)
Lemma first_violated_first (snapshot : value) (c : ceiling) :
  first_violated snapshot = Some c <->
  violated snapshot c = true /\
  match c with
  | HourlyRequests => True
  | DailyTokens => violated snapshot HourlyRequests = false
  | DailyCost =>
      violated snapshot HourlyRequests = false /\
      violated snapshot DailyTokens = false
  end.
Proof.
  clear. unfold first_violated, ceiling_order. cbn [find].
  destruct (violated snapshot HourlyRequests) eqn:H1,
           (violated snapshot DailyTokens) eqn:H2,
           (violated snapshot DailyCost) eqn:H3;
    destruct c; intuition congruence.
Qed.

Lemma first_violated_exists (snapshot : value) (c : ceiling) :
  violated snapshot c = true -> exists c', first_violated snapshot = Some c'.
Proof.
  unfold first_violated, ceiling_order. cbn [find]. intros H.
  destruct (violated snapshot HourlyRequests) eqn:H1; [eauto |].
  destruct (violated snapshot DailyTokens) eqn:H2; [eauto |].
  destruct (violated snapshot DailyCost) eqn:H3; [eauto |].
  destruct c; congruence.
Qed.

(** The guard on a snapshot whose first violated ceiling is [c]. *)
Lemma checkUserLimits_violation (E : env) (req : request) (w w1 : world)
  (limits : value) (c : ceiling) :
  truthy (user req) = true ->
  svc_checkUserLimits E (field (user req) "id") w = (Ok limits, w1) ->
  first_violated limits = Some c ->
  checkUserLimits E req w =
  (Ok (Sent (quota_response limits c (clock E (ticks w1)))),
   tick w1 [EvLog Info "Checking user limits"; EvLog Warn (limit_warning c)]).
Proof.
  intros Hu Hq Hc.
  destruct (svc_checkUserLimits_ok _ _ _ _ _ Hq) as [Ht Hw1].
  unfold checkUserLimits. rewrite Hu. cbn [negb]. run.
  rewrite (get_prop_truthy _ "id" Hu), Hq. tidy.
  rewrite !(get_prop_truthy limits _ Ht). tidy.
  unfold first_violated, ceiling_order, violated in Hc. cbn [find flag_name] in Hc.
  destruct (truthy (field limits "within_hourly_limit")); cbn [negb] in Hc |- *.
  2: { injection Hc as <-. tidy. reflexivity. }
  destruct (truthy (field limits "within_daily_token_limit")); cbn [negb] in Hc |- *.
  2: { injection Hc as <-. tidy. reflexivity. }
  destruct (truthy (field limits "within_daily_cost_limit")); cbn [negb] in Hc |- *.
  2: { injection Hc as <-. tidy. reflexivity. }
  discriminate Hc.
Qed.

(** No stage before the handler adds an event of a kind that none of the
    identity provider's, the profile table's and the limits store's calls is
    of. *)
Ltac stage_silent :=
  unfold authenticateUser, verifyToken, getUserProfile, validateModel,
    validateRequest, checkUserLimits, svc_checkUserLimits, estimateTokenUsage,
    read_error;
  solve [eam0].

(** The stages of the route before the quota guard. *)
Lemma entry_stages_silent (E : env) (req : request) :
  emits_at_most billable 0
    (run_stages [authenticateUser E; validateModel;
                 validateRequest generateContentSchema] req).
Proof.
  cbn [run_stages].
  repeat (apply (eam_bind _ 0 0);
          [ stage_silent | intros [? | ?]; [| apply eam_ret ] ]).
  apply eam_ret.
Qed.

Lemma route_after_entry (E : env) (req : request) (w : world) :
  generateContent_route E req w =
  (r <- run_stages [authenticateUser E; validateModel;
                    validateRequest generateContentSchema] req ;;
   match r with
   | Next req' => guarded_pipeline E req'
   | Sent res => ret res
   end) w.
Proof.
  unfold generateContent_route, guarded_pipeline. cbn [run_chain run_stages].
  unfold bind, ret.
  destruct (authenticateUser E req w) as [[[req1 | res1] | e1] w1]; try reflexivity.
  destruct (validateModel req1 w1) as [[[req2 | res2] | e2] w2]; try reflexivity.
  destruct (validateRequest generateContentSchema req2 w2)
    as [[[req3 | res3] | e3] w3]; reflexivity.
Qed.

(** C1.  For an authenticated request whose snapshot violates a ceiling, the
    guard answers for the first violated ceiling in the order hourly
    requests, daily tokens, daily cost: status 429, the observed counter, and
    a reset time one hour (hourly) or 24 hours (daily) after the clock
    reading, hence strictly later; the route ends there, with no call to the
    upstream API and no usage record, from the guard on and in the whole
    route of a request that reached the guard. *)
Theorem quota_guard_rejects (E : env) (req : request) (w w1 : world)
  (limits : value) (c : ceiling) :
  truthy (user req) = true ->
  svc_checkUserLimits E (field (user req) "id") w = (Ok limits, w1) ->
  first_violated limits = Some c ->
  let now := clock E (ticks w1) in
  let res := quota_response limits c now in
  let w2 := tick w1 [EvLog Info "Checking user limits"; EvLog Warn (limit_warning c)] in
  checkUserLimits E req w = (Ok (Sent res), w2) /\
  guarded_pipeline E req w = (Ok res, w2) /\
  status res = VNum (num_of_Z 429) /\
  details_of res =
    VObj [ (counter_name c, observed limits c);
           ("reset_time", VStr (toISOString (now + reset_delay c))) ] /\
  (now < now + reset_delay c)%Z /\
  (exists events, trace w2 = trace w ++ events /\ existsb billable events = false) /\
  (forall (req0 : request) (w0 : world),
     run_stages [authenticateUser E; validateModel;
                 validateRequest generateContentSchema] req0 w0 =
       (Ok (Next req), w) ->
     generateContent_route E req0 w0 = (Ok res, w2) /\
     exists events, trace w2 = trace w0 ++ events /\ existsb billable events = false).
Proof.
  intros Hu Hq Hc now res w2.
  pose proof (checkUserLimits_violation E req w w1 limits c Hu Hq Hc) as Hguard.
  pose proof (guarded_pipeline_sent _ _ _ _ _ Hguard) as Hpipe.
  destruct (svc_checkUserLimits_ok _ _ _ _ _ Hq) as [Ht Hw1].
  assert (Hevents : exists events,
            trace w2 = trace w ++ events /\ existsb billable events = false).
  { exists [limits_call (field (user req) "id"); EvLog Info "Checking user limits";
            EvLog Warn (limit_warning c)].
    split; [| destruct c; reflexivity].
    subst w2 w1. unfold tick, logged. cbn [trace]. rewrite <- app_assoc. reflexivity. }
  split; [exact Hguard |].
  split; [exact Hpipe |].
  split; [reflexivity |].
  split. { destruct c; reflexivity. }
  split. { destruct c; cbn [reset_delay]; lia. }
  split; [exact Hevents |].
  intros req0 w0 Hentry. split.
  - rewrite route_after_entry. unfold bind at 1. rewrite Hentry. exact Hpipe.
  - destruct (entry_stages_silent E req0 w0) as (evs0 & Ht0 & Hn0).
    rewrite Hentry in Ht0. cbn [snd] in Ht0.
    destruct Hevents as (events & Ht2 & Hn2).
    exists (evs0 ++ events). split.
    + rewrite Ht2, Ht0, app_assoc. reflexivity.
    + rewrite existsb_app, (count_0 _ _ Hn0), Hn2. reflexivity.
Qed.

(** C2.  When the snapshot query fails, the guard logs the failure and lets
    the request proceed to the next stage. *)
Theorem checkUserLimits_fail_open (E : env) (req : request) (w w1 : world) (e : value) :
  truthy (user req) = true ->
  svc_checkUserLimits E (field (user req) "id") w = (Throw e, w1) ->
  let w2 := logged w1 [EvLog Err "Error checking user limits"] in
  checkUserLimits E req w = (Ok (Next req), w2) /\
  guarded_pipeline E req w = after_quota_guard E req w2.
Proof.
  intros Hu Hq w2.
  assert (Hguard : checkUserLimits E req w = (Ok (Next req), w2)).
  { pose proof (svc_checkUserLimits_throws _ _ _ _ _ Hq) as He.
    unfold checkUserLimits. rewrite Hu. cbn [negb]. run.
    rewrite (get_prop_truthy _ "id" Hu), Hq.
    destruct (get_prop_opt_ok (user req) "id") as [x ->].
    rewrite !(get_prop_readable e _ He). reflexivity. }
  split; [exact Hguard | exact (guarded_pipeline_next _ _ _ _ _ Hguard)].
Qed.

(** C10.  When the limits call succeeds with an empty result set, the
    snapshot is the default one, all three of whose flags are false, and the
    guard rejects the request with 429 for the hourly ceiling. *)
Theorem empty_snapshot_rejected (E : env) (req : request) (w : world) (r : value) :
  truthy (user req) = true ->
  store_rpc E "check_user_limits" (limits_args req) = Resolves r ->
  field r "data" = VArr [] ->
  truthy (field r "error") = false ->
  let w1 := logged w [limits_call (field (user req) "id")] in
  let res := quota_response default_limits HourlyRequests (clock E (ticks w)) in
  let w2 := tick w1 [EvLog Info "Checking user limits";
                     EvLog Warn "User exceeded hourly request limit"] in
  svc_checkUserLimits E (field (user req) "id") w = (Ok default_limits, w1) /\
  (forall c, violated default_limits c = true) /\
  checkUserLimits E req w = (Ok (Sent res), w2) /\
  guarded_pipeline E req w = (Ok res, w2) /\
  status res = VNum (num_of_Z 429).
Proof.
  intros Hu Hs Hd He w1 res w2.
  pose proof (svc_checkUserLimits_empty E _ r w Hs Hd He) as Hq.
  pose proof (checkUserLimits_violation E req w w1 default_limits HourlyRequests
                Hu Hq eq_refl) as Hguard.
  split; [exact Hq |].
  split. { intros c; destruct c; reflexivity. }
  split; [exact Hguard |].
  split; [exact (guarded_pipeline_sent _ _ _ _ _ Hguard) | reflexivity].
Qed.

(** ** Usage Recorder *)

Section Agreement.
Context {A B : Type}.

Lemma sim_ret (a : A) : sim (ret a) (ret a).
Proof. intros w1 w2 H. split; [reflexivity | exact H]. Qed.

Lemma sim_throw (e : value) : sim (@throw A e) (throw e).
Proof. intros w1 w2 H. split; [reflexivity | exact H]. Qed.

Lemma sim_lift (r : result A) : sim (lift r) (lift r).
Proof. intros w1 w2 H. split; [reflexivity | exact H]. Qed.

Lemma sim_bind (m1 m2 : M A) (k1 k2 : A -> M B) :
  sim m1 m2 -> (forall a, sim (k1 a) (k2 a)) -> sim (bind m1 k1) (bind m2 k2).
Proof.
  intros Hm Hk w1 w2 H. unfold bind.
  destruct (Hm w1 w2 H) as [Hr Ht].
  destruct (m1 w1) as [[a1 | e1] w1'], (m2 w2) as [[a2 | e2] w2'];
    cbn [fst snd] in Hr, Ht; try discriminate Hr.
  - injection Hr as <-. apply Hk. exact Ht.
  - injection Hr as <-. split; [reflexivity | exact Ht].
Qed.

Lemma sim_try_catch (m1 m2 : M A) (h1 h2 : value -> M A) :
  sim m1 m2 -> (forall e, sim (h1 e) (h2 e)) ->
  sim (try_catch m1 h1) (try_catch m2 h2).
Proof.
  intros Hm Hh w1 w2 H. unfold try_catch.
  destruct (Hm w1 w2 H) as [Hr Ht].
  destruct (m1 w1) as [[a1 | e1] w1'], (m2 w2) as [[a2 | e2] w2'];
    cbn [fst snd] in Hr, Ht; try discriminate Hr.
  - injection Hr as <-. split; [reflexivity | exact Ht].
  - injection Hr as <-. apply Hh. exact Ht.
Qed.

End Agreement.

Lemma sim_emit (e1 e2 : event) : sim (emit e1) (emit e2).
Proof. intros w1 w2 H. split; [reflexivity | exact H]. Qed.

Lemma sim_log (lvl : level) (msg : string) : sim (log lvl msg) (log lvl msg).
Proof. apply sim_emit. Qed.

Lemma sim_await (ev : event) (c : call) : sim (await ev c) (await ev c).
Proof.
  unfold await. apply sim_bind; [apply sim_emit |].
  intros _. destruct c; [apply sim_ret | apply sim_throw].
Qed.

Lemma sim_Date_now (E1 E2 : env) :
  clock E1 = clock E2 -> sim (Date_now E1) (Date_now E2).
Proof.
  intros Hc w1 w2 H. unfold Date_now. cbn [fst snd ticks].
  rewrite Hc, H. split; reflexivity.
Qed.

Lemma sim_detach (t1 t2 : M unit) (h1 h2 : value -> M unit) :
  quiet (try_catch t1 h1) -> quiet (try_catch t2 h2) ->
  sim (detach t1 h1) (detach t2 h2).
Proof.
  intros H1 H2 w1 w2 H. unfold detach. cbn [fst snd].
  split; [reflexivity |]. rewrite H1, H2. exact H.
Qed.

Section Quiet.
Context {A B : Type}.

Lemma quiet_ret (a : A) : quiet (ret a).
Proof. intros w. reflexivity. Qed.

Lemma quiet_throw (e : value) : quiet (@throw A e).
Proof. intros w. reflexivity. Qed.

Lemma quiet_lift (r : result A) : quiet (lift r).
Proof. intros w. reflexivity. Qed.

Lemma quiet_bind (m : M A) (k : A -> M B) :
  quiet m -> (forall a, quiet (k a)) -> quiet (bind m k).
Proof.
  intros Hm Hk w. unfold bind. specialize (Hm w).
  destruct (m w) as [[a | e] w']; cbn [snd] in Hm |- *.
  - rewrite Hk. exact Hm.
  - exact Hm.
Qed.

Lemma quiet_try_catch (m : M A) (h : value -> M A) :
  quiet m -> (forall e, quiet (h e)) -> quiet (try_catch m h).
Proof.
  intros Hm Hh w. unfold try_catch. specialize (Hm w).
  destruct (m w) as [[a | e] w']; cbn [snd] in Hm |- *.
  - exact Hm.
  - rewrite Hh. exact Hm.
Qed.

End Quiet.

Lemma quiet_emit (e : event) : quiet (emit e).
Proof. intros w. reflexivity. Qed.

Lemma quiet_log (lvl : level) (msg : string) : quiet (log lvl msg).
Proof. intros w. reflexivity. Qed.

Lemma quiet_await (ev : event) (c : call) : quiet (await ev c).
Proof.
  unfold await. apply quiet_bind; [apply quiet_emit |].
  intros _. destruct c; [apply quiet_ret | apply quiet_throw].
Qed.

Ltac quiet_steps :=
  repeat match goal with
    | |- quiet (ret _) => apply quiet_ret
    | |- quiet (throw _) => apply quiet_throw
    | |- quiet (lift _) => apply quiet_lift
    | |- quiet (log _ _) => apply quiet_log
    | |- quiet (emit _) => apply quiet_emit
    | |- quiet (await _ _) => apply quiet_await
    | |- quiet (bind _ _) => apply quiet_bind; [| intros ? ]
    | |- quiet (try_catch _ _) => apply quiet_try_catch; [| intros ? ]
    | |- quiet (let _ := _ in _) => cbv zeta
    | |- quiet (match ?c with _ => _ end) => destruct c
    end.

Lemma quiet_recordUsage (E : env) (userId tokenUsage : value)
  (modelName requestType : string) (cost : number) (h : value -> M unit) :
  (forall e, quiet (h e)) ->
  quiet (try_catch (recordUsage E userId tokenUsage modelName requestType cost) h).
Proof.
  intros Hh. unfold recordUsage, svc_recordUsage.
  apply quiet_try_catch; [| exact Hh]. quiet_steps.
Qed.

Ltac sim_steps :=
  repeat match goal with
    | |- sim (ret _) (ret _) => apply sim_ret
    | |- sim (throw _) (throw _) => apply sim_throw
    | |- sim (lift _) (lift _) => apply sim_lift
    | |- sim (log _ _) (log _ _) => apply sim_log
    | |- sim (emit _) (emit _) => apply sim_emit
    | |- sim (await _ _) (await _ _) => apply sim_await
    | |- sim (Date_now _) (Date_now _) => apply sim_Date_now; reflexivity
    | |- sim (detach _ _) (detach _ _) =>
        apply sim_detach; apply quiet_recordUsage; intros ?; quiet_steps
    | |- sim (bind _ _) (bind _ _) => apply sim_bind; [| intros ? ]
    | |- sim (try_catch _ _) (try_catch _ _) => apply sim_try_catch; [| intros ? ]
    | |- sim (let _ := _ in _) _ => cbv zeta
    | |- sim (match ?c with _ => _ end) (match ?c with _ => _ end) => destruct c
    end.

Ltac same_collaborators :=
  unfold with_usage_store;
  cbn [auth_getUser store_rpc store_select store_insert axios_post clock apiKey
       String.eqb Ascii.eqb Bool.eqb].

Lemma sim_extractTokenUsage (response : value) :
  sim (extractTokenUsage response) (extractTokenUsage response).
Proof. unfold extractTokenUsage. sim_steps. Qed.

Lemma sim_generateContent (E : env) (s1 s2 : value -> call) (modelName : string)
  (requestBody userId : value) (requestType : string) :
  sim (generateContent (with_usage_store E s1) modelName requestBody userId requestType)
      (generateContent (with_usage_store E s2) modelName requestBody userId requestType).
Proof.
  unfold generateContent, upstream_error, generateContent_url. same_collaborators.
  sim_steps. apply sim_extractTokenUsage.
Qed.

Lemma sim_handler (E : env) (s1 s2 : value -> call) (req : request) :
  sim (generateContent_handler (with_usage_store E s1) req)
      (generateContent_handler (with_usage_store E s2) req).
Proof.
  unfold generateContent_handler. sim_steps. apply sim_generateContent.
Qed.

Lemma sim_authenticateUser (E : env) (s1 s2 : value -> call) (req : request) :
  sim (authenticateUser (with_usage_store E s1) req)
      (authenticateUser (with_usage_store E s2) req).
Proof.
  unfold authenticateUser, verifyToken, getUserProfile, read_error.
  same_collaborators. sim_steps.
Qed.

Lemma sim_checkUserLimits (E : env) (s1 s2 : value -> call) (req : request) :
  sim (checkUserLimits (with_usage_store E s1) req)
      (checkUserLimits (with_usage_store E s2) req).
Proof.
  unfold checkUserLimits, svc_checkUserLimits, read_error.
  same_collaborators. sim_steps.
Qed.

Lemma sim_estimateTokenUsage (req : request) :
  sim (estimateTokenUsage req) (estimateTokenUsage req).
Proof. unfold estimateTokenUsage. sim_steps. Qed.

Lemma sim_validateModel (req : request) : sim (validateModel req) (validateModel req).
Proof. unfold validateModel. sim_steps. Qed.

Lemma sim_validateRequest (schema : value -> option (string * value)) (req : request) :
  sim (validateRequest schema req) (validateRequest schema req).
Proof. unfold validateRequest. sim_steps. Qed.

Lemma sim_route (E : env) (s1 s2 : value -> call) (req : request) :
  sim (generateContent_route (with_usage_store E s1) req)
      (generateContent_route (with_usage_store E s2) req).
Proof.
  unfold generateContent_route. cbn [run_chain].
  repeat first
    [ apply sim_ret
    | apply sim_handler
    | apply sim_bind;
      [ first [ apply sim_authenticateUser | apply sim_validateModel
              | apply sim_validateRequest | apply sim_checkUserLimits
              | apply sim_estimateTokenUsage ]
      | intros [? | ?] ] ].
Qed.

Lemma writes_recordUsage (E : env) (userId tokenUsage : value)
  (modelName requestType : string) (cost : number) :
  emits_at_most is_usage_write 1
    (recordUsage E userId tokenUsage modelName requestType cost).
Proof. unfold recordUsage, svc_recordUsage. eam1. Qed.

Lemma writes_generateContent (E : env) (modelName : string)
  (requestBody userId : value) (requestType : string) :
  emits_at_most is_usage_write 1
    (generateContent E modelName requestBody userId requestType).
Proof.
  unfold generateContent, upstream_error, extractTokenUsage, recordUsage,
    svc_recordUsage.
  eam1.
Qed.

Lemma writes_handler (E : env) (req : request) :
  emits_at_most is_usage_write 1 (generateContent_handler E req).
Proof.
  unfold generateContent_handler.
  apply (eam_try_catch _ 1 0); [| intros ?; solve [eam0] ].
  cbv zeta.
  apply (eam_bind _ 0 1); [solve [eam0] | intros ? ].
  apply (eam_bind _ 0 1); [solve [eam0] | intros ? ].
  apply (eam_bind _ 1 0); [apply writes_generateContent | intros ?; solve [eam0] ].
Qed.

Lemma writes_route (E : env) (req : request) :
  emits_at_most is_usage_write 1 (generateContent_route E req).
Proof.
  unfold generateContent_route. cbn [run_chain].
  repeat (apply (eam_bind _ 0 1);
          [ stage_silent
          | intros [? | ?]; [| apply eam_weaken; apply eam_ret ] ]).
  apply writes_handler.
Qed.

Lemma logged_nil (w : world) : logged w [] = w.
Proof. destruct w. unfold logged. cbn [trace ticks]. rewrite app_nil_r. reflexivity. Qed.

Lemma extract_body_shape (response u : value) :
  extract_body response = Ok u -> exists p c t, u = usage_value p c t.
Proof.
  unfold extract_body.
  repeat match goal with
    | |- context [rbind ?r _] => destruct r eqn:?; cbn [rbind]; [| discriminate]
    | |- context [if ?c then _ else _] => destruct c
    end; intros [= <-]; eauto.
Qed.

Lemma extractTokenUsage_ok (response u : value) (w : world) :
  extract_body response = Ok u -> extractTokenUsage response w = (Ok u, w).
Proof. intros H. unfold extractTokenUsage. run. rewrite H. reflexivity. Qed.

(** The extractor returns a usage; it logs at most its own error line. *)
Lemma extractTokenUsage_cases (response : value) (w : world) :
  exists p c t logs,
    extractTokenUsage response w = (Ok (usage_value p c t), logged w logs) /\
    (logs = [] \/ logs = [EvLog Err "Error extracting token usage"]).
Proof.
  pose proof (extract_body_TypeError response) as HT.
  destruct (extract_body response) as [u | e] eqn:Hb.
  - destruct (extract_body_shape _ _ Hb) as (p & c & t & ->).
    exists p, c, t, []. rewrite logged_nil. split; [| left; reflexivity].
    apply extractTokenUsage_ok. exact Hb.
  - destruct HT as [m ->]. eexists _, _, _, _. split; [| right; reflexivity].
    unfold extractTokenUsage. run. rewrite Hb. reflexivity.
Qed.

(** The recorder makes one write and never raises; the line 'Failed to
    record usage in database' is logged exactly when the write fails. *)
Lemma recordUsage_cases (E : env) (userId tokenUsage : value)
  (modelName requestType : string) (cost : number) (w : world) :
  truthy tokenUsage = true ->
  let row := usage_row userId (field tokenUsage "totalTokenCount") cost
                       modelName requestType in
  exists logs,
    only_logs logs /\
    recordUsage E userId tokenUsage modelName requestType cost w =
    (Ok tt, logged w (EvInsert "api_usage" row :: logs)) /\
    existsb is_failure_log logs = write_fails (store_insert E "api_usage" row).
Proof.
  intros Ht row. unfold recordUsage, svc_recordUsage, only_logs. run.
  rewrite (get_prop_truthy _ _ Ht). tidy. fold row.
  destruct (store_insert E "api_usage" row) as [r | err]; tidy.
  2: { destruct err; tidy;
         (eexists; split; [| split; reflexivity]; repeat constructor; eauto). }
  unfold write_fails.
  destruct (get_prop_defined r "data") as [Hd | [[m Hd] Hn]]; rewrite Hd; tidy.
  2: { eexists. split; [| split; [reflexivity |]]; [repeat constructor; eauto |].
       destruct Hn as [-> | ->]; reflexivity. }
  destruct (get_prop_defined r "error") as [He | [[m He] Hn]]; rewrite He; tidy.
  2: { eexists. split; [| split; [reflexivity |]]; [repeat constructor; eauto |].
       destruct Hn as [-> | ->]; reflexivity. }
  assert (Hr : nullish r = false).
  { destruct r; try reflexivity; discriminate Hd. }
  rewrite Hr. cbn [orb].
  destruct (truthy (field r "error")); tidy;
    (eexists; split; [| split; reflexivity]; repeat constructor; eauto).
Qed.

(** A completed upstream call for a user with an id: the handler makes
    exactly one usage write, and logs its failure exactly when it fails. *)
Lemma generateContent_handler_write (E : env) (req : request) (w : world) (r : value) :
  truthy (field (user req) "id") = true ->
  axios_post E (generateContent_url E (params_model req)) (req_body req) = Resolves r ->
  nullish r = false ->
  exists t cost events,
    let row := usage_row (field (user req) "id") t cost (params_model req) "generate" in
    trace (snd (generateContent_handler E req w)) = trace w ++ events /\
    usage_writes events = 1%nat /\
    In (EvInsert "api_usage" row) events /\
    existsb is_failure_log events = write_fails (store_insert E "api_usage" row).
Proof.
  intros Hu Hp Hr.
  set (w1 := {| trace := trace w ++
                   [ EvLog Info "Generate content request";
                     EvLog Info "Making Gemini API request";
                     EvHttpPost (generateContent_url E (params_model req)) (req_body req) ];
                ticks := S (S (ticks w)) |}).
  destruct (extractTokenUsage_cases r w1) as (p & c & t & xlogs & Hx & Hxl).
  destruct (calculateCost_returns p c (params_model req)) as [cost Hc].
  destruct (recordUsage_cases E (field (user req) "id") (usage_value p c t)
              (params_model req) "generate" cost
              (logged (logged w1 xlogs) [EvLog Info "Gemini API request completed"])
              eq_refl) as (rlogs & Hl & Hrec & Hfail).
  cbv zeta in Hrec, Hfail.
  change (field (usage_value p c t) "totalTokenCount") with t in Hrec, Hfail.
  exists t, cost.
  assert (Hlogs : usage_writes rlogs = 0%nat).
  { apply count_only_logs; [reflexivity | exact Hl]. }
  destruct (get_prop_opt_ok (user req) "id") as [uid Huid].
  unfold generateContent_handler, generateContent, upstream_error.
  cbv beta iota zeta delta [try_catch bind await lift log emit throw ret
                            Date_now detach fst snd].
  rewrite (field_truthy_defined _ _ Hu), Huid. cbn [trace ticks]. rewrite Hp.
  cbn [trace ticks]. rewrite <- !app_assoc. cbn [app]. fold w1. rewrite Hx.
  cbn [usage_value get_prop lookup String.eqb Ascii.eqb Bool.eqb].
  rewrite Hc, !(get_prop_readable r _ Hr), Hu.
  change (VObj [("promptTokenCount", p); ("candidatesTokenCount", c);
                ("totalTokenCount", t)]) with (usage_value p c t).
  change {| trace := trace (logged w1 xlogs) ++ [EvLog Info "Gemini API request completed"];
            ticks := ticks (logged w1 xlogs) |}
    with (logged (logged w1 xlogs) [EvLog Info "Gemini API request completed"]).
  rewrite Hrec. cbn [snd logged trace ticks w1].
  rewrite <- !app_assoc. cbn [app].
  assert (Hsplit : forall tail : list event,
    (tail = [] \/
     tail = [EvLog Err "Gemini API request failed"; EvLog Err "Generate content error"]) ->
    let events :=
      EvLog Info "Generate content request" :: EvLog Info "Making Gemini API request"
      :: EvHttpPost (generateContent_url E (params_model req)) (req_body req)
      :: xlogs ++ EvLog Info "Gemini API request completed"
      :: EvInsert "api_usage"
           (usage_row (field (user req) "id") t cost (params_model req) "generate")
      :: rlogs ++ tail in
    usage_writes events = 1%nat /\
    In (EvInsert "api_usage"
          (usage_row (field (user req) "id") t cost (params_model req) "generate"))
       events /\
    existsb is_failure_log events =
      write_fails (store_insert E "api_usage"
                     (usage_row (field (user req) "id") t cost (params_model req)
                                "generate"))).
  { intros tail Htail events. subst events. split; [| split].
    - unfold usage_writes.
      change (count is_usage_write (?a :: ?b :: ?c :: ?l))
        with (count is_usage_write l).
      rewrite count_app.
      change (count is_usage_write (?a :: ?b :: ?l))
        with (S (count is_usage_write l)).
      rewrite count_app. fold (usage_writes rlogs). rewrite Hlogs.
      destruct Hxl as [-> | ->], Htail as [-> | ->]; reflexivity.
    - do 3 right. apply in_or_app. right. right. left. reflexivity.
    - cbn [existsb is_failure_log orb]. rewrite existsb_app.
      cbn [existsb is_failure_log orb]. rewrite existsb_app, Hfail.
      destruct Hxl as [-> | ->], Htail as [-> | ->];
        cbn [existsb is_failure_log orb String.eqb Ascii.eqb Bool.eqb];
        rewrite ?orb_false_r; reflexivity. }
  destruct (get_prop_defined (field r "data") "usageMetadata") as [Hm | [[m Hm] _]];
    rewrite Hm; cbn [trace ticks snd get_prop lookup String.eqb Ascii.eqb Bool.eqb
                     TypeError mkError get_prop_opt truthy inherited is_inherited_name
                     existsb object_prototype_names orb];
    rewrite <- ?app_assoc; cbn [app].
  - eexists. split; [reflexivity |].
    pose proof (Hsplit [] (or_introl eq_refl)) as H0. cbv zeta in H0.
    rewrite app_nil_r in H0. exact H0.
  - unfold logged, w1. cbn [trace]. rewrite <- !app_assoc. cbn [app].
    eexists. split; [reflexivity |]. apply Hsplit. right. reflexivity.
Qed.

(** C8.  Two runs of the route, and of its handler, that differ only in how
    the usage store answers the write give the client the same outcome
    (status, headers and body); whatever the store answers, at most one
    write of a usage record is attempted; and once the upstream call of a
    user with an id has completed, the handler attempts the write exactly
    once and logs 'Failed to record usage in database' exactly when the
    store makes it fail. *)
Theorem usage_write_failure_invisible (E : env) (s1 s2 : value -> call)
  (req : request) (w : world) :
  fst (generateContent_handler (with_usage_store E s1) req w) =
  fst (generateContent_handler (with_usage_store E s2) req w) /\
  fst (generateContent_route (with_usage_store E s1) req w) =
  fst (generateContent_route (with_usage_store E s2) req w) /\
  (exists events,
     trace (snd (generateContent_route (with_usage_store E s1) req w)) =
     trace w ++ events /\ (usage_writes events <= 1)%nat) /\
  (forall r : value,
     truthy (field (user req) "id") = true ->
     axios_post E (generateContent_url E (params_model req)) (req_body req) = Resolves r ->
     nullish r = false ->
     exists row events,
       trace (snd (generateContent_handler (with_usage_store E s1) req w)) =
       trace w ++ events /\
       usage_writes events = 1%nat /\
       In (EvInsert "api_usage" row) events /\
       existsb is_failure_log events = write_fails (s1 row)).
Proof.
  split; [| split; [| split]].
  - apply (sim_handler E s1 s2 req w w eq_refl).
  - apply (sim_route E s1 s2 req w w eq_refl).
  - apply writes_route.
  - intros r Hu Hp Hr.
    destruct (generateContent_handler_write (with_usage_store E s1) req w r Hu Hp Hr)
      as (t & cost & events & Ht & Hn & Hin & Hf).
    eexists _, events. split; [exact Ht |]. split; [exact Hn |].
    split; [exact Hin | exact Hf].
Qed.

(** ** Auth Gate *)

Lemma verification_attempts_app (l1 l2 : list event) :
  verification_attempts (l1 ++ l2) = verification_attempts l1 ++ verification_attempts l2.
Proof. apply filter_app. Qed.

Lemma nullish_get_prop (v x : value) (k : string) :
  get_prop v k = Ok x -> nullish v = false.
Proof. destruct v; first [reflexivity | discriminate]. Qed.

Lemma rejects_nullish_verdict (c1 c2 : call) :
  rejects_nullish c1 = true -> verdict c1 c2 = VNull.
Proof. destruct c1; [discriminate | reflexivity]. Qed.

(** One attempt as verifyToken reads it: the answer is read in the order
    [data], [data.user], [error]. *)
Lemma attempt_cases (c : call) :
  match c with
  | Rejects _ => True
  | Resolves r =>
      (exists m, (get_prop r "data" = Throw (TypeError m) \/
                  get_prop r "data" = Ok (field r "data") /\
                  get_prop (field r "data") "user" = Throw (TypeError m)) /\
                 returns_error c = false /\ attempt_user c = VNull) \/
      (get_prop r "data" = Ok (field r "data") /\
       get_prop (field r "data") "user" = Ok (field (field r "data") "user") /\
       get_prop r "error" = Ok (field r "error") /\
       returns_error c = truthy (field r "error") /\
       attempt_user c = if truthy (field r "error") then VNull
                        else field (field r "data") "user")
  end.
Proof.
  destruct c as [r | err]; [| exact I].
  unfold returns_error, attempt_user.
  destruct (get_prop_defined r "data") as [Hd | [[m Hd] Hn]].
  2: { left. exists m. split; [left; exact Hd |].
       destruct Hn as [-> | ->]; split; reflexivity. }
  rewrite (nullish_get_prop _ _ _ Hd). cbn [negb andb orb].
  destruct (get_prop_defined (field r "data") "user") as [Hu | [[m Hu] Hn]].
  2: { left. exists m. split; [right; split; assumption |].
       destruct Hn as [-> | ->]; split; reflexivity. }
  rewrite (nullish_get_prop _ _ _ Hu). cbn [negb andb orb].
  right. repeat split; try assumption.
  apply get_prop_readable. exact (nullish_get_prop _ _ _ Hd).
Qed.

(** verifyToken calls the anon client once and, exactly when that call
    returned an error, the service-role client once; it makes no profile
    lookup.  It rejects, with a TypeError, exactly when the first call
    rejects with [null] or [undefined]; otherwise its result holds the user
    the identity provider vouches for, or an error or no user. *)
Lemma verifyToken_run (E : env) (token : string) (w : world) (c1 c2 : call) :
  auth_getUser E false token = c1 ->
  auth_getUser E true token = c2 ->
  exists events,
    snd (verifyToken E token w) = logged w events /\
    verification_attempts events =
      (if returns_error c1 then [EvGetUser false token; EvGetUser true token]
       else [EvGetUser false token]) /\
    existsb is_profile_lookup events = false /\
    match fst (verifyToken E token w) with
    | Throw e => rejects_nullish c1 = true /\ exists m, e = TypeError m
    | Ok r =>
        rejects_nullish c1 = false /\
        exists u e,
          r = token_result u e /\ (u = VNull \/ e = VNull) /\
          truthy e || negb (truthy u) = negb (truthy (verdict c1 c2)) /\
          (truthy (verdict c1 c2) = true -> u = verdict c1 c2)
    end.
Proof.
  intros H1 H2. unfold verifyToken, verdict. run. rewrite H1.
  pose proof (attempt_cases c1) as A1. pose proof (attempt_cases c2) as A2.
  assert (Hfail : forall e : value,
            truthy e || negb (truthy VNull) = negb (truthy VNull)).
  { intros e. apply orb_true_r. }
  destruct c1 as [r | err]; tidy.
  2: { destruct err; tidy;
         (eexists; split; [reflexivity |]; split; [reflexivity |];
          split; [reflexivity |]; split; [reflexivity |];
          first [ eexists; reflexivity
                | eexists _, _; split; [reflexivity |]; split; [left; reflexivity |];
                  split; [apply Hfail | discriminate] ]). }
  destruct A1 as [(m & Hread & -> & ->) | (Hd & Hu & He & -> & ->)].
  { destruct Hread as [Hd | [Hd Hu]]; rewrite Hd; tidy; rewrite ?Hu; tidy;
      (eexists; split; [reflexivity |]; split; [reflexivity |];
       split; [reflexivity |]; split; [reflexivity |];
       eexists _, _; split; [reflexivity |]; split; [left; reflexivity |];
       split; [apply Hfail | discriminate]). }
  rewrite Hd. tidy. rewrite Hu. tidy. rewrite He. tidy.
  destruct (truthy (field r "error")) eqn:Hte; tidy.
  2: { eexists. split; [reflexivity |]. split; [reflexivity |].
       split; [reflexivity |]. split; [reflexivity |].
       exists (field (field r "data") "user"), VNull.
       split; [reflexivity |]. split; [right; reflexivity |].
       split; [reflexivity | intros _; reflexivity]. }
  rewrite H2. destruct c2 as [r' | err']; tidy.
  2: { destruct err'; tidy;
         (eexists; split; [reflexivity |]; split; [reflexivity |];
          split; [reflexivity |]; split; [reflexivity |];
          eexists _, _; split; [reflexivity |]; split; [left; reflexivity |];
          split; [apply Hfail | discriminate]). }
  destruct A2 as [(m & Hread & _ & ->) | (Hd' & Hu' & He' & _ & ->)].
  { destruct Hread as [Hd' | [Hd' Hu']]; rewrite Hd'; tidy; rewrite ?Hu'; tidy;
      (eexists; split; [reflexivity |]; split; [reflexivity |];
       split; [reflexivity |]; split; [reflexivity |];
       eexists _, _; split; [reflexivity |]; split; [left; reflexivity |];
       split; [apply Hfail | discriminate]). }
  rewrite Hd'. tidy. rewrite Hu'. tidy. rewrite He'. tidy.
  destruct (truthy (field r' "error")) eqn:Hte'; tidy.
  - eexists. split; [reflexivity |]. split; [reflexivity |].
    split; [reflexivity |]. split; [reflexivity |].
    eexists _, _. split; [reflexivity |]. split; [left; reflexivity |].
    split; [rewrite Hte'; reflexivity | discriminate].
  - eexists. split; [reflexivity |]. split; [reflexivity |].
    split; [reflexivity |]. split; [reflexivity |].
    eexists _, _. split; [reflexivity |]. split; [right; reflexivity |].
    split; [reflexivity | intros _; reflexivity].
Qed.

Section Steady.
Context {A B : Type}.

Lemma steady_ret (a : A) : steady (ret a).
Proof. intros w1 w2. reflexivity. Qed.

Lemma steady_throw (e : value) : steady (@throw A e).
Proof. intros w1 w2. reflexivity. Qed.

Lemma steady_lift (r : result A) : steady (lift r).
Proof. intros w1 w2. reflexivity. Qed.

Lemma steady_bind (m : M A) (k : A -> M B) :
  steady m -> (forall a, steady (k a)) -> steady (bind m k).
Proof.
  intros Hm Hk w1 w2. unfold bind. specialize (Hm w1 w2).
  destruct (m w1) as [[a1 | e1] w1'], (m w2) as [[a2 | e2] w2'];
    cbn [fst] in Hm; try discriminate Hm; injection Hm as <-;
    [apply Hk | reflexivity].
Qed.

Lemma steady_try_catch (m : M A) (h : value -> M A) :
  steady m -> (forall e, steady (h e)) -> steady (try_catch m h).
Proof.
  intros Hm Hh w1 w2. unfold try_catch. specialize (Hm w1 w2).
  destruct (m w1) as [[a1 | e1] w1'], (m w2) as [[a2 | e2] w2'];
    cbn [fst] in Hm; try discriminate Hm; injection Hm as <-;
    [reflexivity | apply Hh].
Qed.

End Steady.

Lemma steady_log (lvl : level) (msg : string) : steady (log lvl msg).
Proof. intros w1 w2. reflexivity. Qed.

Lemma steady_await (ev : event) (c : call) : steady (await ev c).
Proof.
  unfold await. apply steady_bind; [intros w1 w2; reflexivity |].
  intros _. destruct c; [apply steady_ret | apply steady_throw].
Qed.

Ltac steady_steps :=
  repeat match goal with
    | |- steady (ret _) => apply steady_ret
    | |- steady (throw _) => apply steady_throw
    | |- steady (lift _) => apply steady_lift
    | |- steady (log _ _) => apply steady_log
    | |- steady (await _ _) => apply steady_await
    | |- steady (bind _ _) => apply steady_bind; [| intros ? ]
    | |- steady (try_catch _ _) => apply steady_try_catch; [| intros ? ]
    | |- steady (let _ := _ in _) => cbv zeta
    | |- steady (match ?c with _ => _ end) => destruct c
    end.

(** What the profile lookup returns or throws does not depend on what was
    logged before it. *)
Lemma steady_getUserProfile (E : env) (userId : value) :
  steady (getUserProfile E userId).
Proof. unfold getUserProfile. steady_steps. Qed.

(** The profile lookup starts with a query of the profile table and makes
    no verification attempt; whatever it throws can be read. *)
Lemma getUserProfile_cases (E : env) (userId : value) (w : world) :
  exists events,
    snd (getUserProfile E userId w) =
      logged w (EvSelect "user_profiles" userId :: events) /\
    verification_attempts events = [] /\
    match fst (getUserProfile E userId w) with
    | Ok _ => True
    | Throw e => nullish e = false
    end.
Proof.
  unfold getUserProfile. run.
  destruct (store_select E "user_profiles" userId) as [r | err]; tidy.
  2: { destruct err; tidy;
         (eexists; split; [reflexivity |]; split; reflexivity). }
  case_prop r "data".
  2: { eexists. split; [reflexivity |]. split; reflexivity. }
  case_prop r "error".
  2: { eexists. split; [reflexivity |]. split; reflexivity. }
  destruct (get_prop_opt_ok (field r "error") "code") as [code ->]. tidy.
  destruct (truthy (field r "error")); cbn [andb]; tidy.
  2: { eexists. split; [reflexivity |]. split; [reflexivity | exact I]. }
  destruct (strict_eq_str code "PGRST116"); tidy.
  2: { eexists. split; [reflexivity |]. split; reflexivity. }
  destruct (store_insert E "user_profiles" (new_profile userId)) as [r' | err']; tidy.
  2: { destruct err'; tidy;
         (eexists; split; [reflexivity |]; split; reflexivity). }
  case_prop r' "data".
  2: { eexists. split; [reflexivity |]. split; reflexivity. }
  case_prop r' "error".
  2: { eexists. split; [reflexivity |]. split; reflexivity. }
  destruct (truthy (field r' "error")); tidy.
  - eexists. split; [reflexivity |]. split; reflexivity.
  - eexists. split; [reflexivity |]. split; [reflexivity | exact I].
Qed.

Lemma logged_logged (w : world) (l1 l2 : list event) :
  logged (logged w l1) l2 = logged w (l1 ++ l2).
Proof. unfold logged. cbn [trace ticks]. rewrite app_assoc. reflexivity. Qed.

Lemma bearer_accepted (h : string) :
  String.prefix "Bearer " h = true ->
  negb (truthy (VStr h)) || negb (String.prefix "Bearer " h) = false.
Proof.
  intros H. rewrite H. destruct h; [discriminate H | reflexivity].
Qed.

Lemma existsb_profile_lookup_app (l1 l2 : list event) :
  existsb is_profile_lookup l1 = false -> existsb is_profile_lookup l2 = false ->
  existsb is_profile_lookup (l1 ++ l2) = false.
Proof. intros H1 H2. rewrite existsb_app, H1, H2. reflexivity. Qed.

Lemma authenticateUser_rejected (E : env) (req : request) (w w1 : world)
  (h m : string) :
  authorization req = Some h ->
  String.prefix "Bearer " h = true ->
  verifyToken E (substring_from 7 h) w = (Throw (TypeError m), w1) ->
  authenticateUser E req w =
  (Ok (Sent auth_service_error),
   logged w1 [EvLog Err "Authentication middleware error"]).
Proof.
  intros Hh Hp Hv. unfold authenticateUser. rewrite Hh, (bearer_accepted _ Hp).
  run. rewrite Hv. reflexivity.
Qed.

Lemma authenticateUser_invalid (E : env) (req : request) (w w1 : world)
  (h : string) (u e : value) :
  authorization req = Some h ->
  String.prefix "Bearer " h = true ->
  verifyToken E (substring_from 7 h) w = (Ok (token_result u e), w1) ->
  truthy e || negb (truthy u) = true ->
  authenticateUser E req w =
  (Ok (Sent invalid_token), logged w1 [EvLog Warn "Token verification failed"]).
Proof.
  intros Hh Hp Hv Ht. unfold authenticateUser. rewrite Hh, (bearer_accepted _ Hp).
  run. rewrite Hv. unfold token_result. tidy.
  cbn [lookup String.eqb Ascii.eqb Bool.eqb]. tidy. rewrite Ht.
  destruct (get_prop_opt_ok e "message") as [x ->]. tidy. reflexivity.
Qed.

Lemma authenticateUser_verified (E : env) (req : request) (w w1 : world)
  (h : string) (u e : value) (found : result value) :
  authorization req = Some h ->
  String.prefix "Bearer " h = true ->
  verifyToken E (substring_from 7 h) w = (Ok (token_result u e), w1) ->
  truthy e || negb (truthy u) = false ->
  fst (getUserProfile E (field u "id") w1) = found ->
  exists events,
    authenticateUser E req w =
      (Ok (admission req u found),
       logged w1 (EvSelect "user_profiles" (field u "id") :: events)) /\
    verification_attempts events = [].
Proof.
  intros Hh Hp Hv Ht Hfound. unfold authenticateUser.
  rewrite Hh, (bearer_accepted _ Hp).
  run. rewrite Hv. unfold token_result. tidy.
  cbn [lookup String.eqb Ascii.eqb Bool.eqb]. tidy. rewrite Ht.
  apply orb_false_iff in Ht. destruct Ht as [_ Hu]. apply negb_false_iff in Hu.
  rewrite (get_prop_truthy u "id" Hu). tidy.
  destruct (getUserProfile_cases E (field u "id") w1) as (evs & Hs & Hn & Hr).
  destruct (getUserProfile E (field u "id") w1) as [[profile | err] w2];
    cbn [fst snd] in Hs, Hr, Hfound; subst w2 found; cbn [admission]; tidy.
  - destruct (get_prop_defined profile "is_active") as [Ha | [[m Ha] Hnull]];
      rewrite Ha; tidy.
    + rewrite (nullish_get_prop _ _ _ Ha).
      destruct (truthy (field profile "is_active")); cbn [negb]; tidy;
        (eexists; split; [reflexivity |];
         rewrite verification_attempts_app, Hn; reflexivity).
    + eexists. split.
      * destruct Hnull as [-> | ->]; reflexivity.
      * rewrite verification_attempts_app, Hn. reflexivity.
  - rewrite !(get_prop_readable err _ Hr). tidy.
    eexists. split; [reflexivity |].
    rewrite verification_attempts_app, Hn. reflexivity.
Qed.

(** The auth gate on a request with a Bearer credential. *)
Lemma authenticateUser_run (E : env) (req : request) (w : world) (h : string) :
  authorization req = Some h ->
  String.prefix "Bearer " h = true ->
  let token := substring_from 7 h in
  let first := auth_getUser E false token in
  let u := verified_user E token in
  exists out events,
    authenticateUser E req w = (Ok out, logged w events) /\
    verification_attempts events =
      (if returns_error first then [EvGetUser false token; EvGetUser true token]
       else [EvGetUser false token]) /\
    (rejects_nullish first = true ->
     out = Sent auth_service_error /\ existsb is_profile_lookup events = false) /\
    (rejects_nullish first = false -> truthy u = false ->
     out = Sent invalid_token /\ existsb is_profile_lookup events = false) /\
    (truthy u = true ->
     In (EvSelect "user_profiles" (field u "id")) events /\
     out = admission req u (fst (getUserProfile E (field u "id") w))).
Proof.
  intros Hh Hp token first u.
  destruct (verifyToken_run E token w _ _ eq_refl eq_refl)
    as (vev & Hs & Hatt & Hnl & Hres).
  change (auth_getUser E false token) with first in Hatt, Hres.
  change (verdict first (auth_getUser E true token)) with u in Hres.
  destruct (verifyToken E token w) as [[r | e] w1] eqn:Hv;
    cbn [fst snd] in Hs, Hres; subst w1.
  - destruct Hres as (Hrn & u' & e & -> & _ & Hdec & Hsame).
    destruct (truthy u) eqn:Htu; cbn [negb] in Hdec.
    + rewrite (Hsame eq_refl) in Hv, Hdec. clear Hsame u'.
      destruct (authenticateUser_verified E req w _ h u e _ Hh Hp Hv Hdec
                  (steady_getUserProfile E (field u "id") (logged w vev) w))
        as (pev & Hrun & Hpn).
      rewrite Hrun, logged_logged. eexists _, _. split; [reflexivity |].
      split.
      { rewrite verification_attempts_app, Hatt.
        change (verification_attempts (?a :: ?l)) with (verification_attempts l).
        rewrite Hpn. apply app_nil_r. }
      split; [rewrite Hrn; discriminate |]. split; [discriminate |].
      intros _. split; [apply in_or_app; right; left; reflexivity | reflexivity].
    + rewrite (authenticateUser_invalid E req w _ h u' e Hh Hp Hv Hdec), logged_logged.
      eexists _, _. split; [reflexivity |]. split.
      { rewrite verification_attempts_app, Hatt. apply app_nil_r. }
      split; [rewrite Hrn; discriminate |]. split; [| discriminate].
      intros _ _. split; [reflexivity |].
      apply existsb_profile_lookup_app; [exact Hnl | reflexivity].
  - destruct Hres as (Hrn & m & ->).
    rewrite (authenticateUser_rejected E req w _ h m Hh Hp Hv), logged_logged.
    eexists _, _. split; [reflexivity |]. split.
    { rewrite verification_attempts_app, Hatt. apply app_nil_r. }
    split.
    { intros _. split; [reflexivity |].
      apply existsb_profile_lookup_app; [exact Hnl | reflexivity]. }
    split; [rewrite Hrn; discriminate |].
    unfold u, verified_user. fold first.
    rewrite (rejects_nullish_verdict _ _ Hrn). discriminate.
Qed.

Lemma admission_5xx (req : request) (u : value) (found : result value)
  (res : response) :
  admission req u found = Sent res -> is_5xx res = true ->
  match found with
  | Throw _ => True
  | Ok profile => nullish profile = true
  end.
Proof.
  unfold admission. destruct found as [profile | e]; [| intros; exact I].
  destruct (nullish profile); [reflexivity |].
  destruct (truthy (field profile "is_active")); intros [= <-]; discriminate.
Qed.

(** A request without a Bearer credential is answered 401 and no
    verification is attempted. *)
Lemma authenticateUser_without_bearer (E : env) (req : request) (w : world) :
  match authorization req with
  | Some h => String.prefix "Bearer " h = false
  | None => True
  end ->
  authenticateUser E req w =
  (Ok (Sent authentication_required),
   logged w [EvLog Warn "Missing or invalid authorization header"]).
Proof.
  intros H. unfold authenticateUser.
  destruct (authorization req) as [h |]; [rewrite H, orb_true_r |]; reflexivity.
Qed.

(** C9, as amended.  For a request with a Bearer credential the auth gate
    calls the identity provider's anon client once and, exactly when that
    call returned an error, the service-role client once, never more.  The
    user is the one the deciding attempt vouches for (the first, or the
    fallback after the first returned an error).  Without such a user, and
    unless the first call rejected with [null] or [undefined], the answer is
    401 'Invalid or expired token' and no profile lookup is made: an error
    the identity provider returns or throws is answered like any failed
    verification.  With such a user the profile lookup is made and decides:
    500 'Authentication service error' when it throws or yields no profile,
    403 for an inactive profile, and otherwise the request is passed on.  A
    5xx answer hence arises only from the profile lookup of a verified user,
    the rejection with [null] or [undefined] apart, which is answered 500
    before any lookup. *)
Theorem auth_gate_attempts (E : env) (req : request) (w : world) (h : string) :
  authorization req = Some h ->
  String.prefix "Bearer " h = true ->
  let token := substring_from 7 h in
  let first := auth_getUser E false token in
  let u := verified_user E token in
  let found := fst (getUserProfile E (field u "id") w) in
  exists out events,
    authenticateUser E req w = (Ok out, logged w events) /\
    verification_attempts events =
      (if returns_error first then [EvGetUser false token; EvGetUser true token]
       else [EvGetUser false token]) /\
    (rejects_nullish first = false -> truthy u = false ->
     out = Sent invalid_token /\ existsb is_profile_lookup events = false) /\
    (truthy u = true ->
     In (EvSelect "user_profiles" (field u "id")) events /\
     out = admission req u found) /\
    (rejects_nullish first = true ->
     out = Sent auth_service_error /\ existsb is_profile_lookup events = false) /\
    (forall res, out = Sent res -> is_5xx res = true ->
       rejects_nullish first = false ->
       truthy u = true /\
       match found with
       | Throw _ => True
       | Ok profile => nullish profile = true
       end).
Proof.
  intros Hh Hp token first u found.
  destruct (authenticateUser_run E req w h Hh Hp)
    as (out & events & Hrun & Hatt & Hnull & Hfail & Hok).
  fold token in Hrun, Hatt, Hnull, Hfail, Hok.
  fold first in Hatt, Hnull, Hfail. fold u in Hfail, Hok. fold found in Hok.
  exists out, events. split; [exact Hrun |]. split; [exact Hatt |].
  split; [exact Hfail |]. split; [exact Hok |]. split; [exact Hnull |].
  intros res Hres H5 Hrn. destruct (truthy u) eqn:Htu.
  - split; [reflexivity |]. destruct (Hok eq_refl) as [_ Hadm].
    rewrite Hres in Hadm. symmetry in Hadm.
    exact (admission_5xx _ _ _ _ Hadm H5).
  - destruct (Hfail Hrn eq_refl) as [Hout _]. rewrite Hres in Hout.
    injection Hout as ->. discriminate H5.
Qed.

(** ** Outcomes of computations *)

Section Outcomes.
Context {A B : Type}.

Lemma ensures_ret (a : A) (Q : A -> Prop) (X : value -> Prop) :
  Q a -> ensures (ret a) Q X.
Proof. intros H w. exact H. Qed.

Lemma ensures_throw (e : value) (Q : A -> Prop) (X : value -> Prop) :
  X e -> ensures (@throw A e) Q X.
Proof. intros H w. exact H. Qed.

Lemma ensures_lift (r : result A) (Q : A -> Prop) (X : value -> Prop) :
  match r with Ok a => Q a | Throw e => X e end -> ensures (lift r) Q X.
Proof. intros H w. exact H. Qed.

Lemma ensures_bind (m : M A) (k : A -> M B) (P : A -> Prop) (Q : B -> Prop)
  (X : value -> Prop) :
  ensures m P X -> (forall a, P a -> ensures (k a) Q X) -> ensures (bind m k) Q X.
Proof.
  intros Hm Hk w. unfold bind. specialize (Hm w).
  destruct (m w) as [[a | e] w']; cbn [fst] in Hm |- *.
  - exact (Hk a Hm w').
  - exact Hm.
Qed.

Lemma ensures_try_catch (m : M A) (h : value -> M A) (Q : A -> Prop)
  (Y X : value -> Prop) :
  ensures m Q Y -> (forall e, Y e -> ensures (h e) Q X) ->
  ensures (try_catch m h) Q X.
Proof.
  intros Hm Hh w. unfold try_catch. specialize (Hm w).
  destruct (m w) as [[a | e] w']; cbn [fst] in Hm |- *.
  - exact Hm.
  - exact (Hh e Hm w').
Qed.

Lemma ensures_weaken (m : M A) (Q Q' : A -> Prop) (X X' : value -> Prop) :
  ensures m Q X -> (forall a, Q a -> Q' a) -> (forall e, X e -> X' e) ->
  ensures m Q' X'.
Proof.
  intros Hm HQ HX w. specialize (Hm w).
  destruct (fst (m w)); [apply HQ | apply HX]; exact Hm.
Qed.

End Outcomes.

Lemma ensures_emit (e : event) (Q : unit -> Prop) (X : value -> Prop) :
  Q tt -> ensures (emit e) Q X.
Proof. intros H w. exact H. Qed.

Lemma ensures_log (lvl : level) (msg : string) (Q : unit -> Prop) (X : value -> Prop) :
  Q tt -> ensures (log lvl msg) Q X.
Proof. intros H w. exact H. Qed.

Lemma ensures_Date_now (E : env) (Q : Z -> Prop) (X : value -> Prop) :
  (forall t, Q t) -> ensures (Date_now E) Q X.
Proof. intros H w. apply H. Qed.

Lemma ensures_await (ev : event) (c : call) (Q : value -> Prop) (X : value -> Prop) :
  (forall v, c = Resolves v -> Q v) ->
  (forall err, c = Rejects err -> X err) ->
  ensures (await ev c) Q X.
Proof.
  intros HQ HX w. unfold await. run. destruct c; cbn [fst]; eauto.
Qed.

Lemma ensures_detach (t : M unit) (h : value -> M unit) (Q : unit -> Prop)
  (X : value -> Prop) :
  Q tt -> ensures (detach t h) Q X.
Proof. intros H w. exact H. Qed.

(** A property read is the value of the property, or throws a TypeError
    object. *)
Lemma ensures_get_prop (v : value) (k : string) (X : value -> Prop) :
  (forall m, X (TypeError m)) ->
  ensures (lift (get_prop v k)) (fun x => x = field v k /\ v <> VUndefined /\ v <> VNull)
          X.
Proof.
  intros HX w. cbn [lift fst]. unfold field.
  destruct v; cbn [get_prop]; try (repeat split; congruence); apply HX.
Qed.

Lemma ensures_get_prop_opt (v : value) (k : string) :
  ensures (lift (get_prop_opt v k)) (fun x => x = field v k) nothing.
Proof.
  intros w. cbn [lift fst]. unfold field.
  destruct v; cbn [get_prop_opt get_prop]; reflexivity.
Qed.

Lemma is_object_TypeError (m : string) : is_object (TypeError m).
Proof. unfold is_object, TypeError, mkError. eauto. Qed.

Lemma is_object_Error (m : string) : is_object (Error m).
Proof. unfold is_object, Error, mkError. eauto. Qed.

Lemma readable_object (v : value) : is_object v -> readable v.
Proof. intros [fields ->]. reflexivity. Qed.

Lemma readable_defined (v : value) : v <> VUndefined -> v <> VNull -> readable v.
Proof. intros H1 H2. destruct v; first [reflexivity | contradiction]. Qed.

Ltac objects :=
  solve [ exact I | assumption | apply is_object_Error | apply is_object_TypeError
        | apply readable_object; first [assumption | apply is_object_Error
                                         | apply is_object_TypeError
                                         | unfold is_object; eauto]
        | apply readable_defined; assumption
        | unfold is_object; eauto ].

(** Reading the message and the stack of a caught value that can be read. *)
Lemma ensures_read_error (e : value) (Q : unit -> Prop) (X : value -> Prop) :
  readable e -> Q tt -> ensures (read_error e) Q X.
Proof.
  intros He H w. unfold read_error. run.
  rewrite !(get_prop_readable e _ He). exact H.
Qed.

(** Reading them of any caught value: the read itself may raise. *)
Lemma ensures_read_error_any (e : value) (Q : unit -> Prop) (X : value -> Prop) :
  (forall m, X (TypeError m)) -> Q tt -> ensures (read_error e) Q X.
Proof.
  intros HX H w. unfold read_error. run.
  destruct (get_prop_defined e "message") as [-> | [[m ->] _]]; [| apply HX].
  destruct (get_prop_defined e "stack") as [-> | [[m ->] _]]; [exact H | apply HX].
Qed.

Lemma ensures_get_prop_readable (v : value) (k : string) (X : value -> Prop) :
  readable v -> ensures (lift (get_prop v k)) (fun x => x = field v k) X.
Proof. intros Hv w. cbn [lift fst]. rewrite (get_prop_readable v k Hv). reflexivity. Qed.

(** One step of a computation, with the exceptions it may raise. *)
Ltac ens_step :=
  lazymatch goal with
  | |- ensures (bind (lift (get_prop _ _)) _) _ _ =>
      first
        [ eapply ensures_bind; [apply ensures_get_prop_readable; objects | intros ? ->]
        | eapply ensures_bind;
          [apply ensures_get_prop; intros; objects | intros ? (-> & ? & ?)] ]
  | |- ensures (bind (lift (get_prop_opt _ _)) _) _ _ =>
      eapply ensures_bind;
      [ eapply ensures_weaken;
        [ apply ensures_get_prop_opt | intros ? ?; eassumption | intros ? [] ]
      | intros ? -> ]
  | |- ensures (bind (log _ _) _) _ _ =>
      eapply ensures_bind; [apply (ensures_log _ _ anything); exact I | intros ? _]
  | |- ensures (bind (Date_now _) _) _ _ =>
      eapply ensures_bind; [apply (ensures_Date_now _ anything); intros; exact I | intros ? _]
  | |- ensures (bind (detach _ _) _) _ _ =>
      eapply ensures_bind; [apply (ensures_detach _ _ anything); exact I | intros ? _]
  | |- ensures (bind (await _ _) _) _ _ =>
      eapply ensures_bind;
      [ apply (ensures_await _ _ anything); intros; exact I | intros ? _ ]
  | |- ensures (bind (read_error _) _) _ _ =>
      first
        [ eapply ensures_bind;
          [ apply (ensures_read_error _ anything); objects | intros ? _ ]
        | eapply ensures_bind;
          [ apply (ensures_read_error_any _ anything); [intros; objects | exact I]
          | intros ? _ ] ]
  | |- ensures (if ?c then _ else _) _ _ => destruct c eqn:?
  | |- ensures (ret _) _ _ => apply ensures_ret
  | |- ensures (throw _) _ _ => apply ensures_throw
  | |- ensures (let _ := _ in _) _ _ => cbv zeta
  end.

(** verifyToken returns a result one of whose two fields is null; what it
    throws, when the read of a caught value fails, is a TypeError object. *)
Lemma ensures_verifyToken (E : env) (token : string) :
  ensures (verifyToken E token)
    (fun r => exists u e, r = token_result u e /\ (u = VNull \/ e = VNull))
    is_object.
Proof.
  unfold verifyToken.
  apply ensures_try_catch with (Y := anything).
  - repeat ens_step; [| solve [eauto]].
    apply ensures_try_catch with (Y := anything).
    + repeat ens_step; eauto.
    + intros e _. repeat ens_step. eauto.
  - intros e _. repeat ens_step. eauto.
Qed.

Lemma ensures_run {A} (m : M A) (Q : A -> Prop) :
  ensures m Q nothing -> forall w, exists a w', m w = (Ok a, w') /\ Q a.
Proof.
  intros H w. specialize (H w). destruct (m w) as [[a | e] w']; cbn [fst] in H.
  - eauto.
  - destruct H.
Qed.

Lemma ensures_never {A} (m : M A) (Q : A -> Prop) (X : value -> Prop) :
  ensures m Q nothing -> ensures m Q X.
Proof. intros H. eapply ensures_weaken; [exact H | auto | intros ? []]. Qed.

Lemma ensures_lift_TypeError {A} (r : result A) (X : value -> Prop) :
  (forall m, X (TypeError m)) ->
  throws_TypeError r -> ensures (lift r) anything X.
Proof.
  intros HX H w. cbn [lift fst]. destruct r as [a | e]; [exact I |].
  destruct H as [m ->]. apply HX.
Qed.

(** What the services of the store rethrow is the value they caught, after
    its message has been read: a value that can be read. *)
Lemma ensures_getUserProfile (E : env) (userId : value) :
  ensures (getUserProfile E userId) anything readable.
Proof.
  unfold getUserProfile.
  apply ensures_try_catch with (Y := anything).
  - repeat ens_step; objects.
  - intros e _. repeat ens_step. objects.
Qed.

Lemma ensures_svc_checkUserLimits (E : env) (userId : value) :
  ensures (svc_checkUserLimits E userId) (fun limits => truthy limits = true) readable.
Proof.
  intros w. destruct (svc_checkUserLimits_cases E userId w) as (logs & _ & _ & H).
  destruct (fst (svc_checkUserLimits E userId w)); [apply H | exact H].
Qed.

Lemma ensures_svc_recordUsage (E : env) (userId tokensUsed : value) (cost : number)
  (modelName requestType : string) :
  ensures (svc_recordUsage E userId tokensUsed cost modelName requestType)
          anything readable.
Proof.
  unfold svc_recordUsage.
  apply ensures_try_catch with (Y := anything).
  - repeat ens_step; objects.
  - intros e _. repeat ens_step. objects.
Qed.

Lemma ensures_recordUsage (E : env) (userId tokenUsage : value)
  (modelName requestType : string) (cost : number) :
  ensures (recordUsage E userId tokenUsage modelName requestType cost)
          anything nothing.
Proof.
  unfold recordUsage.
  apply ensures_try_catch with (Y := readable).
  - ens_step. eapply ensures_bind; [apply ensures_svc_recordUsage | intros ? _].
    ens_step. exact I.
  - intros e He. ens_step. apply ensures_log. exact I.
Qed.

Lemma calculateCost_TypeError (i o : value) (modelName : string) :
  throws_TypeError (calculateCost i o modelName).
Proof.
  destruct (calculateCost_returns i o modelName) as [c ->]. exact I.
Qed.

Lemma estimate_part_TypeError (n : number) (v : value) :
  throws_TypeError (estimate_part n v).
Proof. unfold estimate_part. type_errors; apply text_tokens_TypeError. Qed.

Lemma estimate_content_TypeError (n : number) (v : value) :
  throws_TypeError (estimate_content n v).
Proof. unfold estimate_content. type_errors; apply estimate_part_TypeError. Qed.

Lemma estimate_input_TypeError (body : value) :
  throws_TypeError (estimate_input body).
Proof.
  unfold estimate_input. type_errors;
    first [apply estimate_content_TypeError | apply text_tokens_TypeError].
Qed.


Lemma ensures_extractTokenUsage (response : value) :
  ensures (extractTokenUsage response)
    (fun u => exists p c t, u = usage_value p c t) nothing.
Proof.
  unfold extractTokenUsage.
  apply ensures_try_catch with (Y := is_object).
  - apply ensures_lift. pose proof (extract_body_TypeError response) as H.
    destruct (extract_body response) as [u | e] eqn:Hb.
    + exact (extract_body_shape _ _ Hb).
    + destruct H as [m ->]. apply is_object_TypeError.
  - intros e [fields ->]. repeat ens_step. unfold zero_usage. eauto.
Qed.

(** Whatever the upstream call raised, the service throws an object. *)
Lemma ensures_upstream_error (e : value) :
  ensures (upstream_error e) (fun _ => False) is_object.
Proof.
  unfold upstream_error.
  repeat ens_step; objects.
Qed.

Lemma ensures_generateContent (E : env) (modelName : string)
  (requestBody userId : value) (requestType : string) :
  ensures (generateContent E modelName requestBody userId requestType)
          anything is_object.
Proof.
  unfold generateContent.
  apply ensures_try_catch with (Y := anything).
  - cbv zeta. do 4 ens_step.
    eapply ensures_bind;
      [apply ensures_never, ensures_extractTokenUsage | intros u (p & c & t & ->)].
    do 2 ens_step.
    eapply ensures_bind;
      [ apply ensures_lift_TypeError; [intros; exact I | apply calculateCost_TypeError]
      | intros cost _].
    ens_step. ens_step.
    eapply ensures_bind with (P := anything).
    { destruct (truthy userId); [apply ensures_detach | apply ensures_ret]; exact I. }
    intros ? _. repeat ens_step. exact I.
  - intros e _. eapply ensures_weaken;
      [apply ensures_upstream_error | intros ? [] | auto].
Qed.

Lemma ensures_generateContent_handler (E : env) (req : request) :
  ensures (generateContent_handler E req) anything nothing.
Proof.
  unfold generateContent_handler.
  apply ensures_try_catch with (Y := is_object).
  - cbv zeta. do 2 ens_step.
    eapply ensures_bind; [apply ensures_generateContent | intros r _].
    repeat ens_step. exact I.
  - intros e [fields ->]. repeat ens_step. exact I.
Qed.
Lemma ensures_checkUserLimits (E : env) (req : request) :
  ensures (checkUserLimits E req) (quota_outcome req) nothing.
Proof.
  unfold checkUserLimits.
  apply ensures_try_catch with (Y := readable).
  - ens_step.
    + ens_step. left. reflexivity.
    + apply negb_false_iff in Heqb. ens_step.
      eapply ensures_bind; [apply ensures_svc_checkUserLimits | intros limits Hl].
      repeat ens_step; try (split; [reflexivity | exact Heqb]).
      right. exists limits. split; [reflexivity |].
      unfold first_violated, ceiling_order, violated. cbn [find flag_name].
      rewrite Heqb0, Heqb1, Heqb2. reflexivity.
  - intros e He. repeat ens_step. left. reflexivity.
Qed.
Lemma ensures_authenticateUser (E : env) (req : request) :
  ensures (authenticateUser E req) (auth_outcome req) nothing.
Proof.
  unfold authenticateUser.
  apply ensures_try_catch with (Y := readable).
  - destruct (authorization req) as [authHeader |].
    + ens_step.
      * repeat ens_step. cbn [auth_outcome In]. auto.
      * cbv zeta. eapply ensures_bind;
          [ eapply ensures_weaken;
            [apply ensures_verifyToken | intros ? H; exact H | apply readable_object]
          | intros r (u & e & -> & _)].
        repeat ens_step.
        { cbn [auth_outcome In]. auto. }
        eapply ensures_bind; [apply ensures_getUserProfile | intros profile _].
        repeat ens_step.
        { cbn [auth_outcome In]. auto. }
        change (field (token_result u e) "user") with u in *.
        change (field (token_result u e) "error") with e in *.
        exists u, profile. split; [reflexivity |].
        apply orb_false_elim in Heqb0 as [_ Hu]. apply negb_false_iff in Hu.
        apply negb_false_iff in Heqb1. auto.
    + repeat ens_step. cbn [auth_outcome In]. auto.
  - intros e He. repeat ens_step. cbn [auth_outcome In]. auto.
Qed.

Lemma estimateTokenUsage_cases (req : request) (w : world) :
  match estimate_input (req_body req) with
  | Ok input =>
      estimateTokenUsage req w =
      (Ok (Next (set_estimatedTokens req
                   (estimate_value input (num_mul input (Fin 2))))),
       logged w [EvLog Info "Token usage estimated"])
  | Throw _ =>
      estimateTokenUsage req w =
      (Ok (Next (set_estimatedTokens req (estimate_value (Fin 0) (Fin 0)))),
       logged w [EvLog Err "Error estimating token usage"])
  end.
Proof.
  unfold estimateTokenUsage.
  pose proof (estimate_input_TypeError (req_body req)) as H.
  destruct (get_prop_opt_ok (user req) "id") as [x Hx].
  destruct (estimate_input (req_body req)) as [input | e]; run; rewrite Hx.
  - reflexivity.
  - destruct H as [m ->]. cbn [get_prop TypeError mkError lookup String.eqb Ascii.eqb Bool.eqb].
    reflexivity.
Qed.

Lemma ensures_estimateTokenUsage (req : request) :
  ensures (estimateTokenUsage req)
    (fun out => exists t, out = Next (set_estimatedTokens req t)) nothing.
Proof.
  intros w. pose proof (estimateTokenUsage_cases req w) as H.
  destruct (estimate_input (req_body req)); rewrite H; cbn [fst]; eauto.
Qed.

Lemma ensures_validateModel (req : request) :
  ensures (validateModel req)
    (fun out => match out with
                | Sent res => status res = VNum (num_of_Z 400)
                | Next req' => req' = req /\ includes allowedModels (params_model req) = true
                end) nothing.
Proof.
  unfold validateModel. cbv zeta.
  destruct (includes allowedModels (params_model req)); cbn [negb];
    apply ensures_ret; auto.
Qed.

Lemma ensures_validateRequest (schema : value -> option (string * value))
  (req : request) :
  ensures (validateRequest schema req)
    (fun out => match out with
                | Sent res => status res = VNum (num_of_Z 400)
                | Next req' => req' = req /\ schema (req_body req) = None
                end) nothing.
Proof.
  unfold validateRequest. destruct (schema (req_body req)) as [[m d] |].
  - ens_step. apply ensures_ret. reflexivity.
  - apply ensures_ret. auto.
Qed.

Lemma ensures_run_chain (ms : list middleware) (handler : request -> M response)
  (req : request) :
  Forall (fun m => forall r, ensures (m r) anything nothing) ms ->
  (forall r, ensures (handler r) anything nothing) ->
  ensures (run_chain ms handler req) anything nothing.
Proof.
  intros Hms Hh. revert req. induction Hms as [| m ms Hm _ IH]; intros req.
  - apply Hh.
  - cbn [run_chain]. eapply ensures_bind; [apply Hm | intros [req' | res] _].
    + apply IH.
    + apply ensures_ret. exact I.
Qed.

Lemma ensures_any {A} (m : M A) (Q : A -> Prop) (X : value -> Prop) :
  ensures m Q X -> ensures m anything X.
Proof. intros H. eapply ensures_weaken; [exact H | intros; exact I | auto]. Qed.

(** ** What the stages of the pipeline can do *)

(** X1.  authenticateUser never raises: it answers with one of its four
    fixed responses (401 twice, 403, 500) or passes the request on with a
    truthy [user] and a profile whose [is_active] is truthy, changing no
    other field of the request. *)
Theorem authenticateUser_outcomes (E : env) (req : request) (w : world) :
  exists out w',
    authenticateUser E req w = (Ok out, w') /\
    match out with
    | Sent res =>
        In res [authentication_required; invalid_token; account_inactive;
                auth_service_error]
    | Next req' =>
        exists u p,
          req' = set_principal req u p /\
          truthy u = true /\ truthy (field p "is_active") = true
    end.
Proof.
  exact (ensures_run _ _ (ensures_authenticateUser E req) w).
Qed.

(** X2.  verifyToken turns the failures of the identity provider into a
    result without a user: it returns a result one of whose two fields,
    [user] and [error], is null.  The one exception is an anon client whose
    promise rejects with [null] or [undefined]: reading the message of the
    caught value fails in the catch block, and verifyToken itself rejects,
    with a TypeError. *)
Theorem verifyToken_outcomes (E : env) (token : string) (w : world) :
  exists w',
    if rejects_nullish (auth_getUser E false token)
    then exists m, verifyToken E token w = (Throw (TypeError m), w')
    else exists u e,
           verifyToken E token w = (Ok (token_result u e), w') /\
           (u = VNull \/ e = VNull).
Proof.
  destruct (verifyToken_run E token w _ _ eq_refl eq_refl) as (events & _ & _ & _ & H).
  destruct (verifyToken E token w) as [[r | e] w'] eqn:Hv; cbn [fst] in H; exists w'.
  - destruct H as (-> & u & e & -> & Hue & _). eauto.
  - destruct H as (-> & m & ->). eauto.
Qed.

(** X7.  checkUserLimits never raises and never answers with anything but a
    429; a request it passes on is unchanged or carries the snapshot, all of
    whose flags are then truthy.  It makes no upstream call and no usage
    write, and for a request without a user it does nothing at all. *)
Theorem checkUserLimits_outcomes (E : env) (req : request) (w : world) :
  (exists out w' events,
     checkUserLimits E req w = (Ok out, w') /\
     trace w' = trace w ++ events /\ existsb billable events = false /\
     match out with
     | Sent res => status res = VNum (num_of_Z 429) /\ truthy (user req) = true
     | Next req' =>
         req' = req \/
         exists limits,
           req' = set_userLimits req limits /\
           forall c, violated limits c = false
     end) /\
  (truthy (user req) = false -> checkUserLimits E req w = (Ok (Next req), w)).
Proof.
  split.
  - destruct (ensures_run _ _ (ensures_checkUserLimits E req) w)
      as (out & w' & H & Hout).
    assert (Hs : emits_at_most billable 0 (checkUserLimits E req)) by stage_silent.
    destruct (Hs w) as (events & Ht & Hc). rewrite H in Ht. cbn [snd] in Ht.
    exists out, w', events. repeat split; [exact H | exact Ht | exact (count_0 _ _ Hc) |].
    destruct out as [req' | res]; [| exact Hout].
    destruct Hout as [-> | (limits & -> & Hf)]; [left; reflexivity |].
    right. exists limits. split; [reflexivity |]. intros c.
    destruct (violated limits c) eqn:Hv; [| reflexivity].
    destruct (first_violated_exists _ _ Hv) as [c' Hc']. congruence.
  - intros Hu. unfold checkUserLimits. rewrite Hu. reflexivity.
Qed.

(** X9.  estimateTokenUsage never blocks a request and never raises: it
    passes the request on with an estimate whose total is twice its input,
    and with the estimate 0 / 0 when reading the body fails. *)
Theorem estimateTokenUsage_never_blocks (req : request) (w : world) :
  exists input lvl msg,
    estimateTokenUsage req w =
    (Ok (Next (set_estimatedTokens req
                 (estimate_value input (num_mul input (Fin 2))))),
     logged w [EvLog lvl msg]) /\
    (forall n, estimate_input (req_body req) = Ok n -> input = n) /\
    (forall e, estimate_input (req_body req) = Throw e -> input = Fin 0).
Proof.
  pose proof (estimateTokenUsage_cases req w) as H.
  destruct (estimate_input (req_body req)) as [n | e].
  - exists n, Info, "Token usage estimated". split; [exact H |].
    split; [intros ? [= <-]; reflexivity | discriminate].
  - exists (Fin 0), Err, "Error estimating token usage". split; [exact H |].
    split; [discriminate | reflexivity].
Qed.

Lemma try_catch_never {A} (m : M A) (h : value -> M A) (Q : A -> Prop) :
  ensures m Q nothing -> forall w, try_catch m h w = m w.
Proof.
  intros H w. specialize (H w). unfold try_catch.
  destruct (m w) as [[a | e] w']; [reflexivity | destruct H].
Qed.

Lemma eam_detach_never (p : event -> bool) (n : nat) (t : M unit)
  (h : value -> M unit) :
  ensures t anything nothing -> emits_at_most p n t -> emits_at_most p n (detach t h).
Proof.
  intros Ht H w. unfold detach. cbn [snd].
  rewrite (try_catch_never _ _ _ Ht). apply H.
Qed.

(** X16.  The usage write started by generateContent catches its own
    failures, so the [.catch] handler attached to it never runs: the line
    'Async usage recording failed' is never logged, whatever the store
    answers. *)
Theorem async_failure_never_logged (E : env) (modelName : string)
  (requestBody userId : value) (requestType : string) (w : world) :
  exists events,
    trace (snd (generateContent E modelName requestBody userId requestType w)) =
      trace w ++ events /\
    existsb is_async_failure_log events = false.
Proof.
  assert (H : emits_at_most is_async_failure_log 0
                (generateContent E modelName requestBody userId requestType)).
  { unfold generateContent, upstream_error, extractTokenUsage.
    repeat match goal with
      | |- emits_at_most _ _ (detach _ _) =>
          apply eam_detach_never;
          [ apply ensures_recordUsage
          | unfold recordUsage, svc_recordUsage; solve [eam0] ]
      | |- emits_at_most ?p _ (bind _ _) => apply (eam_bind p 0 0); [| intros ? ]
      | |- emits_at_most ?p _ (try_catch _ _) =>
          apply (eam_try_catch p 0 0); [| intros ? ]
      | |- emits_at_most _ _ (let _ := _ in _) => cbv zeta
      | |- emits_at_most _ _ (match ?c with _ => _ end) => destruct c
      | |- _ => progress eam0
      end. }
  destruct (H w) as (events & Ht & Hc). exists events.
  split; [exact Ht | exact (count_0 _ _ Hc)].
Qed.
(** ** Reading and writing properties *)

Lemma lookup_set_field_same (k : string) (v : value) (l : list (string * value)) :
  lookup k (set_field k v l) = Some v.
Proof.
  induction l as [| [k' v'] l IH]; cbn [set_field lookup].
  - rewrite String.eqb_refl. reflexivity.
  - destruct (String.eqb k k') eqn:Hk; cbn [lookup]; rewrite ?Hk, ?String.eqb_refl;
      [reflexivity | exact IH].
Qed.

Lemma lookup_set_field_other (k k' : string) (v : value) (l : list (string * value)) :
  k' <> k -> lookup k' (set_field k v l) = lookup k' l.
Proof.
  intros Hne. apply String.eqb_neq in Hne.
  induction l as [| [k0 v0] l IH]; cbn [set_field lookup].
  - rewrite Hne. reflexivity.
  - destruct (String.eqb k k0) eqn:Hk; cbn [lookup].
    + apply String.eqb_eq in Hk. subst k0. rewrite Hne. reflexivity.
    + rewrite IH. reflexivity.
Qed.

Lemma field_set_field_same (k : string) (v : value) (l : list (string * value)) :
  field (VObj (set_field k v l)) k = v.
Proof. unfold field. cbn [get_prop]. rewrite lookup_set_field_same. reflexivity. Qed.

Lemma field_set_field_other (k k' : string) (v : value) (l : list (string * value)) :
  k' <> k -> field (VObj (set_field k v l)) k' = field (VObj l) k'.
Proof.
  intros H. unfold field. cbn [get_prop]. rewrite lookup_set_field_other by exact H.
  reflexivity.
Qed.


(** ** The generateContent handler: what is answered and what is written *)


Lemma generateContent_success (E : env) (modelName : string)
  (requestBody userId : value) (requestType : string) (w : world)
  (r u : value) (dfields : list (string * value)) :
  axios_post E (generateContent_url E modelName) requestBody = Resolves r ->
  field r "data" = VObj dfields ->
  extract_body r = Ok u ->
  truthy userId = true ->
  exists p c t cost logs,
    u = usage_value p c t /\
    calculateCost p c modelName = Ok cost /\
    only_logs logs /\
    generateContent E modelName requestBody userId requestType w =
    (Ok (VObj
           [ ("data",
              VObj (set_field "usageMetadata"
                      (VObj (set_field "timestamp"
                               (VStr (toISOString (clock E (S (S (ticks w))))))
                               (set_field "model" (VStr modelName)
                                  (set_field "cost" (VNum (parseFloat_toFixed6 cost))
                                     (spread (field (VObj dfields) "usageMetadata"))))))
                      dfields));
             ("status", field r "status"); ("headers", field r "headers") ]),
     {| trace :=
          trace w ++
          [ EvLog Info "Making Gemini API request";
            EvHttpPost (generateContent_url E modelName) requestBody;
            EvLog Info "Gemini API request completed";
            EvInsert "api_usage"
              (usage_row userId (field (usage_value p c t) "totalTokenCount") cost
                         modelName requestType) ] ++ logs;
        ticks := S (S (S (ticks w))) |}).
Proof.
  intros Hp Hd Hx Hu.
  destruct (extract_body_shape _ _ Hx) as (p & c & t & ->).
  destruct (calculateCost_returns p c modelName) as [cost Hc].
  assert (Hr : truthy r = true).
  { destruct r; try reflexivity; discriminate Hd. }
  destruct (recordUsage_cases E userId (usage_value p c t) modelName requestType cost
              {| trace := trace w ++ [EvLog Info "Making Gemini API request"; EvHttpPost (generateContent_url E modelName) requestBody; EvLog Info "Gemini API request completed"]; ticks := S (S (ticks w)) |} eq_refl) as (logs & Hl & Hrec & _).
  exists p, c, t, cost, logs. split; [reflexivity |].
  split; [exact Hc |]. split; [exact Hl |].
  unfold generateContent.
  cbv beta iota zeta delta [try_catch bind await lift log emit throw ret
                            Date_now detach fst snd].
  cbn [trace ticks]. rewrite Hp. cbn [trace ticks].
  rewrite (extractTokenUsage_ok _ _ _ Hx).
  cbn [usage_value get_prop lookup String.eqb Ascii.eqb Bool.eqb].
  rewrite Hc, (get_prop_truthy r _ Hr), Hu. cbn [trace ticks].
  rewrite <- !app_assoc. cbn [app].
  change (VObj [("promptTokenCount", p); ("candidatesTokenCount", c);
                ("totalTokenCount", t)]) with (usage_value p c t).
  rewrite Hrec. cbn [logged trace ticks snd].
  rewrite !(get_prop_truthy r _ Hr). rewrite Hd.
  cbn [get_prop spread]. rewrite <- !app_assoc. cbn [app]. reflexivity.
Qed.
Lemma generateContent_handler_success (E : env) (req : request) (w : world)
  (r u : value) (dfields : list (string * value)) :
  truthy (field (user req) "id") = true ->
  axios_post E (generateContent_url E (params_model req)) (req_body req) = Resolves r ->
  field r "data" = VObj dfields ->
  extract_body r = Ok u ->
  exists p c t cost logs,
    u = usage_value p c t /\
    calculateCost p c (params_model req) = Ok cost /\
    only_logs logs /\
    generateContent_handler E req w =
    (Ok {| status := field r "status";
           headers := proxied_headers (field (user req) "id") (params_model req) req;
           body :=
             VObj (set_field "usageMetadata"
                     (VObj (set_field "timestamp"
                              (VStr (toISOString (clock E (S (S (ticks w))))))
                              (set_field "model" (VStr (params_model req))
                                 (set_field "cost" (VNum (parseFloat_toFixed6 cost))
                                    (spread (field (VObj dfields) "usageMetadata"))))))
                     dfields) |},
     {| trace :=
          trace w ++
          [ EvLog Info "Generate content request";
            EvLog Info "Making Gemini API request";
            EvHttpPost (generateContent_url E (params_model req)) (req_body req);
            EvLog Info "Gemini API request completed";
            EvInsert "api_usage"
              (usage_row (field (user req) "id") t cost (params_model req) "generate") ]
          ++ logs;
        ticks := S (S (S (ticks w))) |}).
Proof.
  intros Hu Hp Hd Hx.
  destruct (generateContent_success E (params_model req) (req_body req)
              (field (user req) "id") "generate"
              (logged w [EvLog Info "Generate content request"]) r u dfields
              Hp Hd Hx Hu) as (p & c & t & cost & logs & -> & Hc & Hl & Hg).
  exists p, c, t, cost, logs. repeat split; try assumption.
  unfold generateContent_handler.
  cbv beta iota zeta delta [try_catch bind lift log emit ret fst snd].
  rewrite (field_truthy_defined _ _ Hu).
  change {| trace := trace w ++ [EvLog Info "Generate content request"];
            ticks := ticks w |}
    with (logged w [EvLog Info "Generate content request"]).
  rewrite Hg. cbn [get_prop lookup String.eqb Ascii.eqb Bool.eqb logged trace ticks].
  rewrite <- !app_assoc. reflexivity.
Qed.


(** X14.  A successful generateContent request of a user with a truthy id
    writes exactly one usage record: the user id, the total token count, the
    cost as computed (not rounded), the model and the request type
    'generate'. *)
Theorem generateContent_records_usage (E : env) (req : request) (w : world)
  (r u : value) (dfields : list (string * value)) :
  truthy (field (user req) "id") = true ->
  axios_post E (generateContent_url E (params_model req)) (req_body req) = Resolves r ->
  field r "data" = VObj dfields ->
  extract_body r = Ok u ->
  exists cost events,
    calculateCost (field u "promptTokenCount") (field u "candidatesTokenCount")
                  (params_model req) = Ok cost /\
    trace (snd (generateContent_handler E req w)) = trace w ++ events /\
    usage_writes events = 1%nat /\
    In (EvInsert "api_usage"
          (usage_row (field (user req) "id") (field u "totalTokenCount") cost
                     (params_model req) "generate")) events.
Proof.
  intros Hu Hp Hd Hx.
  destruct (generateContent_handler_success E req w r u dfields Hu Hp Hd Hx)
    as (p & c & t & cost & logs & -> & Hc & Hl & H).
  eexists cost, _. split; [exact Hc |]. rewrite H. cbn [snd trace].
  split; [reflexivity |]. split.
  - unfold usage_writes. rewrite count_app.
    rewrite (count_only_logs is_usage_write logs) by (auto; reflexivity).
    reflexivity.
  - apply in_or_app. left. cbn [In]. auto 10.
Qed.
Lemma get_prop_nonnullish (v : value) (k : string) :
  v <> VUndefined -> v <> VNull -> get_prop v k = Ok (field v k).
Proof.
  intros H1 H2. destruct (get_prop_defined v k) as [E | [_ [-> | ->]]];
    [exact E | contradiction | contradiction].
Qed.

Lemma js_or_absorb (a b c : value) :
  truthy b = true -> js_or (js_or a b) c = js_or a b.
Proof.
  intros Hb. unfold js_or at 1. rewrite (js_or_truthy a b Hb). reflexivity.
Qed.

Lemma get_prop_opt_field (v : value) (k : string) :
  get_prop_opt v k = Ok (field v k).
Proof. unfold field. destruct v; reflexivity. Qed.

(** X15.  An upstream call that fails with an error object is answered from
    the error alone and writes no usage record (the trace is the four log lines and the call):
    without an HTTP response (connection failure, timeout) the client gets
    500 CONNECTION_ERROR; with one, the upstream status and the upstream
    error code and message, each with its fallback. *)
Theorem upstream_failure_response (E : env) (req : request) (w : world)
  (err : list (string * value)) :
  truthy (user req) = true ->
  axios_post E (generateContent_url E (params_model req)) (req_body req) =
    Rejects (VObj err) ->
  let resp := field (VObj err) "response" in
  let inner := field (field resp "data") "error" in
  (truthy resp = false ->
   generateContent_handler E req w =
   (Ok {| status := VNum (num_of_Z 500); headers := [];
          body := error_body (VStr "CONNECTION_ERROR")
                             (VStr "Failed to connect to Gemini API") |},
    tick w [ EvLog Info "Generate content request";
             EvLog Info "Making Gemini API request";
             EvHttpPost (generateContent_url E (params_model req)) (req_body req);
             EvLog Err "Gemini API request failed";
             EvLog Err "Generate content error" ])) /\
  (truthy resp = true ->
   field resp "data" <> VUndefined -> field resp "data" <> VNull ->
   generateContent_handler E req w =
   (Ok {| status := js_or (field resp "status") (VNum (num_of_Z 500));
          headers := [];
          body := error_body (js_or (field inner "code") (VStr "UNKNOWN_ERROR"))
                             (js_or (field inner "message") (VStr "Gemini API error")) |},
    tick w [ EvLog Info "Generate content request";
             EvLog Info "Making Gemini API request";
             EvHttpPost (generateContent_url E (params_model req)) (req_body req);
             EvLog Err "Gemini API request failed";
             EvLog Err "Generate content error" ])).
Proof.
  intros Hu Hp resp inner.
  split; intros Hr; [| intros Hd1 Hd2];
    unfold generateContent_handler, generateContent, upstream_error;
    cbv beta iota zeta delta [try_catch bind await lift log emit throw ret
                              Date_now detach fst snd tick logged];
    rewrite (get_prop_truthy _ _ Hu); cbn [trace ticks]; rewrite Hp;
    cbn [get_prop];
    change (match lookup "response" err with
            | Some x => x
            | None => inherited "response"
            end) with resp;
    rewrite !get_prop_opt_field, Hr; cbn [trace ticks].
  - cbn [get_prop lookup String.eqb Ascii.eqb Bool.eqb].
    rewrite <- !app_assoc. reflexivity.
  - rewrite !(get_prop_truthy resp _ Hr).
    rewrite (get_prop_nonnullish _ "error" Hd1 Hd2).
    rewrite !get_prop_opt_field.
    cbn [get_prop lookup String.eqb Ascii.eqb Bool.eqb trace ticks].
    fold inner. rewrite <- !app_assoc. cbn [app].
    unfold error_body.
    rewrite (js_or_absorb (field inner "code") (VStr "UNKNOWN_ERROR") (VStr "INTERNAL_ERROR")) by reflexivity.
    rewrite (js_or_absorb (field inner "message") (VStr "Gemini API error") (VStr "An unexpected error occurred")) by reflexivity.
    reflexivity.
Qed.
(** X8.  A snapshot within all three ceilings lets the request through with
    the snapshot attached as [userLimits]; the guard adds one log line and
    the remaining stages run on the annotated request. *)
Theorem checkUserLimits_within (E : env) (req : request) (w w1 : world)
  (limits : value) :
  truthy (user req) = true ->
  svc_checkUserLimits E (field (user req) "id") w = (Ok limits, w1) ->
  first_violated limits = None ->
  let w2 := logged w1 [EvLog Info "Checking user limits"] in
  checkUserLimits E req w = (Ok (Next (set_userLimits req limits)), w2) /\
  guarded_pipeline E req w = after_quota_guard E (set_userLimits req limits) w2.
Proof.
  intros Hu Hq Hc w2.
  assert (H : checkUserLimits E req w = (Ok (Next (set_userLimits req limits)), w2)).
  { destruct (svc_checkUserLimits_ok _ _ _ _ _ Hq) as [Ht Hw1].
    unfold checkUserLimits. rewrite Hu. cbn [negb]. run.
    rewrite (get_prop_truthy _ "id" Hu), Hq. tidy.
    rewrite !(get_prop_truthy limits _ Ht). tidy.
    unfold first_violated, ceiling_order, violated in Hc. cbn [find flag_name] in Hc.
    destruct (truthy (field limits "within_hourly_limit")); cbn [negb] in Hc |- *;
      [| discriminate Hc].
    destruct (truthy (field limits "within_daily_token_limit")); cbn [negb] in Hc |- *;
      [| discriminate Hc].
    destruct (truthy (field limits "within_daily_cost_limit")); cbn [negb] in Hc |- *;
      [| discriminate Hc].
    reflexivity. }
  split; [exact H | exact (guarded_pipeline_next _ _ _ _ _ H)].
Qed.

(** X3.  getUserProfile provisions a missing profile: when the lookup
    answers with error code PGRST116 it inserts one row for the user with
    tier 'free' and [is_active] true and returns the row the store sends
    back; when that insert answers with an error it throws 'Failed to
    create user profile'. *)
Theorem getUserProfile_provisions (E : env) (userId : value) (w : world)
  (r r' : value) :
  store_select E "user_profiles" userId = Resolves r ->
  field (field r "error") "code" = VStr "PGRST116" ->
  store_insert E "user_profiles" (new_profile userId) = Resolves r' ->
  r' <> VUndefined -> r' <> VNull ->
  let created := [ EvSelect "user_profiles" userId;
                   EvInsert "user_profiles" (new_profile userId) ] in
  new_profile userId =
    VObj [ ("user_id", userId); ("subscription_tier", VStr "free");
           ("is_active", VBool true) ] /\
  (truthy (field r' "error") = false ->
   getUserProfile E userId w =
   (Ok (field r' "data"),
    logged w (created ++ [EvLog Info "Created new user profile"]))) /\
  (truthy (field r' "error") = true ->
   getUserProfile E userId w =
   (Throw (Error "Failed to create user profile"),
    logged w (created ++ [ EvLog Err "Error creating user profile";
                           EvLog Err "Error in getUserProfile" ]))).
Proof.
  intros Hs Hcode Hi Hr1 Hr2 created. split; [reflexivity |].
  assert (He : truthy (field r "error") = true).
  { destruct (field r "error");
      first [reflexivity | cbn in Hcode; discriminate Hcode]. }
  assert (Hr : truthy r = true).
  { destruct r; try reflexivity; discriminate He. }
  split; intros Hie; unfold getUserProfile; run;
    rewrite Hs; tidy; rewrite !(get_prop_truthy r _ Hr); tidy;
    rewrite get_prop_opt_field, Hcode, He; cbn [andb strict_eq_str String.eqb Ascii.eqb Bool.eqb];
    rewrite Hi; tidy; rewrite !(get_prop_nonnullish r' _ Hr1 Hr2); tidy;
    rewrite Hie; tidy; reflexivity.
Qed.
(** ** Cost Calculator: the models the routes accept *)

(** X11.  A model id that is absent from the pricing table (and is not a
    name inherited from Object.prototype) is billed at the 'gemini-pro'
    rates; among the ids validateModel accepts these are 'text-embedding-004'
    and 'text-multilingual-embedding-002'. *)
Theorem calculateCost_unlisted_default (i o : value) (modelName : string) :
  lookup modelName pricing_entries = None ->
  is_inherited_name modelName = false ->
  calculateCost i o modelName = calculateCost i o "gemini-pro".
Proof.
  intros Hl Hn. rewrite (calculateCost_unlisted _ _ _ Hl Hn).
  symmetry. apply (calculateCost_listed i o "gemini-pro" default_entry). reflexivity.
Qed.

Lemma cost_monotone_on_rates (a b : Q) (x x' y y' : Z) :
  0 < a -> 0 < b -> (x <= x')%Z -> (y <= y')%Z ->
  num_le (num_add (num_div (num_of_Z x) (Fin a)) (num_div (num_of_Z y) (Fin b)))
         (num_add (num_div (num_of_Z x') (Fin a)) (num_div (num_of_Z y') (Fin b)))
  = true.
Proof.
  clear. intros Ha Hb Hx Hy.
  unfold num_of_Z, num_div. rewrite (Qis_zero_pos a Ha), (Qis_zero_pos b Hb).
  cbn [num_add num_le]. apply Qle_bool_iff. rewrite !Qred_correct.
  assert (H : forall (z z' : Z) (r : Q), (z <= z')%Z -> 0 < r ->
                inject_Z z / r <= inject_Z z' / r).
  { intros z z' r Hz Hr. unfold Qdiv. apply Qmult_le_compat_r.
    - rewrite <- Zle_Qle. exact Hz.
    - apply Qlt_le_weak, Qinv_lt_0_compat. exact Hr. }
  apply Qplus_le_compat; apply H; assumption.
Qed.

(** X12.  For every model id validateModel accepts other than
    'gemini-embedding-001', the cost of non-negative token counts is a
    finite, non-negative number, it is 0 for no tokens, and it does not
    decrease when either count grows. *)
Theorem calculateCost_accepted_models (modelId : string) (x x' y y' : Z) :
  includes allowedModels modelId = true ->
  modelId <> "gemini-embedding-001" ->
  (0 <= x <= x')%Z -> (0 <= y <= y')%Z ->
  exists c c',
    calculateCost (tokens x) (tokens y) modelId = Ok c /\
    calculateCost (tokens x') (tokens y') modelId = Ok c' /\
    num_is_finite c = true /\ num_nonneg c = true /\ num_le c c' = true /\
    calculateCost (tokens 0) (tokens 0) modelId = Ok (Fin 0).
Proof.
  intros Ha Hne [Hx Hxx] [Hy Hyy].
  pose proof (allowedModels_not_inherited _ Ha) as Hn.
  destruct (calculateCost_finite_nonneg modelId x y Hne Hn Hx Hy) as (c & Hc & Hf & Hnn).
  destruct (calculateCost_linear modelId 0 Hne Hn) as (c0 & _ & _ & H0).
  rewrite Hc. rewrite (calculateCost_cost_formula x' y' _ Hn).
  eexists _, _. repeat split; try assumption.
  rewrite (calculateCost_cost_formula _ _ _ Hn) in Hc. injection Hc as <-.
  unfold cost_formula. destruct (rates_nonzero modelId Hne) as (a & b & -> & Ha0 & Hb0).
  cbn [inputTokensPerDollar outputTokensPerDollar].
  apply cost_monotone_on_rates; assumption.
Qed.
(** ** optionalAuth and requireRole *)

Lemma ensures_optionalAuth (E : env) (req : request) :
  ensures (optionalAuth E req)
    (fun out =>
       out = Next req \/
       exists u p,
         out = Next (set_principal req u p) /\
         truthy u = true /\ truthy (field p "is_active") = true)
    nothing.
Proof.
  unfold optionalAuth.
  apply ensures_try_catch with (Y := readable).
  - destruct (authorization req) as [authHeader |].
    + ens_step.
      * apply ensures_ret. left. reflexivity.
      * cbv zeta. eapply ensures_bind;
          [ eapply ensures_weaken;
            [apply ensures_verifyToken | intros ? H; exact H | apply readable_object]
          | intros r (u & e & -> & _)].
        repeat ens_step; try (left; reflexivity).
        eapply ensures_bind; [apply ensures_getUserProfile | intros profile _].
        repeat ens_step; try (left; reflexivity).
        change (field (token_result u e) "user") with u in *.
        right. exists u, profile. split; [reflexivity |].
        apply andb_true_iff in Heqb0 as [_ Hu]. auto.
    + apply ensures_ret. left. reflexivity.
  - intros e He. repeat ens_step. left. reflexivity.
Qed.

(** X4.  optionalAuth never answers and never raises: every request is
    passed on, unchanged or with a verified user (truthy) and an active
    profile attached; without a Bearer header no collaborator is contacted. *)
Theorem optionalAuth_always_continues (E : env) (req : request) (w : world) :
  (exists req' w',
     optionalAuth E req w = (Ok (Next req'), w') /\
     (req' = req \/
      exists u p,
        req' = set_principal req u p /\
        truthy u = true /\ truthy (field p "is_active") = true)) /\
  (match authorization req with
   | Some h => String.prefix "Bearer " h = false
   | None => True
   end ->
   optionalAuth E req w = (Ok (Next req), w)).
Proof.
  split.
  - destruct (ensures_run _ _ (ensures_optionalAuth E req) w) as (out & w' & H & Q).
    destruct Q as [-> | (u & p & -> & Q)]; eexists _, w'; split; eauto.
  - intros H. unfold optionalAuth. destruct (authorization req) as [h |].
    + rewrite H. rewrite orb_true_r. reflexivity.
    + reflexivity.
Qed.

(** X5.  requireRole answers 401 when the request carries no profile;
    otherwise it compares the profile's tier, 'free' when the profile has
    none, with the allowed roles: it passes the request on unchanged when
    the tier is allowed and answers 403 when it is not (raising a TypeError
    instead when the request then carries no user). *)
Theorem requireRole_decision (allowedRoles : list string) (req : request) (w : world) :
  let userRole := js_or (field (userProfile req) "subscription_tier") (VStr "free") in
  (truthy (userProfile req) = false ->
   requireRole allowedRoles req w = (Ok (Sent authentication_first), w)) /\
  (truthy (userProfile req) = true ->
   includes_value allowedRoles userRole = true ->
   requireRole allowedRoles req w = (Ok (Next req), w)) /\
  (truthy (userProfile req) = true ->
   includes_value allowedRoles userRole = false ->
   (user req <> VUndefined -> user req <> VNull ->
    requireRole allowedRoles req w =
    (Ok (Sent (insufficient_permissions allowedRoles)),
     logged w [EvLog Warn "Insufficient permissions"])) /\
   (user req = VUndefined \/ user req = VNull ->
    exists m, requireRole allowedRoles req w = (Throw (TypeError m), w))).
Proof.
  intros userRole. unfold requireRole. repeat split.
  - intros ->. reflexivity.
  - intros Hp Hi. rewrite Hp. cbn [negb]. run. rewrite (get_prop_truthy _ _ Hp).
    fold userRole. rewrite Hi. reflexivity.
  - intros Hu1 Hu2. rewrite H. cbn [negb]. run. rewrite (get_prop_truthy _ _ H).
    fold userRole. rewrite H0. cbn [negb].
    rewrite (get_prop_nonnullish _ _ Hu1 Hu2). reflexivity.
  - intros Hu. rewrite H. cbn [negb]. run. rewrite (get_prop_truthy _ _ H).
    fold userRole. rewrite H0. cbn [negb].
    destruct Hu as [-> | ->]; cbn [get_prop]; eauto.
Qed.

Lemma requireRole_decision_aux (allowedRoles : list string) (req : request)
  (w : world) :
  truthy (userProfile req) = true ->
  requireRole allowedRoles req w = (Ok (Next req), w) \/
  (user req <> VUndefined /\ user req <> VNull ->
   requireRole allowedRoles req w =
   (Ok (Sent (insufficient_permissions allowedRoles)),
    logged w [EvLog Warn "Insufficient permissions"])).
Proof.
  intros Hp. unfold requireRole. rewrite Hp. cbn [negb]. run.
  rewrite (get_prop_truthy _ _ Hp).
  destruct (includes_value allowedRoles _); cbn [negb]; [left; reflexivity |].
  right. intros [Hu1 Hu2]. rewrite (get_prop_nonnullish _ _ Hu1 Hu2). reflexivity.
Qed.

(** X6.  Behind authenticateUser, requireRole never answers 401 and never
    raises: a request that authenticateUser passed on is passed on again or
    answered with 403. *)
Theorem requireRole_after_authenticateUser (E : env) (allowedRoles : list string)
  (req req' : request) (w w1 : world) :
  authenticateUser E req w = (Ok (Next req'), w1) ->
  requireRole allowedRoles req' w1 = (Ok (Next req'), w1) \/
  requireRole allowedRoles req' w1 =
    (Ok (Sent (insufficient_permissions allowedRoles)),
     logged w1 [EvLog Warn "Insufficient permissions"]).
Proof.
  intros H.
  pose proof (ensures_authenticateUser E req w) as Ho. rewrite H in Ho.
  cbn [fst auth_outcome] in Ho. destruct Ho as (u & p & -> & Hu & Hp).
  assert (Hpt : truthy (userProfile (set_principal req u p)) = true).
  { cbn [userProfile set_principal]. destruct p; try reflexivity; discriminate Hp. }
  destruct (requireRole_decision_aux allowedRoles (set_principal req u p) w1 Hpt)
    as [Hn | Hs]; [left; exact Hn | right; apply Hs].
  cbn [user set_principal]. destruct u; try discriminate Hu; split; discriminate.
Qed.
(** ** The other Gemini routes *)

Lemma ensures_gemini_error (line apiMessage connectMessage : string)
  (logs_data with_details : bool) (e : value) :
  ensures (gemini_error line apiMessage connectMessage logs_data with_details e)
          (fun _ => False) is_object.
Proof.
  unfold gemini_error.
  ens_step. ens_step. ens_step.
  eapply ensures_bind with (P := anything).
  { destruct logs_data; [| apply ensures_ret; exact I].
    eapply ensures_weaken; [apply ensures_get_prop_opt | intros; exact I | intros ? []]. }
  intros ? _. ens_step. ens_step; [| apply ensures_throw; objects].
  do 5 ens_step.
  eapply ensures_bind with (P := anything).
  { destruct with_details; [| apply ensures_ret; exact I].
    eapply ensures_weaken; [apply ensures_get_prop_opt | intros; exact I | intros ? []]. }
  intros ? _. apply ensures_throw. objects.
Qed.

Lemma ensures_caught {A} (m : M A) (h : value -> M A) (Q : A -> Prop) :
  ensures m Q anything ->
  (forall e, ensures (h e) (fun _ => False) is_object) ->
  ensures (try_catch m h) Q is_object.
Proof.
  intros Hm Hh. apply ensures_try_catch with (Y := anything); [exact Hm |].
  intros e _. eapply ensures_weaken; [apply Hh | intros ? [] | auto].
Qed.

Lemma ensures_countTokens (E : env) (modelName : string) (requestBody userId : value) :
  ensures (countTokens E modelName requestBody userId) anything is_object.
Proof.
  unfold countTokens. apply ensures_caught.
  - repeat ens_step. exact I.
  - intros e. apply ensures_gemini_error.
Qed.

Lemma ensures_streamGenerateContent (E : env) (modelName : string)
  (requestBody userId : value) :
  ensures (streamGenerateContent E modelName requestBody userId) anything is_object.
Proof.
  unfold streamGenerateContent. apply ensures_caught.
  - repeat ens_step. exact I.
  - intros e. apply ensures_gemini_error.
Qed.

Lemma embedding_tokens_TypeError (requestBody : value) :
  throws_TypeError (embedding_tokens requestBody).
Proof. unfold embedding_tokens. type_errors. Qed.

Lemma ensures_generateEmbeddings (E : env) (modelName : string)
  (requestBody userId : value) :
  ensures (generateEmbeddings E modelName requestBody userId) anything is_object.
Proof.
  unfold generateEmbeddings. apply ensures_caught.
  - cbv zeta. do 4 ens_step.
    eapply ensures_bind;
      [ apply ensures_lift_TypeError; [intros; exact I | apply embedding_tokens_TypeError]
      | intros n _].
    eapply ensures_bind;
      [ apply ensures_lift_TypeError; [intros; exact I | apply calculateCost_TypeError]
      | intros cost _].
    ens_step. ens_step.
    eapply ensures_bind with (P := anything).
    { destruct (truthy userId); [apply ensures_detach | apply ensures_ret]; exact I. }
    intros ? _. repeat ens_step. exact I.
  - intros e. apply ensures_gemini_error.
Qed.

Lemma ensures_send_failure (line : string) (req : request) (e : value) :
  is_object e -> ensures (send_failure line req e) anything nothing.
Proof.
  intros [fields ->]. unfold send_failure. repeat ens_step. exact I.
Qed.

Lemma ensures_send_proxied (req : request) (userId : value) (model : string)
  (r : value) :
  ensures (send_proxied req userId model r) anything is_object.
Proof. unfold send_proxied. repeat ens_step. exact I. Qed.

Lemma ensures_countTokens_handler (E : env) (req : request) :
  ensures (countTokens_handler E req) anything nothing.
Proof.
  unfold countTokens_handler.
  apply ensures_try_catch with (Y := is_object).
  - cbv zeta. do 2 ens_step.
    eapply ensures_bind; [apply ensures_countTokens | intros r _].
    apply ensures_send_proxied.
  - intros e He. apply ensures_send_failure. exact He.
Qed.

Lemma ensures_embeddings_handler (E : env) (req : request) :
  ensures (embeddings_handler E req) anything nothing.
Proof.
  unfold embeddings_handler.
  apply ensures_try_catch with (Y := is_object).
  - cbv zeta. ens_step. ens_step; [apply ensures_ret; exact I |]. ens_step.
    eapply ensures_bind; [apply ensures_generateEmbeddings | intros r _].
    apply ensures_send_proxied.
  - intros e He. apply ensures_send_failure. exact He.
Qed.

Lemma ensures_streamGenerateContent_handler (E : env) (req : request) :
  ensures (streamGenerateContent_handler E req) anything nothing.
Proof.
  unfold streamGenerateContent_handler.
  apply ensures_try_catch with (Y := is_object).
  - cbv zeta. do 2 ens_step.
    eapply ensures_bind; [apply ensures_streamGenerateContent | intros r _].
    repeat ens_step. exact I.
  - intros e He. apply ensures_send_failure. exact He.
Qed.

Lemma eam_run_chain (p : event -> bool) (ms : list middleware)
  (handler : request -> M response) (req : request) :
  Forall (fun m => forall r, emits_at_most p 0 (m r)) ms ->
  (forall r, emits_at_most p 0 (handler r)) ->
  emits_at_most p 0 (run_chain ms handler req).
Proof.
  intros Hms Hh. revert req. induction Hms as [| m ms Hm _ IH]; intros req.
  - apply Hh.
  - cbn [run_chain]. apply (eam_bind p 0 0); [apply Hm |].
    intros [req' | res]; [apply IH | apply eam_ret].
Qed.

Ltac service_silent :=
  unfold countTokens_handler, countTokens, streamGenerateContent_handler,
    streamGenerateContent, gemini_error, send_proxied, send_failure;
  solve [eam0].

(** X19.  Whatever the request and the collaborators' answers, the
    countTokens route answers, and it does so without querying the limits
    store and without writing a usage record: counting tokens is neither
    limited by the quota guard nor billed. *)
Theorem countTokens_route_free (E : env) (req : request) (w : world) :
  exists res w' events,
    countTokens_route E req w = (Ok res, w') /\
    trace w' = trace w ++ events /\
    existsb is_accounting events = false.
Proof.
  destruct (ensures_run (countTokens_route E req) anything) with (w := w)
    as (res & w' & H & _).
  { unfold countTokens_route. apply ensures_run_chain.
    - repeat constructor; intros r.
      + apply (ensures_any _ _ _ (ensures_authenticateUser E r)).
      + apply (ensures_any _ _ _ (ensures_validateModel r)).
      + apply (ensures_any _ _ _ (ensures_validateRequest _ r)).
    - apply ensures_countTokens_handler. }
  assert (Hs : emits_at_most is_accounting 0 (countTokens_route E req)).
  { unfold countTokens_route. apply eam_run_chain.
    - repeat constructor; intros r; stage_silent.
    - intros r. service_silent. }
  destruct (Hs w) as (events & Ht & Hc). rewrite H in Ht. cbn [snd] in Ht.
  exists res, w', events. repeat split; [exact H | exact Ht | exact (count_0 _ _ Hc)].
Qed.

(** X20.  Whatever the request and the collaborators' answers, the
    streamGenerateContent route answers, and it never writes a usage record:
    a streamed generation is subject to the quota guard but is not billed. *)
Theorem stream_route_never_records (E : env) (req : request) (w : world) :
  exists res w' events,
    streamGenerateContent_route E req w = (Ok res, w') /\
    trace w' = trace w ++ events /\
    usage_writes events = 0%nat.
Proof.
  destruct (ensures_run (streamGenerateContent_route E req) anything) with (w := w)
    as (res & w' & H & _).
  { unfold streamGenerateContent_route. apply ensures_run_chain.
    - repeat constructor; intros r.
      + apply (ensures_any _ _ _ (ensures_authenticateUser E r)).
      + apply (ensures_any _ _ _ (ensures_validateModel r)).
      + apply (ensures_any _ _ _ (ensures_validateRequest _ r)).
      + apply (ensures_any _ _ _ (ensures_checkUserLimits E r)).
      + apply (ensures_any _ _ _ (ensures_estimateTokenUsage r)).
    - apply ensures_streamGenerateContent_handler. }
  assert (Hs : emits_at_most is_usage_write 0 (streamGenerateContent_route E req)).
  { unfold streamGenerateContent_route. apply eam_run_chain.
    - repeat constructor; intros r; stage_silent.
    - intros r. service_silent. }
  destruct (Hs w) as (events & Ht & Hc). rewrite H in Ht. cbn [snd] in Ht.
  exists res, w', events. repeat split; [exact H | exact Ht |].
  unfold usage_writes. apply Nat.le_0_r. exact Hc.
Qed.
(** ** Embeddings *)

(** X21.  The embeddings route refuses a model that is not one of the three
    embedding models with a 400, before anything is logged or sent
    upstream. *)
Theorem embeddings_rejects_other_models (E : env) (req : request) (w : world) :
  user req <> VUndefined -> user req <> VNull ->
  includes embeddingModels (params_model req) = false ->
  embeddings_handler E req w =
  (Ok (invalid_embedding_model (params_model req)), w) /\
  status (invalid_embedding_model (params_model req)) = VNum (num_of_Z 400).
Proof.
  intros H1 H2 Hm. split; [| reflexivity].
  unfold embeddings_handler. run. rewrite (get_prop_nonnullish _ _ H1 H2), Hm.
  reflexivity.
Qed.

Lemma embedding_tokens_cases (requestBody : value) :
  requestBody <> VUndefined -> requestBody <> VNull ->
  embedding_tokens requestBody =
  Ok (if truthy (field requestBody "model")
      then num_of_Z (ceil_quarter (String.length (JSON_stringify requestBody)))
      else Fin 0).
Proof.
  intros H1 H2. unfold embedding_tokens.
  rewrite (get_prop_nonnullish _ _ H1 H2). cbn [rbind].
  destruct (truthy (field requestBody "model")); [| reflexivity].
  rewrite ceil_div_length. reflexivity.
Qed.

Lemma generateEmbeddings_success (E : env) (modelName : string)
  (requestBody userId : value) (w : world) (r : value) (n cost : number) :
  axios_post E (embeddings_url E modelName) requestBody = Resolves r ->
  r <> VUndefined -> r <> VNull ->
  embedding_tokens requestBody = Ok n ->
  calculateCost (VNum n) (VNum (Fin 0)) modelName = Ok cost ->
  truthy userId = true ->
  exists logs,
    only_logs logs /\
    generateEmbeddings E modelName requestBody userId w =
    (Ok (VObj
           [ ("data",
              VObj (set_field "usageMetadata"
                      (VObj [ ("inputTokens", VNum n);
                              ("cost", VNum (parseFloat_toFixed6 cost));
                              ("model", VStr modelName);
                              ("timestamp",
                               VStr (toISOString (clock E (S (S (ticks w)))))) ])
                      (spread (field r "data"))));
             ("status", field r "status"); ("headers", field r "headers") ]),
     {| trace :=
          trace w ++
          [ EvLog Info "Making Gemini embedding request";
            EvHttpPost (embeddings_url E modelName) requestBody;
            EvLog Info "Gemini embedding request completed";
            EvInsert "api_usage"
              (usage_row userId (VNum n) cost modelName "embedding") ] ++ logs;
        ticks := S (S (S (ticks w))) |}).
Proof.
  intros Hp Hr1 Hr2 Hn Hc Hu.
  destruct (recordUsage_cases E userId (VObj [("totalTokenCount", VNum n)])
              modelName "embedding" cost
              {| trace := trace w ++
                   [ EvLog Info "Making Gemini embedding request";
                     EvHttpPost (embeddings_url E modelName) requestBody;
                     EvLog Info "Gemini embedding request completed" ];
                 ticks := S (S (ticks w)) |} eq_refl) as (logs & Hl & Hrec & _).
  exists logs. split; [exact Hl |].
  unfold generateEmbeddings.
  cbv beta iota zeta delta [try_catch bind await lift log emit throw ret
                            Date_now detach fst snd].
  cbn [trace ticks]. rewrite Hp. cbn [trace ticks].
  rewrite Hn, Hc, !(get_prop_nonnullish r _ Hr1 Hr2), Hu. cbn [trace ticks].
  rewrite <- !app_assoc. cbn [app].
  rewrite Hrec. cbn [logged trace ticks snd].
  rewrite <- !app_assoc. cbn [app]. reflexivity.
Qed.
Lemma calculateCost_embedding_any (n : number) :
  calculateCost (VNum n) (VNum (Fin 0)) "gemini-embedding-001" = Ok NaN.
Proof.
  rewrite (calculateCost_listed _ _ "gemini-embedding-001"
             {| inputTokensPerDollar := per_million 0.15;
                outputTokensPerDollar := Fin 0 |}) by reflexivity.
  cbn [ToNumber inputTokensPerDollar outputTokensPerDollar].
  change (num_div (Fin 0) (Fin 0)) with NaN.
  destruct (num_div n (per_million 0.15)); reflexivity.
Qed.

(** X22.  Every successful embeddings request for 'gemini-embedding-001'
    computes the cost NaN, whatever the size of the request: the body the
    handler hands to [res.json] holds NaN as its [usageMetadata.cost], and
    the row it passes to the usage store's [insert] holds NaN as its cost.
    (What the client and the store receive is the JSON text of these, which
    is not modelled.) *)
Theorem embeddings_cost_is_NaN (E : env) (req : request) (w : world) (r : value) :
  params_model req = "gemini-embedding-001" ->
  truthy (field (user req) "id") = true ->
  req_body req <> VUndefined -> req_body req <> VNull ->
  axios_post E (embeddings_url E "gemini-embedding-001") (req_body req) = Resolves r ->
  r <> VUndefined -> r <> VNull ->
  exists res w' n events,
    embeddings_handler E req w = (Ok res, w') /\
    status res = field r "status" /\
    field (field (body res) "usageMetadata") "cost" = VNum NaN /\
    trace w' = trace w ++ events /\
    In (EvInsert "api_usage"
          (usage_row (field (user req) "id") (VNum n) NaN
                     "gemini-embedding-001" "embedding")) events.
Proof.
  intros Hm Hu Hb1 Hb2 Hp Hr1 Hr2.
  pose proof (embedding_tokens_cases _ Hb1 Hb2) as Hn.
  set (n := if truthy (field (req_body req) "model") then _ else _) in Hn.
  destruct (generateEmbeddings_success E "gemini-embedding-001" (req_body req)
              (field (user req) "id")
              (logged w [EvLog Info "Generate embeddings request"]) r n NaN
              Hp Hr1 Hr2 Hn (calculateCost_embedding_any n) Hu) as (logs & _ & Hg).
  eexists _, _, n, _. split.
  { unfold embeddings_handler, send_proxied.
    cbv beta iota zeta delta [try_catch bind lift log emit ret fst snd].
    rewrite (field_truthy_defined _ _ Hu), Hm.
    cbn [includes embeddingModels existsb String.eqb Ascii.eqb Bool.eqb orb negb].
    change {| trace := trace w ++ [EvLog Info "Generate embeddings request"];
              ticks := ticks w |}
      with (logged w [EvLog Info "Generate embeddings request"]).
    rewrite Hg. cbn [get_prop lookup String.eqb Ascii.eqb Bool.eqb].
    reflexivity. }
  cbn [status body].
  split; [reflexivity |]. split.
  { rewrite field_set_field_same. reflexivity. }
  cbn [logged trace ticks]. rewrite <- !app_assoc. split; [reflexivity |].
  cbn [app In]. auto 10.
Qed.

(** X23.  What an embeddings request is billed for a model the pricing table
    does not list ('text-embedding-004', 'text-multilingual-embedding-002'):
    a body whose [model] is falsy counts as 0 tokens and costs 0; otherwise
    the tokens are a quarter of the length of the body's JSON text, rounded
    up, and the cost is that count over 2,000,000 (the 'gemini-pro' input
    rate). *)
Theorem embedding_billing (requestBody : value) (modelName : string) :
  requestBody <> VUndefined -> requestBody <> VNull ->
  lookup modelName pricing_entries = None ->
  is_inherited_name modelName = false ->
  let L := String.length (JSON_stringify requestBody) in
  exists n cost,
    embedding_tokens requestBody = Ok n /\
    calculateCost (VNum n) (VNum (Fin 0)) modelName = Ok cost /\
    (truthy (field requestBody "model") = false -> n = Fin 0 /\ cost = Fin 0) /\
    (truthy (field requestBody "model") = true ->
     n = num_of_Z (ceil_quarter L) /\
     cost = Fin (Qred (inject_Z (ceil_quarter L) / 2000000))).
Proof.
  intros H1 H2 Hl Hn L.
  eexists _, _. split; [apply (embedding_tokens_cases _ H1 H2) |].
  split; [apply (calculateCost_unlisted _ _ _ Hl Hn) |].
  fold L. cbn [ToNumber].
  destruct (truthy (field requestBody "model")); split; try discriminate; intros _.
  - split; [reflexivity |].
    unfold default_entry. cbn [inputTokensPerDollar outputTokensPerDollar].
    generalize (ceil_quarter L). intros z.
    change (per_million 0.50) with (Fin 2000000).
    change (num_div (Fin 0) (per_million 1.50)) with (Fin 0).
    unfold num_of_Z. cbn [num_div Qis_zero Qnum Z.eqb]. cbn [num_add].
    f_equal. apply Qred_complete. rewrite Qred_correct. ring.
  - split; reflexivity.
Qed.
(** ** errorHandler *)

Lemma classify_error_cases (err : value) (timestamp : string) :
  err <> VUndefined -> err <> VNull ->
  exists code fields,
    classify_error err timestamp = Ok (code, fields) /\
    In code handled_statuses /\
    lookup "stack" fields = None /\
    lookup "requestId" fields = None /\
    (strict_eq_str (field err "name") "ValidationError" = false ->
     exists m, lookup "message" fields = Some (VStr m) /\ In m fixed_messages).
Proof.
  clear. intros H1 H2. unfold classify_error.
  rewrite !(get_prop_nonnullish err _ H1 H2). cbn [rbind].
  repeat match goal with
    | |- context [if ?c then _ else _] => destruct c eqn:?
    end;
    eexists _, _; (split; [reflexivity |]);
    (split; [cbn; tauto |]); (split; [reflexivity |]); (split; [reflexivity |]);
    intros Hv; try discriminate Hv;
    eexists; (split; [reflexivity |]); cbn; tauto.
Qed.

(** X25.  For every thrown value other than undefined and null,
    errorHandler answers, with one of the statuses 400, 401, 403, 404, 429,
    500, 503 and 504; outside development the body carries no stack, and
    unless the error is named 'ValidationError' its message is one of the
    handler's own fixed texts, not the error's. *)
Theorem errorHandler_answers (E : env) (nodeEnv : string) (err : value)
  (req : request) (w : world) :
  err <> VUndefined -> err <> VNull ->
  exists code fields w',
    errorHandler E nodeEnv err req w = (Ok (json code (VObj fields)), w') /\
    In code handled_statuses /\
    (nodeEnv <> "development" ->
     lookup "stack" fields = None /\
     (strict_eq_str (field err "name") "ValidationError" = false ->
      exists m, lookup "message" fields = Some (VStr m) /\ In m fixed_messages)).
Proof.
  intros H1 H2.
  destruct (classify_error_cases err (toISOString (clock E (ticks w))) H1 H2)
    as (code & fields & Hc & Hin & Hs & Hq & Hm).
  unfold errorHandler.
  cbv beta iota zeta delta [bind lift log emit ret Date_now fst snd].
  rewrite !(get_prop_nonnullish err _ H1 H2), get_prop_opt_field.
  cbn [trace ticks]. rewrite Hc. cbn [fst snd].
  destruct (String.eqb nodeEnv "development") eqn:Hd.
  - eexists code, _, _. split; [reflexivity |]. split; [exact Hin |].
    intros Hne. apply String.eqb_eq in Hd. contradiction.
  - eexists code, _, _. split; [reflexivity |]. split; [exact Hin |].
    intros _. destruct (truthy (req_id req)).
    + rewrite !lookup_set_field_other by discriminate. auto.
    + auto.
Qed.
Lemma errorHandler_status (E : env) (nodeEnv : string) (req : request)
  (fields : list (string * value)) (code : Z) :
  (forall timestamp, exists body,
     classify_error (VObj fields) timestamp = Ok (code, body)) ->
  answers_with (errorHandler E nodeEnv (VObj fields) req) code.
Proof.
  intros Hc w. destruct (Hc (toISOString (clock E (ticks w)))) as [body Hb].
  unfold errorHandler.
  cbv beta iota zeta delta [bind lift log emit ret Date_now fst snd].
  cbn [get_prop]. rewrite get_prop_opt_field. cbn [trace ticks].
  rewrite Hb. cbn [fst snd].
  destruct (String.eqb nodeEnv "development"); eexists _, _; split; reflexivity.
Qed.

(** X26.  What errorHandler makes of the module's own error classes: a
    ValidationError is answered 400, an AuthenticationError 401, an
    AuthorizationError 403, a NotFoundError 404 and a RateLimitError 429,
    but a ServiceUnavailableError, like any plain AppError whatever its
    status code, is answered 500; and a RateLimitError constructed with
    retryAfter 0 is reported with retryAfter 3600. *)
Theorem errorHandler_custom_errors (E : env) (nodeEnv : string) (req : request)
  (stack : string) (message : option string) :
  (forall m details,
     answers_with (errorHandler E nodeEnv (ValidationError stack m details) req) 400) /\
  answers_with (errorHandler E nodeEnv (AuthenticationError stack message) req) 401 /\
  answers_with (errorHandler E nodeEnv (AuthorizationError stack message) req) 403 /\
  answers_with (errorHandler E nodeEnv (NotFoundError stack message) req) 404 /\
  (forall retryAfter,
     answers_with (errorHandler E nodeEnv (RateLimitError stack message retryAfter) req)
                  429) /\
  answers_with (errorHandler E nodeEnv (ServiceUnavailableError stack message) req) 500 /\
  (forall m statusCode,
     answers_with (errorHandler E nodeEnv (VObj (AppError stack m statusCode)) req) 500) /\
  (forall w, exists res w',
     errorHandler E nodeEnv (RateLimitError stack message (Some (VNum (Fin 0))))
                  req w = (Ok res, w') /\
     field (body res) "retryAfter" = VNum (num_of_Z 3600)).
Proof.
  repeat split; intros;
    try (apply errorHandler_status; intros; eexists; reflexivity).
  unfold errorHandler.
  cbv beta iota zeta delta [bind lift log emit ret Date_now fst snd].
  cbn [get_prop RateLimitError]. rewrite get_prop_opt_field. cbn [trace ticks].
  destruct (String.eqb nodeEnv "development"), (truthy (req_id req));
    eexists _, _; (split; [reflexivity |]); cbn [body json];
    rewrite ?field_set_field_other by discriminate; reflexivity.
Qed.
(** ** The gRPC proxy *)

Lemma str_includes_step (needle : string) (c : ascii) (rest : string) :
  str_includes needle rest = true -> str_includes needle (String c rest) = true.
Proof. intros H. cbn [str_includes]. rewrite H. apply orb_true_r. Qed.

Lemma str_includes_prefix (needle hay : string) :
  String.prefix needle hay = true -> str_includes needle hay = true.
Proof. intros H. destruct hay; cbn [str_includes]; rewrite H; reflexivity. Qed.

Lemma prefix_includes (a b s : string) :
  String.prefix (a ++ b) s = true -> str_includes b s = true.
Proof.
  revert s. induction a as [| c a IH]; intros s H.
  - apply str_includes_prefix. exact H.
  - destruct s as [| c' s]; [discriminate H |].
    cbn [String.append String.prefix] in H.
    destruct (ascii_dec c c'); [| discriminate H].
    apply str_includes_step, IH. exact H.
Qed.

Lemma str_includes_app (a b s : string) :
  str_includes (a ++ b) s = true -> str_includes b s = true.
Proof.
  induction s as [| c s IH]; cbn [str_includes]; intros H.
  - rewrite orb_false_r in H. apply (prefix_includes a b ""). exact H.
  - apply orb_true_iff in H as [H | H].
    + apply (prefix_includes a b (String c s)). exact H.
    + fold (str_includes b (String c s)). apply str_includes_step, IH. exact H.
Qed.

(** X27.  The endpoint the gRPC proxy derives from a method path is never
    the streaming one: a path that contains 'StreamGenerateContent' contains
    'GenerateContent', which is tested first, so such a call goes to
    generateContent; the only endpoints ever chosen are generateContent and
    countTokens. *)
Theorem googleEndpoint_never_streams (grpcPath model : string) :
  (str_includes "StreamGenerateContent" grpcPath = true ->
   googleEndpoint grpcPath model = Ok ("models/" ++ model ++ ":generateContent")%string) /\
  (forall endpoint,
     googleEndpoint grpcPath model = Ok endpoint ->
     endpoint = ("models/" ++ model ++ ":generateContent")%string \/
     endpoint = ("models/" ++ model ++ ":countTokens")%string).
Proof.
  unfold googleEndpoint. split.
  - intros H. rewrite (str_includes_app "Stream" "GenerateContent" _ H). reflexivity.
  - intros endpoint.
    destruct (str_includes "GenerateContent" grpcPath) eqn:Hg.
    + intros [= <-]. left. reflexivity.
    + destruct (str_includes "StreamGenerateContent" grpcPath) eqn:Hs.
      * rewrite (str_includes_app "Stream" "GenerateContent" _ Hs) in Hg.
        discriminate Hg.
      * destruct (str_includes "CountTokens" grpcPath).
        -- intros [= <-]. right. reflexivity.
        -- discriminate.
Qed.

Lemma ensures_authenticateCall (E : env) (authHeaders : list string) :
  ensures (authenticateCall E authHeaders) (fun u => truthy u = true) is_object.
Proof.
  unfold authenticateCall.
  apply ensures_try_catch with (Y := is_object).
  - destruct authHeaders as [| authHeader rest]; [apply ensures_throw; objects |].
    ens_step; [apply ensures_throw; objects |].
    cbv zeta. eapply ensures_bind;
      [apply ensures_verifyToken | intros r (u & e & -> & _)].
    repeat ens_step; [objects |].
    change (field (token_result u e) "user") with u in *.
    apply orb_false_elim in Heqb0 as [_ Hu]. apply negb_false_iff in Hu. exact Hu.
  - intros e He. repeat ens_step. exact He.
Qed.

(** X28.  The gRPC proxy authenticates a call from the token alone: it
    returns a truthy user or throws an error object, and it never reads or
    writes the profile table, so that the [is_active] flag that
    authenticateUser enforces plays no part here. *)
Theorem authenticateCall_ignores_profile (E : env) (authHeaders : list string)
  (w : world) :
  (exists events,
     trace (snd (authenticateCall E authHeaders w)) = trace w ++ events /\
     existsb is_profile_read events = false) /\
  match fst (authenticateCall E authHeaders w) with
  | Ok u => truthy u = true
  | Throw e => exists fields, e = VObj fields
  end.
Proof.
  split; [| exact (ensures_authenticateCall E authHeaders w)].
  assert (H : emits_at_most is_profile_read 0 (authenticateCall E authHeaders)).
  { unfold authenticateCall, verifyToken, read_error. solve [eam0]. }
  destruct (H w) as (events & Ht & Hc). exists events.
  split; [exact Ht | exact (count_0 _ _ Hc)].
Qed.
(** ** The transparent proxy route *)

Lemma lookup_delete_field_same (k : string) (l : list (string * value)) :
  lookup k (delete_field k l) = None.
Proof.
  induction l as [| [k' v] l IH]; cbn [delete_field lookup]; [reflexivity |].
  destruct (String.eqb k k') eqn:Hk; cbn [lookup]; rewrite ?Hk; exact IH.
Qed.

Lemma lookup_delete_field_other (k k' : string) (l : list (string * value)) :
  k' <> k -> lookup k' (delete_field k l) = lookup k' l.
Proof.
  intros Hne. induction l as [| [k0 v] l IH]; cbn [delete_field lookup];
    [reflexivity |].
  destruct (String.eqb k k0) eqn:Hk; cbn [lookup].
  - apply String.eqb_eq in Hk. subst k0.
    apply String.eqb_neq in Hne. rewrite Hne. exact IH.
  - rewrite IH. reflexivity.
Qed.

(** X29.  The headers the transparent proxy sends upstream never hold the
    client's [authorization] (the bearer token) nor its [host]; they hold
    the proxy's User-Agent, and every other header of the request
    unchanged. *)
Theorem forwardHeaders_strips_credentials (headers : list (string * value))
  (agent : string) :
  lookup "authorization" (forwardHeaders headers agent) = None /\
  lookup "host" (forwardHeaders headers agent) = None /\
  lookup "User-Agent" (forwardHeaders headers agent) = Some (VStr agent) /\
  (forall k, k <> "authorization" -> k <> "host" -> k <> "User-Agent" ->
     lookup k (forwardHeaders headers agent) = lookup k headers).
Proof.
  unfold forwardHeaders. repeat split.
  - rewrite lookup_set_field_other by discriminate.
    apply lookup_delete_field_same.
  - rewrite lookup_set_field_other by discriminate.
    rewrite lookup_delete_field_other by discriminate.
    apply lookup_delete_field_same.
  - apply lookup_set_field_same.
  - intros k H1 H2 H3. rewrite lookup_set_field_other by exact H3.
    rewrite !lookup_delete_field_other by assumption. reflexivity.
Qed.
(** ** Which routes the quota guard covers *)

Ltac eam0d :=
  repeat match goal with
    | |- emits_at_most _ _ (detach _ _) => apply eam_detach
    | |- emits_at_most ?p _ (bind _ _) => apply (eam_bind p 0 0); [| intros ? ]
    | |- emits_at_most ?p _ (try_catch _ _) =>
        apply (eam_try_catch p 0 0); [| intros ? ]
    | |- emits_at_most _ _ (let _ := _ in _) => cbv zeta
    | |- emits_at_most _ _ (match ?c with _ => _ end) => destruct c
    | |- _ => progress eam0
    end.

Lemma writes_generateEmbeddings (E : env) (modelName : string)
  (requestBody userId : value) :
  emits_at_most is_usage_write 1 (generateEmbeddings E modelName requestBody userId).
Proof.
  unfold generateEmbeddings, gemini_error, recordUsage, svc_recordUsage.
  eam1.
Qed.

Lemma writes_embeddings_handler (E : env) (req : request) :
  emits_at_most is_usage_write 1 (embeddings_handler E req).
Proof.
  unfold embeddings_handler, send_failure.
  apply (eam_try_catch _ 1 0); [| intros ?; solve [eam0] ].
  cbv zeta.
  apply (eam_bind _ 0 1); [solve [eam0] | intros ? ].
  destruct (negb _); [apply eam_weaken, eam_ret |].
  apply (eam_bind _ 0 1); [solve [eam0] | intros ? ].
  apply (eam_bind _ 1 0);
    [apply writes_generateEmbeddings | intros ?; unfold send_proxied; solve [eam0] ].
Qed.

(** X24.  Whatever the request and the collaborators' answers, the
    embeddings route answers without ever querying the limits store, and
    writes at most one usage record: embeddings are billed but not subject
    to the quota guard. *)
Theorem embeddings_route_unguarded (E : env) (req : request) (w : world) :
  exists res w' events,
    embeddings_route E req w = (Ok res, w') /\
    trace w' = trace w ++ events /\
    existsb is_limits_query events = false /\
    (usage_writes events <= 1)%nat.
Proof.
  destruct (ensures_run (embeddings_route E req) anything) with (w := w)
    as (res & w' & H & _).
  { unfold embeddings_route. apply ensures_run_chain.
    - repeat constructor; intros r.
      + apply (ensures_any _ _ _ (ensures_authenticateUser E r)).
      + apply (ensures_any _ _ _ (ensures_validateModel r)).
    - apply ensures_embeddings_handler. }
  assert (Hs : emits_at_most is_limits_query 0 (embeddings_route E req)).
  { unfold embeddings_route. apply eam_run_chain.
    - repeat constructor; intros r; stage_silent.
    - intros r.
      unfold embeddings_handler, generateEmbeddings, gemini_error, send_proxied,
        send_failure, recordUsage, svc_recordUsage.
      solve [eam0d]. }
  assert (Hu : emits_at_most is_usage_write 1 (embeddings_route E req)).
  { unfold embeddings_route. cbn [run_chain].
    apply (eam_bind _ 0 1); [stage_silent |].
    intros [r1 | ?]; [| apply eam_weaken, eam_ret].
    apply (eam_bind _ 0 1); [stage_silent |].
    intros [r2 | ?]; [| apply eam_weaken, eam_ret].
    apply writes_embeddings_handler. }
  destruct (Hs w) as (events & Ht & Hc). rewrite H in Ht. cbn [snd] in Ht.
  destruct (Hu w) as (events' & Ht' & Hc'). rewrite H in Ht'. cbn [snd] in Ht'.
  rewrite Ht in Ht'. apply app_inv_head in Ht'. subst events'.
  exists res, w', events. repeat split; [exact H | exact Ht | exact (count_0 _ _ Hc) |].
  exact Hc'.
Qed.
Lemma guarded_split (ev1 : list event) (q : event) (tail pre post : list event)
  (e : event) :
  existsb is_upstream_call ev1 = false ->
  is_limits_query q = true ->
  ev1 ++ q :: tail = pre ++ e :: post ->
  is_upstream_call e = true ->
  existsb is_limits_query pre = true.
Proof.
  intros H1 Hq. revert pre. induction ev1 as [| x ev1 IH]; intros pre Heq He.
  - destruct pre as [| y pre]; cbn [app] in Heq; injection Heq as -> _.
    + destruct e; discriminate.
    + cbn [existsb]. rewrite Hq. reflexivity.
  - cbn [existsb] in H1. apply orb_false_elim in H1 as [Hx H1].
    destruct pre as [| y pre]; cbn [app] in Heq; injection Heq as -> Heq.
    + congruence.
    + cbn [existsb]. rewrite (IH H1 pre Heq He). apply orb_true_r.
Qed.

Lemma extends_after {A B} (m : M A) (k : A -> M B) (h : value -> M B)
  (w : world) (q : event) (logs : list event) :
  trace (snd (m w)) = trace w ++ q :: logs ->
  (forall a, emits_at_most no_event 0 (k a)) ->
  (forall e, emits_at_most no_event 0 (h e)) ->
  exists rest,
    trace (snd (try_catch (bind m k) h w)) = trace w ++ q :: rest.
Proof.
  intros Hm Hk Hh. unfold try_catch, bind.
  destruct (m w) as [[a | e] w1]; cbn [snd] in Hm.
  - destruct (Hk a w1) as (ev & Hev & _).
    destruct (k a w1) as [[b | e] w2]; cbn [snd] in Hev |- *.
    + exists (logs ++ ev). rewrite Hev, Hm, <- app_assoc. reflexivity.
    + destruct (Hh e w2) as (ev' & Hev' & _).
      exists (logs ++ ev ++ ev'). rewrite Hev', Hev, Hm, <- !app_assoc. reflexivity.
  - destruct (Hh e w1) as (ev' & Hev' & _).
    exists (logs ++ ev'). rewrite Hev', Hm, <- app_assoc. reflexivity.
Qed.

Lemma checkUserLimits_queries (E : env) (req : request) (w : world) :
  truthy (user req) = true ->
  exists rest,
    trace (snd (checkUserLimits E req w)) =
    trace w ++ limits_call (field (user req) "id") :: rest.
Proof.
  intros Hu.
  destruct (svc_checkUserLimits_cases E (field (user req) "id") w)
    as (logs & _ & Hw & _).
  unfold checkUserLimits. rewrite Hu. cbn [negb].
  assert (Hb : forall (k : value -> M mw),
             bind (lift (get_prop (user req) "id")) k = k (field (user req) "id")).
  { intros k. unfold bind, lift. rewrite (get_prop_truthy _ _ Hu). reflexivity. }
  rewrite Hb. eapply extends_after.
  - rewrite Hw. reflexivity.
  - intros limits. solve [eam0].
  - intros e. unfold read_error. solve [eam0].
Qed.

Lemma ensures_entry_stages (E : env) (req : request) :
  ensures (run_stages [authenticateUser E; validateModel;
                       validateRequest generateContentSchema] req)
    (fun out => match out with
                | Next req' => truthy (user req') = true
                | Sent _ => True
                end) nothing.
Proof.
  cbn [run_stages].
  eapply ensures_bind; [apply ensures_authenticateUser |].
  intros [req1 | res] H1; [| apply ensures_ret; exact I].
  destruct H1 as (u & p & -> & Hu & _).
  eapply ensures_bind; [apply ensures_validateModel |].
  intros [req2 | res] H2; [| apply ensures_ret; exact I]. destruct H2 as [-> _].
  eapply ensures_bind; [apply ensures_validateRequest |].
  intros [req3 | res] H3; [| apply ensures_ret; exact I]. destruct H3 as [-> _].
  apply ensures_ret. exact Hu.
Qed.

Lemma extends_after_quota_guard (E : env) (req : request) :
  emits_at_most no_event 0 (after_quota_guard E req).
Proof.
  unfold after_quota_guard. cbn [run_chain].
  unfold estimateTokenUsage, generateContent_handler, generateContent,
    upstream_error, extractTokenUsage, recordUsage, svc_recordUsage.
  solve [eam0d].
Qed.

Lemma bind_trace {A B} (m : M A) (k : A -> M B) (w : world) :
  trace (snd (bind m k w)) =
  match m w with
  | (Ok a, w1) => trace (snd (k a w1))
  | (Throw _, w1) => trace w1
  end.
Proof. unfold bind. destruct (m w) as [[a | e] w1]; reflexivity. Qed.

(** X18.  On the generateContent route the quota guard is never bypassed:
    in the trace of any request, every call to the upstream API comes after
    a query of the limits store. *)
Theorem upstream_call_after_limits_query (E : env) (req : request) (w : world) :
  exists events,
    trace (snd (generateContent_route E req w)) = trace w ++ events /\
    forall pre e post,
      events = pre ++ e :: post -> is_upstream_call e = true ->
      existsb is_limits_query pre = true.
Proof.
  rewrite route_after_entry, bind_trace.
  pose proof (ensures_entry_stages E req w) as Ho.
  destruct (entry_stages_silent E req w) as (ev1 & Ht1 & Hc1).
  apply count_0 in Hc1.
  assert (Hup : existsb is_upstream_call ev1 = false).
  { clear - Hc1. induction ev1 as [| x l IH]; [reflexivity |].
    cbn [existsb] in *. apply orb_false_elim in Hc1 as [Hx Hl].
    rewrite (IH Hl). destruct x; try reflexivity; discriminate Hx. }
  destruct (run_stages _ req w) as [[[req' | res] | e] w1];
    cbn [fst snd] in Ho, Ht1 |- *.
  - unfold guarded_pipeline. cbn [run_chain]. rewrite bind_trace.
    destruct (checkUserLimits_queries E req' w1 Ho) as (rest & Hq).
    destruct (checkUserLimits E req' w1) as [[[req2 | res] | e] w2];
      cbn [snd] in Hq.
    + destruct (extends_after_quota_guard E req2 w2) as (ev3 & Ht3 & _).
      unfold after_quota_guard in Ht3. cbn [run_chain] in Ht3.
      exists (ev1 ++ limits_call (field (user req') "id") :: rest ++ ev3).
      split.
      { rewrite Ht3, Hq, Ht1, <- !app_assoc. reflexivity. }
      intros pre e0 post Heq He.
      exact (guarded_split ev1 (limits_call _) _ pre post e0 Hup eq_refl Heq He).
    + exists (ev1 ++ limits_call (field (user req') "id") :: rest).
      split.
      { cbn [ret snd]. rewrite Hq, Ht1, <- !app_assoc. reflexivity. }
      intros pre e0 post Heq He.
      exact (guarded_split ev1 (limits_call _) _ pre post e0 Hup eq_refl Heq He).
    + exists (ev1 ++ limits_call (field (user req') "id") :: rest).
      split.
      { cbn [snd]. rewrite Hq, Ht1, <- !app_assoc. reflexivity. }
      intros pre e0 post Heq He.
      exact (guarded_split ev1 (limits_call _) _ pre post e0 Hup eq_refl Heq He).
  - exists ev1. split; [exact Ht1 |].
    intros pre e0 post -> He. rewrite existsb_app in Hup. cbn [existsb] in Hup.
    rewrite He in Hup. rewrite orb_true_r in Hup. discriminate Hup.
  - exists ev1. split; [exact Ht1 |].
    intros pre e0 post -> He. rewrite existsb_app in Hup. cbn [existsb] in Hup.
    rewrite He in Hup. rewrite orb_true_r in Hup. discriminate Hup.
Qed.
(** ** Token Estimator: bodies without contents *)

(** X10.  For a body object without [contents] the estimator falls back on
    [prompt]: a string prompt of length L gives ceil(L / 4) + 100, and a
    body with neither gives the bare allowance of 100. *)
Theorem estimate_input_without_contents (fields : list (string * value)) :
  lookup "contents" fields = None ->
  (lookup "prompt" fields = None ->
   estimate_input (VObj fields) = Ok (num_of_Z 100)) /\
  (forall s, lookup "prompt" fields = Some (VStr s) ->
   estimate_input (VObj fields) =
   Ok (num_of_Z (ceil_quarter (String.length s) + 100))).
Proof.
  intros Hc. unfold estimate_input. cbn [get_prop rbind]. rewrite Hc.
  cbn [inherited is_inherited_name existsb object_prototype_names String.eqb
       Ascii.eqb Bool.eqb orb truthy andb].
  split.
  - intros ->. reflexivity.
  - intros s ->. destruct (truthy (VStr s)) eqn:Hs.
    + rewrite text_tokens_string. cbn [rbind].
      change (Fin 100) with (num_of_Z 100). rewrite num_add_Z. reflexivity.
    + apply truthy_string in Hs. subst s. reflexivity.
Qed.
(** ** The generateContent route: answers given without an upstream call *)

Section AtLeastOne.
Context {A B : Type}.
Variable p : event -> bool.

Lemma some_bind_l (m : M A) (k : A -> M B) :
  emits_some p m -> (forall a, emits_at_most no_event 0 (k a)) ->
  emits_some p (bind m k).
Proof.
  intros Hm Hk w. unfold bind. destruct (Hm w) as (ev & Ht & He).
  destruct (m w) as [[a | e] w1]; cbn [snd] in Ht |- *.
  - destruct (Hk a w1) as (ev' & Ht' & _). exists (ev ++ ev').
    rewrite Ht', Ht, <- app_assoc, existsb_app, He. auto.
  - exists ev. auto.
Qed.

Lemma some_bind_r (m : M A) (k : A -> M B) (Q : A -> Prop) :
  ensures m Q nothing -> emits_at_most no_event 0 m ->
  (forall a, Q a -> emits_some p (k a)) ->
  emits_some p (bind m k).
Proof.
  intros Hq Hm Hk w. unfold bind. specialize (Hq w).
  destruct (Hm w) as (ev & Ht & _).
  destruct (m w) as [[a | e] w1]; cbn [fst snd] in Hq, Ht |- *; [| destruct Hq].
  destruct (Hk a Hq w1) as (ev' & Ht' & He'). exists (ev ++ ev').
  rewrite Ht', Ht, <- app_assoc, existsb_app, He', orb_true_r. auto.
Qed.

Lemma some_try_catch (m : M A) (h : value -> M A) :
  emits_some p m -> (forall e, emits_at_most no_event 0 (h e)) ->
  emits_some p (try_catch m h).
Proof.
  intros Hm Hh w. unfold try_catch. destruct (Hm w) as (ev & Ht & He).
  destruct (m w) as [[a | e] w1]; cbn [snd] in Ht |- *.
  - exists ev. auto.
  - destruct (Hh e w1) as (ev' & Ht' & _). exists (ev ++ ev').
    rewrite Ht', Ht, <- app_assoc, existsb_app, He. auto.
Qed.

End AtLeastOne.

Lemma some_await (p : event -> bool) (ev : event) (c : call) :
  p ev = true -> emits_some p (await ev c).
Proof.
  intros Hp w. exists [ev]. unfold await. run.
  destruct c; cbn [snd trace existsb]; rewrite Hp; auto.
Qed.

Lemma generateContent_calls_upstream (E : env) (modelName : string)
  (requestBody userId : value) (requestType : string) :
  emits_some is_upstream_call
    (generateContent E modelName requestBody userId requestType).
Proof.
  unfold generateContent. apply some_try_catch.
  - cbv zeta.
    apply (some_bind_r _ _ _ anything);
      [apply ensures_log; exact I | solve [eam0] | intros _ _].
    apply (some_bind_r _ _ _ anything);
      [apply ensures_Date_now; intros; exact I | solve [eam0] | intros _ _].
    apply some_bind_l; [apply some_await; reflexivity |].
    intros response. unfold extractTokenUsage, recordUsage, svc_recordUsage.
    solve [eam0d].
  - intros e. unfold upstream_error. solve [eam0].
Qed.

Lemma handler_calls_upstream (E : env) (req : request) :
  user req <> VUndefined -> user req <> VNull ->
  emits_some is_upstream_call (generateContent_handler E req).
Proof.
  intros H1 H2. unfold generateContent_handler. apply some_try_catch.
  - cbv zeta.
    apply (some_bind_r _ _ _ anything).
    { intros w. cbn [lift fst]. rewrite (get_prop_nonnullish _ _ H1 H2). exact I. }
    { solve [eam0]. }
    intros userId _.
    apply (some_bind_r _ _ _ anything);
      [apply ensures_log; exact I | solve [eam0] | intros _ _].
    apply some_bind_l; [apply generateContent_calls_upstream |].
    intros r. solve [eam0].
  - intros e. solve [eam0].
Qed.
Lemma gated_stage (m : M mw) (k : request -> M response) (Q : mw -> Prop) :
  ensures m Q nothing -> emits_at_most no_event 0 m ->
  (forall res, Q (Sent res) ->
     exists code, In code gate_statuses /\ status res = VNum (num_of_Z code)) ->
  (forall req', Q (Next req') -> gated (k req')) ->
  gated (bind m (fun r => match r with
                          | Next req' => k req'
                          | Sent res => ret res
                          end)).
Proof.
  intros Hq Hm Hs Hk w. unfold bind. specialize (Hq w).
  destruct (Hm w) as (ev & Ht & _).
  destruct (m w) as [[[req' | res] | e] w1]; cbn [fst snd] in Hq, Ht |- *;
    [| | destruct Hq].
  - destruct (Hk req' Hq w1) as (ev' & res & Ht' & Hr & Hc).
    exists (ev ++ ev'), res. rewrite Ht', Ht, <- app_assoc.
    split; [reflexivity |]. split; [exact Hr |].
    destruct Hc as [Hc | Hc]; [left | right; exact Hc].
    rewrite existsb_app, Hc. apply orb_true_r.
  - exists ev, res. cbn [ret fst snd]. split; [exact Ht |].
    split; [reflexivity |]. right. apply Hs. exact Hq.
Qed.

Lemma gated_handler (E : env) (req : request) :
  user req <> VUndefined -> user req <> VNull ->
  gated (generateContent_handler E req).
Proof.
  intros H1 H2 w.
  destruct (handler_calls_upstream E req H1 H2 w) as (ev & Ht & He).
  pose proof (ensures_generateContent_handler E req w) as Hr.
  destruct (fst (generateContent_handler E req w)) as [res | e]; [| destruct Hr].
  exists ev, res. auto.
Qed.

Lemma truthy_nonnullish (v : value) :
  truthy v = true -> v <> VUndefined /\ v <> VNull.
Proof. intros H. split; intros ->; discriminate H. Qed.

(** X17.  The generateContent route always answers, and an answer given
    without a call to the upstream API comes from one of the gates: its
    status is 400, 401, 403, 429 or 500. *)
Theorem generateContent_route_gates (E : env) (req : request) (w : world) :
  exists res w' events,
    generateContent_route E req w = (Ok res, w') /\
    trace w' = trace w ++ events /\
    (existsb is_upstream_call events = false ->
     exists code, In code gate_statuses /\ status res = VNum (num_of_Z code)).
Proof.
  assert (H : gated (generateContent_route E req)).
  { unfold generateContent_route. cbn [run_chain].
    apply (gated_stage _ _ _ (ensures_authenticateUser E req)); [stage_silent | |].
    { intros res Hin. cbn [auth_outcome In] in Hin. unfold gate_statuses.
      destruct Hin as [<- | [<- | [<- | [<- | []]]]]; eexists;
        (split; [| reflexivity]); cbn [In]; auto 10. }
    intros r1 (u & p & -> & Hu & _).
    apply (gated_stage _ _ _ (ensures_validateModel _)); [stage_silent | |].
    { intros res Hs. exists 400%Z. split; [cbn; auto | exact Hs]. }
    intros r2 [-> _].
    apply (gated_stage _ _ _ (ensures_validateRequest _ _)); [stage_silent | |].
    { intros res Hs. exists 400%Z. split; [cbn; auto | exact Hs]. }
    intros r3 [-> _].
    apply (gated_stage _ _ _ (ensures_checkUserLimits E _)); [stage_silent | |].
    { intros res [Hs _]. exists 429%Z. split; [cbn; auto | exact Hs]. }
    intros r4 Hr4.
    assert (Hu4 : user r4 = u).
    { destruct Hr4 as [-> | (limits & -> & _)]; reflexivity. }
    apply (gated_stage _ _ _ (ensures_estimateTokenUsage _)); [stage_silent | |].
    { intros res [t Ht]. discriminate Ht. }
    intros r5 [t Ht]. injection Ht as ->.
    destruct (truthy_nonnullish u Hu) as [Hn1 Hn2].
    apply gated_handler; cbn [user set_estimatedTokens]; rewrite Hu4; assumption. }
  destruct (H w) as (events & res & Ht & Hr & Hc).
  destruct (generateContent_route E req w) as [r w'] eqn:Hrun.
  cbn [fst snd] in Ht, Hr. subst r.
  exists res, w', events. repeat split; [exact Ht |].
  intros Hn. destruct Hc as [Hc | Hc]; [congruence | exact Hc].
Qed.
(** ** The limits store is down *)

Lemma checkUserLimits_failure_passes (E : env) (req : request) (w w1 : world)
  (e : value) :
  truthy (user req) = true ->
  svc_checkUserLimits E (field (user req) "id") w = (Throw e, w1) ->
  checkUserLimits E req w =
  (Ok (Next req), logged w1 [EvLog Err "Error checking user limits"]).
Proof.
  intros Hu Hq.
  pose proof (svc_checkUserLimits_throws _ _ _ _ _ Hq) as He.
  unfold checkUserLimits. rewrite Hu. cbn [negb]. run.
  rewrite (get_prop_truthy _ "id" Hu), Hq.
  destruct (get_prop_opt_ok (user req) "id") as [x ->].
  rewrite !(get_prop_readable e _ He). reflexivity.
Qed.

(** A rejected query makes the limits service throw, whatever the rejection
    carries. *)
Lemma svc_checkUserLimits_rejected (E : env) (userId err : value) (w : world) :
  store_rpc E "check_user_limits" (VObj [("p_user_id", userId)]) = Rejects err ->
  exists e logs,
    svc_checkUserLimits E userId w = (Throw e, logged w (limits_call userId :: logs)).
Proof.
  intros H. unfold svc_checkUserLimits. run. rewrite H. tidy.
  destruct (get_prop_defined err "message") as [-> | [[m ->] _]]; tidy;
    eexists _, _; reflexivity.
Qed.

(** X30.  While the limits store is unavailable no quota is enforced: the
    request of an authenticated user passes the guard and the estimator and
    is sent to the upstream API, and it is answered. *)
Theorem limits_outage_reaches_upstream (E : env) (req : request) (w : world)
  (err : value) :
  truthy (user req) = true ->
  store_rpc E "check_user_limits" (limits_args req) = Rejects err ->
  exists res w' events,
    guarded_pipeline E req w = (Ok res, w') /\
    trace w' = trace w ++ events /\
    existsb is_upstream_call events = true.
Proof.
  intros Hu Hs.
  destruct (svc_checkUserLimits_rejected E (field (user req) "id") err w Hs)
    as (e0 & qlogs & Hq).
  pose proof (checkUserLimits_failure_passes E req w _ _ Hu Hq) as Hg.
  rewrite (guarded_pipeline_next _ _ _ _ _ Hg).
  unfold after_quota_guard. cbn [run_chain]. unfold bind.
  set (w2 := logged _ [EvLog Err "Error checking user limits"]).
  destruct (ensures_run _ _ (ensures_estimateTokenUsage req) w2)
    as (out & w3 & He & t & ->).
  assert (Ht3 : exists ev, trace w3 = trace w2 ++ ev).
  { assert (Hx : emits_at_most no_event 0 (estimateTokenUsage req)) by stage_silent.
    destruct (Hx w2) as (ev & Hev & _). rewrite He in Hev. eauto. }
  destruct Ht3 as (ev3 & Ht3). rewrite He.
  destruct (truthy_nonnullish _ Hu) as [Hn1 Hn2].
  destruct (handler_calls_upstream E (set_estimatedTokens req t) Hn1 Hn2 w3)
    as (ev4 & Ht4 & Hup).
  pose proof (ensures_generateContent_handler E (set_estimatedTokens req t) w3) as Hr.
  destruct (generateContent_handler E (set_estimatedTokens req t) w3) as [[res | e] w4];
    cbn [fst snd] in Hr, Ht4; [| destruct Hr].
  eexists res, w4, _. split; [reflexivity |]. split.
  - rewrite Ht4, Ht3. unfold w2. cbn [logged trace]. rewrite <- !app_assoc.
    reflexivity.
  - rewrite !existsb_app, Hup. rewrite !orb_true_r. reflexivity.
Qed.

End Proxy.

(** * The properties on sample inputs *)

(** C3: a listed model id ("hello" sent to 'gemini-1.5-flash', 6 prompt and
    3 output tokens) and the formula. *)
Lemma calculateCost_formula_witness :
  is_inherited_name "gemini-1.5-flash" = false /\
  calculateCost sample_ToNumber (tokens 6) (tokens 3) "gemini-1.5-flash" =
  Ok (cost_formula 6 3 "gemini-1.5-flash").
Proof.
  split; [reflexivity |].
  apply (calculateCost_formula sample_ToNumber 6 3 "gemini-1.5-flash").
  reflexivity.
Defined.

(** The hypothesis of C3 is needed only off the routes: on the twelve names
    that the pricing table inherits from Object.prototype, such as
    'constructor', the lookup finds the inherited built-in, the fallback to
    the default entry is not taken and the cost is NaN. *)
Remark calculateCost_inherited_name :
  lookup "constructor" pricing_entries = None /\
  includes allowedModels "constructor" = false /\
  calculateCost sample_ToNumber (tokens 1) (tokens 1) "constructor" = Ok NaN.
Proof.
  split; [reflexivity |]. split; reflexivity.
Qed.

(** C1: a snapshot inside the hourly ceiling and over both daily ceilings is
    answered for the daily token ceiling, and the route of the request holds
    no call to the upstream API and no usage record. *)
Lemma quota_guard_rejects_witness :
  let E := deployment verified (rows [snapshot_over_tokens]) in
  let entry := [ EvLog Debug "Starting token verification";
                 EvGetUser false "token-1";
                 EvLog Debug "Primary token verification successful";
                 EvSelect "user_profiles" (VStr "u-1");
                 EvLog Info "User authenticated successfully" ] in
  let req := set_principal bearer_request alice alice_profile in
  let res := quota_response sample_parseFloat sample_toISOString snapshot_over_tokens
               DailyTokens 1700000000000 in
  (truthy (user req) = true /\
   svc_checkUserLimits E (field (user req) "id") (logged w0 entry) =
     (Ok snapshot_over_tokens, logged w0 (entry ++ [limits_call (VStr "u-1")])) /\
   first_violated snapshot_over_tokens = Some DailyTokens /\
   run_stages [authenticateUser E; validateModel; validateRequest sample_schema]
     bearer_request w0 = (Ok (Next req), logged w0 entry)) /\
  generateContent_route sample_ToNumber sample_parseFloat sample_toISOString
    sample_toFixed sample_schema E bearer_request w0 =
  (Ok res,
   tick (logged w0 (entry ++ [limits_call (VStr "u-1")]))
     [EvLog Info "Checking user limits"; EvLog Warn "User exceeded daily token limit"]) /\
  status res = VNum (num_of_Z 429).
Proof.
  cbv zeta.
  split; [split; [reflexivity | split; [reflexivity | split; reflexivity]] |].
  pose proof
    (quota_guard_rejects sample_ToNumber sample_parseFloat sample_toISOString
       sample_toFixed sample_schema (deployment verified (rows [snapshot_over_tokens]))
       (set_principal bearer_request alice alice_profile)
       (logged w0 [ EvLog Debug "Starting token verification";
                    EvGetUser false "token-1";
                    EvLog Debug "Primary token verification successful";
                    EvSelect "user_profiles" (VStr "u-1");
                    EvLog Info "User authenticated successfully" ])
       (logged w0 [ EvLog Debug "Starting token verification";
                    EvGetUser false "token-1";
                    EvLog Debug "Primary token verification successful";
                    EvSelect "user_profiles" (VStr "u-1");
                    EvLog Info "User authenticated successfully";
                    limits_call (VStr "u-1") ])
       snapshot_over_tokens DailyTokens eq_refl eq_refl eq_refl) as H.
  cbv zeta in H.
  destruct H as (_ & _ & Hstatus & _ & _ & _ & Hroute).
  split; [exact (proj1 (Hroute bearer_request w0 eq_refl)) | exact Hstatus].
Defined.

(** C2: the store is down and the request goes on. *)
Lemma checkUserLimits_fail_open_witness :
  (truthy (user authenticated_request) = true /\
   svc_checkUserLimits (deployment verified store_down)
     (field (user authenticated_request) "id") w0 =
     (Throw (VObj [("message", VStr "fetch failed")]),
      logged w0 [limits_call (VStr "u-1"); EvLog Err "Error in checkUserLimits"])) /\
  checkUserLimits sample_parseFloat sample_toISOString
    (deployment verified store_down) authenticated_request w0 =
  (Ok (Next authenticated_request),
   logged (logged w0 [limits_call (VStr "u-1"); EvLog Err "Error in checkUserLimits"])
     [EvLog Err "Error checking user limits"]).
Proof.
  split; [split; reflexivity |].
  exact (proj1
    (checkUserLimits_fail_open sample_ToNumber sample_parseFloat sample_toISOString
       sample_toFixed (deployment verified store_down) authenticated_request w0
       (logged w0 [limits_call (VStr "u-1"); EvLog Err "Error in checkUserLimits"])
       (VObj [("message", VStr "fetch failed")]) eq_refl eq_refl)).
Defined.

(** C6: the single text part "hello" is estimated at ceil(5/4) + 100 = 102
    input tokens and 204 in total. *)
Lemma estimateTokenUsage_estimate_witness :
  req_body authenticated_request =
    body_value [[ {| text := Some "hello"; inlineData := None |} ]] [] /\
  estimateTokenUsage sample_ToNumber authenticated_request w0 =
    (Ok (Next (set_estimatedTokens authenticated_request
                 (estimate_value (num_of_Z 102) (num_of_Z 204)))),
     logged w0 [EvLog Info "Token usage estimated"]) /\
  input_estimate [[ {| text := Some "hello"; inlineData := None |} ]] =
    (ceil_quarter (String.length "hello") + 100)%Z.
Proof.
  split; [reflexivity |].
  split.
  - exact (proj1
      (estimateTokenUsage_estimate sample_ToNumber authenticated_request
         [[ {| text := Some "hello"; inlineData := None |} ]] [] w0 eq_refl)).
  - exact (proj2
      (estimateTokenUsage_estimate sample_ToNumber authenticated_request
         [[ {| text := Some "hello"; inlineData := None |} ]] [] w0 eq_refl)
      "hello" eq_refl).
Defined.

(** C7: a response without usage metadata whose first candidate says
    "Hi there", whose second was withheld, whose third has a content
    without parts and whose fourth says "Bye" is counted as 0 prompt and
    2 + 1 output tokens; a [null] response gives the all-zero usage. *)
Lemma extractTokenUsage_spec_witness :
  let said := fun s =>
    {| cand_content := Some (Parts [ {| text := Some s; inlineData := None |} ]);
       cand_finishReason := "STOP" |} in
  let candidates :=
    Some [ said "Hi there";
           {| cand_content := None; cand_finishReason := "SAFETY" |};
           {| cand_content := Some NoParts; cand_finishReason := "MAX_TOKENS" |};
           said "Bye" ] in
  (lookup "usageMetadata" (@nil (string * value)) = None /\
   lookup "candidates" (@nil (string * value)) = None) /\
  extractTokenUsage sample_ToNumber
    (response_value (VObj (candidates_field candidates ++ [])) []) w0 =
    (Ok (usage_value (tokens 0) (tokens 3) (tokens 3)), w0) /\
  extract_body sample_ToNumber VNull =
    Throw (TypeError "Cannot read properties of undefined or null: data") /\
  exists w', extractTokenUsage sample_ToNumber VNull w0 = (Ok zero_usage, w').
Proof.
  intros said candidates. split; [split; reflexivity |].
  split.
  - exact (proj1 (proj2 (proj2 (extractTokenUsage_spec sample_ToNumber)))
             candidates [] [] w0 eq_refl eq_refl).
  - split; [reflexivity |].
    destruct (proj2 (proj2 (proj2 (extractTokenUsage_spec sample_ToNumber))) VNull w0)
      as (u & w' & Hrun & Hfail).
    destruct (Hfail _ eq_refl) as [Hu _]. exists w'. rewrite <- Hu. exact Hrun.
Defined.

(** C8: the usage store rejects the write of the user "u-1".  The client
    gets the answer it gets with a working store; the write is attempted
    once and its failure is logged. *)
Lemma usage_write_failure_invisible_witness :
  let E := deployment verified (rows [snapshot_within]) in
  let failing := fun _ : value => store_down in
  let working := fun _ : value => Resolves (VObj [("data", VNull); ("error", VNull)]) in
  let handler := generateContent_handler sample_ToNumber sample_parseFloat
                   sample_toISOString sample_toFixed in
  let req := authenticated_request in
  (truthy (field (user req) "id") = true /\
   axios_post E (generateContent_url E (params_model req)) (req_body req) =
     Resolves upstream_reply /\
   nullish upstream_reply = false) /\
  fst (handler (with_usage_store E failing) req w0) =
  fst (handler (with_usage_store E working) req w0) /\
  exists row events,
    trace (snd (handler (with_usage_store E failing) req w0)) = trace w0 ++ events /\
    usage_writes events = 1%nat /\
    In (EvInsert "api_usage" row) events /\
    existsb is_failure_log events = true.
Proof.
  intros E failing working handler req.
  split; [split; [reflexivity | split; reflexivity] |].
  destruct (usage_write_failure_invisible sample_ToNumber sample_parseFloat
              sample_toISOString sample_toFixed sample_schema E failing working
              req w0) as (Hsame & _ & _ & Hwrite).
  split; [exact Hsame |].
  destruct (Hwrite upstream_reply eq_refl eq_refl eq_refl)
    as (row & events & Ht & Hn & Hin & Hf).
  exists row, events. split; [exact Ht |]. split; [exact Hn |].
  split; [exact Hin | exact Hf].
Defined.

(** The same on the whole route: with a usage store that rejects the write,
    the client gets the response it gets with a working store, and the
    failure is logged. *)
Example failing_usage_store_same_response :
  let route := generateContent_route sample_ToNumber sample_parseFloat
                 sample_toISOString sample_toFixed sample_schema in
  let snapshot_ok := VObj [ ("within_hourly_limit", VBool true);
                            ("within_daily_token_limit", VBool true);
                            ("within_daily_cost_limit", VBool true) ] in
  let E1 := deployment verified (rows [snapshot_ok]) in
  let E2 := with_usage_store E1 (fun _ => store_down) in
  fst (route E1 bearer_request w0) = fst (route E2 bearer_request w0) /\
  (exists res, fst (route E2 bearer_request w0) = Ok res /\
               status res = VNum (num_of_Z 200)) /\
  usage_writes (trace (snd (route E2 bearer_request w0))) = 1%nat /\
  In (EvLog Err "Failed to record usage in database")
     (trace (snd (route E2 bearer_request w0))).
Proof.
  cbv zeta. split; [vm_compute; reflexivity |].
  split; [eexists; split; vm_compute; reflexivity |].
  split; [vm_compute; reflexivity |].
  vm_compute. tauto.
Qed.

(** C9: the identity provider is unavailable on both attempts, and the
    request is answered 401 without a profile lookup; when the fallback
    verifies the token, the request is passed on with the user "u-1". *)
Lemma auth_gate_attempts_witness :
  (authorization bearer_request = Some "Bearer token-1" /\
   String.prefix "Bearer " "Bearer token-1" = true) /\
  (exists out events,
     authenticateUser (deployment unavailable (rows [])) bearer_request w0 =
       (Ok out, logged w0 events) /\
     verification_attempts events =
       [EvGetUser false "token-1"; EvGetUser true "token-1"] /\
     out = Sent invalid_token /\
     existsb is_profile_lookup events = false) /\
  (exists events,
     authenticateUser (deployment verified_by_fallback (rows [])) bearer_request w0 =
       (Ok (Next (set_principal bearer_request alice alice_profile)),
        logged w0 events) /\
     verification_attempts events =
       [EvGetUser false "token-1"; EvGetUser true "token-1"] /\
     In (EvSelect "user_profiles" (VStr "u-1")) events).
Proof.
  split; [split; reflexivity |]. split.
  - destruct (auth_gate_attempts (deployment unavailable (rows [])) bearer_request w0
                "Bearer token-1" eq_refl eq_refl)
      as (out & events & Hrun & Hatt & Hfail & _).
    destruct (Hfail eq_refl eq_refl) as [Hout Hnone].
    exists out, events. split; [exact Hrun |]. split; [exact Hatt |].
    split; [exact Hout | exact Hnone].
  - destruct (auth_gate_attempts (deployment verified_by_fallback (rows []))
                bearer_request w0 "Bearer token-1" eq_refl eq_refl)
      as (out & events & Hrun & Hatt & _ & Hok & _).
    destruct (Hok eq_refl) as [Hin Hout].
    exists events. rewrite Hrun, Hout. split; [reflexivity |].
    split; [exact Hatt | exact Hin].
Defined.

(** C9 as stated fails when the identity provider answers the first attempt
    with an error: the gate makes a second attempt with the service-role
    client, and the error, transient or not, is answered with 401, not with
    a 5xx status. *)
Lemma auth_gate_counterexample :
  let out := authenticateUser (deployment unavailable (rows [])) bearer_request w0 in
  verification_attempts (trace (snd out)) =
    [EvGetUser false "token-1"; EvGetUser true "token-1"] /\
  List.length (verification_attempts (trace (snd out))) <> 1%nat /\
  fst out = Ok (Sent invalid_token) /\
  status invalid_token = VNum (num_of_Z 401) /\
  is_5xx invalid_token = false.
Proof.
  cbv zeta. split; [reflexivity |]. split; [discriminate |].
  split; [reflexivity |]. split; reflexivity.
Defined.

(** C10: a user without limit rows is rejected. *)
Lemma empty_snapshot_rejected_witness :
  (truthy (user authenticated_request) = true /\
   store_rpc (deployment verified (rows [])) "check_user_limits"
     (limits_args authenticated_request) =
     Resolves (VObj [("data", VArr []); ("error", VNull)]) /\
   field (VObj [("data", VArr []); ("error", VNull)]) "data" = VArr [] /\
   truthy (field (VObj [("data", VArr []); ("error", VNull)]) "error") = false) /\
  guarded_pipeline sample_ToNumber sample_parseFloat sample_toISOString
    sample_toFixed
    (deployment verified (rows [])) authenticated_request w0 =
  (Ok (quota_response sample_parseFloat sample_toISOString default_limits
         HourlyRequests 1700000000000),
   tick (logged w0 [limits_call (VStr "u-1")])
     [EvLog Info "Checking user limits";
      EvLog Warn "User exceeded hourly request limit"]).
Proof.
  split; [split; [reflexivity | split; [reflexivity | split; reflexivity]] |].
  exact (proj1 (proj2 (proj2 (proj2
    (empty_snapshot_rejected sample_ToNumber sample_parseFloat sample_toISOString
       sample_toFixed (deployment verified (rows [])) authenticated_request w0
       (VObj [("data", VArr []); ("error", VNull)])
       eq_refl eq_refl eq_refl eq_refl))))).
Defined.


(** X14 (sample).  The same exchange writes one usage record: 9 tokens, the cost
    27/20000000 (0.00000135, not rounded), 'gemini-1.5-flash', 'generate'. *)
Lemma generateContent_records_usage_witness :
  let E := serving in
  let req := authenticated_request in
  let data := [ ("candidates",
                 VArr [candidate_value [ {| text := Some "Hi there"; inlineData := None |} ]]);
                ("usageMetadata", metadata_value (Some 6%Z) (Some 3%Z) (Some 9%Z)) ] in
  (truthy (field (user req) "id") = true /\
   axios_post E (generateContent_url E (params_model req)) (req_body req) =
     Resolves upstream_reply /\
   field upstream_reply "data" = VObj data /\
   extract_body sample_ToNumber upstream_reply =
     Ok (usage_value (tokens 6) (tokens 3) (tokens 9))) /\
  exists events,
    trace (snd (generateContent_handler sample_ToNumber sample_parseFloat sample_toISOString
      sample_toFixed E req w0)) =
      trace w0 ++ events /\
    usage_writes events = 1%nat /\
    In (EvInsert "api_usage"
          (usage_row (VStr "u-1") (tokens 9) (Fin (27 # 20000000))
                     "gemini-1.5-flash" "generate")) events.
Proof.
  intros E req data. split; [repeat split |].
  destruct (generateContent_records_usage sample_ToNumber sample_parseFloat
              sample_toISOString sample_toFixed E req w0 upstream_reply (usage_value (tokens 6) (tokens 3) (tokens 9))
              data eq_refl eq_refl eq_refl eq_refl)
    as (cost & events & Hc & Ht & Hn & Hin).
  injection Hc as <-. exists events. repeat split; assumption.
Defined.

(** X15 (sample).  The upstream API times out: the client gets 500 CONNECTION_ERROR
    and the trace holds no usage write. *)
Lemma upstream_failure_response_witness :
  let E := with_upstream serving upstream_timeout in
  let req := authenticated_request in
  (truthy (user req) = true /\
   axios_post E (generateContent_url E (params_model req)) (req_body req) =
     upstream_timeout) /\
  generateContent_handler sample_ToNumber sample_parseFloat sample_toISOString
      sample_toFixed E req w0 =
  (Ok {| status := VNum (num_of_Z 500); headers := [];
         body := error_body (VStr "CONNECTION_ERROR")
                            (VStr "Failed to connect to Gemini API") |},
   tick w0 [ EvLog Info "Generate content request";
             EvLog Info "Making Gemini API request";
             EvHttpPost (generateContent_url E (params_model req)) (req_body req);
             EvLog Err "Gemini API request failed";
             EvLog Err "Generate content error" ]).
Proof.
  intros E req. split; [split; reflexivity |].
  exact (proj1 (upstream_failure_response sample_ToNumber sample_parseFloat
                  sample_toISOString sample_toFixed E req w0
                  _ eq_refl eq_refl) eq_refl).
Defined.

(** X8 (sample).  The user "u-1" within every ceiling is passed on with the
    snapshot attached. *)
Lemma checkUserLimits_within_witness :
  let E := serving in
  let req := authenticated_request in
  let w1 := logged w0 [limits_call (VStr "u-1")] in
  (truthy (user req) = true /\
   svc_checkUserLimits E (field (user req) "id") w0 = (Ok snapshot_within, w1) /\
   first_violated snapshot_within = None) /\
  checkUserLimits sample_parseFloat sample_toISOString E req w0 =
  (Ok (Next (set_userLimits req snapshot_within)),
   logged w1 [EvLog Info "Checking user limits"]).
Proof.
  intros E req w1. split; [repeat split |].
  exact (proj1 (checkUserLimits_within sample_ToNumber sample_parseFloat
                  sample_toISOString sample_toFixed E req w0 w1 snapshot_within
                  eq_refl eq_refl eq_refl)).
Defined.

(** X3 (sample).  A first visit: the profile is created with tier 'free' and
    returned. *)
Lemma getUserProfile_provisions_witness :
  let r := VObj [ ("data", VNull);
                  ("error", VObj [ ("code", VStr "PGRST116");
                                   ("message", VStr "no rows") ]) ] in
  let r' := VObj [("data", new_profile (VStr "u-1")); ("error", VNull)] in
  (store_select first_visit "user_profiles" (VStr "u-1") = Resolves r /\
   field (field r "error") "code" = VStr "PGRST116" /\
   store_insert first_visit "user_profiles" (new_profile (VStr "u-1")) = Resolves r' /\
   r' <> VUndefined /\ r' <> VNull) /\
  getUserProfile first_visit (VStr "u-1") w0 =
  (Ok (new_profile (VStr "u-1")),
   logged w0 [ EvSelect "user_profiles" (VStr "u-1");
               EvInsert "user_profiles" (new_profile (VStr "u-1"));
               EvLog Info "Created new user profile" ]).
Proof.
  intros r r'.
  assert (H1 : r' <> VUndefined) by discriminate.
  assert (H2 : r' <> VNull) by discriminate.
  split; [repeat split; assumption |].
  exact (proj1 (proj2 (getUserProfile_provisions first_visit (VStr "u-1") w0 r r'
                         eq_refl eq_refl eq_refl H1 H2)) eq_refl).
Defined.

(** X11 (sample).  'text-embedding-004' is billed as 'gemini-pro'. *)
Lemma calculateCost_unlisted_default_witness :
  (lookup "text-embedding-004" pricing_entries = None /\
   is_inherited_name "text-embedding-004" = false) /\
  calculateCost sample_ToNumber (tokens 1000) (tokens 0) "text-embedding-004" =
  calculateCost sample_ToNumber (tokens 1000) (tokens 0) "gemini-pro".
Proof.
  split; [split; reflexivity |].
  exact (calculateCost_unlisted_default sample_ToNumber (tokens 1000) (tokens 0)
           "text-embedding-004" eq_refl eq_refl).
Defined.

(** X12 (sample).  6 and then 12 prompt tokens with 3 output tokens on
    'gemini-1.5-flash'. *)
Lemma calculateCost_accepted_models_witness :
  (includes allowedModels "gemini-1.5-flash" = true /\
   "gemini-1.5-flash" <> "gemini-embedding-001" /\
   (0 <= 6 <= 12)%Z /\ (0 <= 3 <= 3)%Z) /\
  exists c c',
    calculateCost sample_ToNumber (tokens 6) (tokens 3) "gemini-1.5-flash" = Ok c /\
    calculateCost sample_ToNumber (tokens 12) (tokens 3) "gemini-1.5-flash" = Ok c' /\
    num_is_finite c = true /\ num_nonneg c = true /\ num_le c c' = true.
Proof.
  assert (Hne : "gemini-1.5-flash" <> "gemini-embedding-001") by discriminate.
  assert (Hx : (0 <= 6 <= 12)%Z) by lia.
  assert (Hy : (0 <= 3 <= 3)%Z) by lia.
  split; [repeat split; try assumption; try lia |].
  destruct (calculateCost_accepted_models sample_ToNumber "gemini-1.5-flash"
              6 12 3 3 eq_refl Hne Hx Hy) as (c & c' & H1 & H2 & H3 & H4 & H5 & _).
  exists c, c'. repeat split; assumption.
Defined.

(** X6 (sample).  The free-tier user "u-1" behind authenticateUser, at an endpoint
    for the 'pro' tier: 403. *)
Lemma requireRole_after_authenticateUser_witness :
  let E := serving in
  let req' := set_principal bearer_request alice alice_profile in
  let w1 := logged w0 entry_events in
  authenticateUser E bearer_request w0 = (Ok (Next req'), w1) /\
  requireRole ["pro"] req' w1 =
  (Ok (Sent (insufficient_permissions ["pro"])),
   logged w1 [EvLog Warn "Insufficient permissions"]).
Proof.
  intros E req' w1. split; [reflexivity |].
  destruct (requireRole_after_authenticateUser E ["pro"] bearer_request req' w0 w1
              eq_refl) as [H | H]; [discriminate H | exact H].
Defined.

(** X21 (sample).  'gemini-1.5-flash' at the embeddings route. *)
Lemma embeddings_rejects_other_models_witness :
  (user authenticated_request <> VUndefined /\
   user authenticated_request <> VNull /\
   includes embeddingModels (params_model authenticated_request) = false) /\
  embeddings_handler sample_ToNumber sample_parseFloat sample_toISOString
      sample_toFixed sample_JSON_stringify
    serving authenticated_request w0 =
  (Ok (invalid_embedding_model "gemini-1.5-flash"), w0).
Proof.
  assert (H1 : user authenticated_request <> VUndefined) by discriminate.
  assert (H2 : user authenticated_request <> VNull) by discriminate.
  split; [repeat split; assumption |].
  exact (proj1 (embeddings_rejects_other_models sample_ToNumber sample_parseFloat
                  sample_toISOString sample_toFixed sample_JSON_stringify serving authenticated_request w0
                  H1 H2 eq_refl)).
Defined.

(** X22 (sample).  An embedding of "hello" with 'gemini-embedding-001'. *)
Lemma embeddings_cost_is_NaN_witness :
  let E := serving in
  let req := embedding_request in
  (params_model req = "gemini-embedding-001" /\
   truthy (field (user req) "id") = true /\
   req_body req <> VUndefined /\ req_body req <> VNull /\
   axios_post E (embeddings_url E "gemini-embedding-001") (req_body req) =
     Resolves upstream_reply /\
   upstream_reply <> VUndefined /\ upstream_reply <> VNull) /\
  exists res w' n events,
    embeddings_handler sample_ToNumber sample_parseFloat sample_toISOString
      sample_toFixed sample_JSON_stringify
      E req w0 = (Ok res, w') /\
    status res = VNum (num_of_Z 200) /\
    field (field (body res) "usageMetadata") "cost" = VNum NaN /\
    trace w' = trace w0 ++ events /\
    In (EvInsert "api_usage"
          (usage_row (VStr "u-1") (VNum n) NaN "gemini-embedding-001" "embedding"))
       events.
Proof.
  intros E req.
  assert (H1 : req_body req <> VUndefined) by discriminate.
  assert (H2 : req_body req <> VNull) by discriminate.
  assert (H3 : upstream_reply <> VUndefined) by discriminate.
  assert (H4 : upstream_reply <> VNull) by discriminate.
  split; [repeat split; assumption |].
  exact (embeddings_cost_is_NaN sample_ToNumber sample_parseFloat sample_toISOString
           sample_toFixed sample_JSON_stringify E req w0 upstream_reply
           eq_refl eq_refl H1 H2 eq_refl H3 H4).
Defined.

(** X23 (sample).  A body of 10 characters of JSON text with a [model], sent to
    'text-embedding-004': 3 tokens, cost 3/2000000. *)
Lemma embedding_billing_witness :
  (embedding_body <> VUndefined /\ embedding_body <> VNull /\
   lookup "text-embedding-004" pricing_entries = None /\
   is_inherited_name "text-embedding-004" = false) /\
  embedding_tokens sample_ToNumber sample_JSON_stringify embedding_body =
    Ok (num_of_Z 3) /\
  calculateCost sample_ToNumber (VNum (num_of_Z 3)) (VNum (Fin 0))
    "text-embedding-004" = Ok (Fin (3 # 2000000)).
Proof.
  assert (H1 : embedding_body <> VUndefined) by discriminate.
  assert (H2 : embedding_body <> VNull) by discriminate.
  split; [repeat split; assumption |].
  destruct (embedding_billing sample_ToNumber sample_JSON_stringify embedding_body
              "text-embedding-004" H1 H2 eq_refl eq_refl)
    as (n & cost & Hn & Hc & _ & Ht).
  destruct (Ht eq_refl) as [-> ->]. split; [exact Hn | exact Hc].
Defined.

(** X25 (sample).  A plain Error in production. *)
Lemma errorHandler_answers_witness :
  (Error "boom" <> VUndefined /\ Error "boom" <> VNull) /\
  exists code fields w',
    errorHandler sample_toISOString serving "production" (Error "boom")
      authenticated_request w0 = (Ok (json code (VObj fields)), w') /\
    In code handled_statuses /\
    lookup "stack" fields = None.
Proof.
  assert (H1 : Error "boom" <> VUndefined) by discriminate.
  assert (H2 : Error "boom" <> VNull) by discriminate.
  assert (H3 : "production" <> "development") by discriminate.
  split; [split; assumption |].
  destruct (errorHandler_answers sample_toISOString serving "production"
              (Error "boom") authenticated_request w0 H1 H2)
    as (code & fields & w' & H & Hin & Hp).
  exists code, fields, w'. repeat split; [exact H | exact Hin | exact (proj1 (Hp H3))].
Defined.

(** X10 (sample).  A body that holds only the prompt "hello". *)
Lemma estimate_input_without_contents_witness :
  lookup "contents" [("prompt", VStr "hello")] = None /\
  estimate_input sample_ToNumber (VObj [("prompt", VStr "hello")]) =
  Ok (num_of_Z 102).
Proof.
  split; [reflexivity |].
  exact (proj2 (estimate_input_without_contents sample_ToNumber
                  [("prompt", VStr "hello")] eq_refl) "hello" eq_refl).
Defined.

(** X30 (sample).  The limits store rejects the query of the user "u-1": the
    request is served. *)
Lemma limits_outage_reaches_upstream_witness :
  let E := deployment verified store_down in
  (truthy (user authenticated_request) = true /\
   store_rpc E "check_user_limits" (limits_args authenticated_request) =
     Rejects (VObj [("message", VStr "fetch failed")])) /\
  exists res w' events,
    guarded_pipeline sample_ToNumber sample_parseFloat sample_toISOString
      sample_toFixed E
      authenticated_request w0 = (Ok res, w') /\
    trace w' = trace w0 ++ events /\
    existsb is_upstream_call events = true.
Proof.
  intros E. split; [split; reflexivity |].
  exact (limits_outage_reaches_upstream sample_ToNumber sample_parseFloat
           sample_toISOString sample_toFixed E authenticated_request w0 _ eq_refl eq_refl).
Defined.
